(** * pod: peer registry, long-poll work state, checkpoint cache and kopach
      controller election

    A shallow embedding of the bookkeeping code of
    [cmd/node/rpc/server.go] and [cmd/kopach/main.go], followed by the
    properties the specification states about it.

    Conventions of the embedding:
    - Go's [int] and [int64] are [Z] with the two's-complement wrap-around
      written out ([wrap_int]); [int32] peer identifiers are [Z] keys.
    - Go maps are stdpp [gmap]s; [len m] is [size m].
    - [time.Time] is the number of nanoseconds since the Unix epoch;
      [time.Now()] is an explicit argument [now] of whatever reads the clock.
    - Calls on collaborators (peer objects, the connection manager, worker
      processes) are recorded in an effect list returned next to the state.
    - A run-time panic is the result [None]. *)

From Stdlib Require Import ZArith Lia Bool.
From Stdlib Require Import Strings.Byte Strings.Ascii Strings.String.
From stdpp Require Import base option list gmap strings fin_maps
     sorting.

Local Open Scope Z_scope.
Set Warnings "-clear-no-such-hyp".

(** ** Machine integers and time *)

Definition wrap_int (z : Z) : Z := (z + 2 ^ 63) mod 2 ^ 64 - 2 ^ 63.

Definition len {K : Type} `{Countable K} {V : Type} (m : gmap K V) : Z :=
  Z.of_nat (size m).

Module Time.

(** Nanoseconds since the Unix epoch. *)
Definition Time : Type := Z.
Definition Duration : Type := Z.

Definition Second : Duration := 1000000000.

(** [time.Time{}], January 1 of year 1, 00:00:00 UTC. *)
Definition zero : Time := (-62135596800) * Second.

Definition IsZero (t : Time) : bool := t =? zero.
Definition Unix (t : Time) : Z := t / Second.
Definition Add (t : Time) (d : Duration) : Time := t + d.
Definition Sub (t u : Time) : Duration := t - u.
Definition Before (t u : Time) : bool := t <? u.
Definition After (t u : Time) : bool := u <? t.

End Time.

(** ** cmd/node/rpc/server.go: the peer registry *)

Module Server.

(** [wire.NetAddress] *)
Record NetAddress := mkNetAddress {
  Timestamp : Time.Time;
  Services : Z;
  IP : list byte;
  Port : Z
}.

(** The part of a [*NodePeer] the peer handler reads. [ConnReq] holds
    [sp.ConnReq.ID()] when [sp.ConnReq != nil]. *)
Record NodePeer := mkNodePeer {
  ID : Z;
  Inbound : bool;
  Persistent : bool;
  Addr : string;
  NA : option NetAddress;
  VersionKnown : bool;
  VerAckReceived : bool;
  ConnReq : option Z
}.

Record PeerState := mkPeerState {
  InboundPeers : gmap Z NodePeer;
  OutboundPeers : gmap Z NodePeer;
  PersistentPeers : gmap Z NodePeer;
  Banned : gmap string Time.Time;
  OutboundGroups : gmap string Z
}.

(** The fields of [*Node] read by the handlers: the atomic [Shutdown]
    flag, [*n.Config.MaxPeers] and [*n.Config.BanDuration]. *)
Record Node := mkNode {
  Shutdown : Z;
  MaxPeers : Z;
  BanDuration : Time.Duration
}.

Inductive Effect :=
| PeerDisconnect (sp : NodePeer)
| ConnManagerDisconnect (id : Z)
| AddrManagerConnected (na : NetAddress).

(** The state made by [PeerHandler] before its loop. *)
Definition emptyPeerState : PeerState :=
  mkPeerState ∅ ∅ ∅ ∅ ∅.

Definition Count (ps : PeerState) : Z :=
  wrap_int (wrap_int (len (InboundPeers ps) + len (OutboundPeers ps))
            + len (PersistentPeers ps)).

Definition set_InboundPeers (m : gmap Z NodePeer) (ps : PeerState) :=
  mkPeerState m (OutboundPeers ps) (PersistentPeers ps) (Banned ps)
              (OutboundGroups ps).
Definition set_OutboundPeers (m : gmap Z NodePeer) (ps : PeerState) :=
  mkPeerState (InboundPeers ps) m (PersistentPeers ps) (Banned ps)
              (OutboundGroups ps).
Definition set_PersistentPeers (m : gmap Z NodePeer) (ps : PeerState) :=
  mkPeerState (InboundPeers ps) (OutboundPeers ps) m (Banned ps)
              (OutboundGroups ps).
Definition set_Banned (m : gmap string Time.Time) (ps : PeerState) :=
  mkPeerState (InboundPeers ps) (OutboundPeers ps) (PersistentPeers ps) m
              (OutboundGroups ps).
Definition set_OutboundGroups (m : gmap string Z) (ps : PeerState) :=
  mkPeerState (InboundPeers ps) (OutboundPeers ps) (PersistentPeers ps)
              (Banned ps) m.

(** [groups[k]++] and [groups[k]--]: a missing key reads as zero. *)
Definition incr (k : string) (groups : gmap string Z) : gmap string Z :=
  <[k := wrap_int (default 0 (groups !! k) + 1)]> groups.
Definition decr (k : string) (groups : gmap string Z) : gmap string Z :=
  <[k := wrap_int (default 0 (groups !! k) - 1)]> groups.

Section Handlers.

(** [net.SplitHostPort] and [addrmgr.GroupKey] are taken as they come:
    the first returns the host or fails. *)
Variable SplitHostPort : string -> option (string * string).
Variable GroupKey : option NetAddress -> string.

Definition HandleAddPeerMsg (n : Node) (state : PeerState)
           (sp : option NodePeer) (now : Time.Time)
  : bool * PeerState * list Effect :=
  match sp with
  | None => (false, state, [])
  | Some sp =>
    if negb (Shutdown n =? 0) then (false, state, [PeerDisconnect sp])
    else
      match SplitHostPort (Addr sp) with
      | None => (false, state, [PeerDisconnect sp])
      | Some (host, _) =>
        let checked : option PeerState :=
          match Banned state !! host with
          | Some banEnd =>
            if Time.Before now banEnd then None
            else Some (set_Banned (delete host (Banned state)) state)
          | None => Some state
          end in
        match checked with
        | None => (false, state, [PeerDisconnect sp])
        | Some state =>
          if Count state >=? MaxPeers n
          then (false, state, [PeerDisconnect sp])
          else if Inbound sp
          then (true,
                set_InboundPeers (<[ID sp := sp]> (InboundPeers state))
                                 state, [])
          else
            let state :=
              set_OutboundGroups
                (incr (GroupKey (NA sp)) (OutboundGroups state)) state in
            if Persistent sp
            then (true,
                  set_PersistentPeers
                    (<[ID sp := sp]> (PersistentPeers state)) state, [])
            else (true,
                  set_OutboundPeers
                    (<[ID sp := sp]> (OutboundPeers state)) state, [])
        end
      end
  end.

Definition HandleBanPeerMsg (n : Node) (state : PeerState)
           (sp : NodePeer) (now : Time.Time) : PeerState :=
  match SplitHostPort (Addr sp) with
  | None => state
  | Some (host, _) =>
    set_Banned (<[host := Time.Add now (BanDuration n)]> (Banned state))
               state
  end.

(** The map [HandleDonePeerMsg] picks in its [switch]. *)
Inductive PeerList := ListPersistent | ListInbound | ListOutbound.

#[global] Instance PeerList_eq_dec : EqDecision PeerList.
Proof. solve_decision. Defined.

Definition donePeerList (sp : NodePeer) : PeerList :=
  if Persistent sp then ListPersistent
  else if Inbound sp then ListInbound
  else ListOutbound.

Definition getList (l : PeerList) (state : PeerState) : gmap Z NodePeer :=
  match l with
  | ListPersistent => PersistentPeers state
  | ListInbound => InboundPeers state
  | ListOutbound => OutboundPeers state
  end.

Definition setList (l : PeerList) (m : gmap Z NodePeer)
           (state : PeerState) : PeerState :=
  match l with
  | ListPersistent => set_PersistentPeers m state
  | ListInbound => set_InboundPeers m state
  | ListOutbound => set_OutboundPeers m state
  end.

Definition HandleDonePeerMsg (state : PeerState) (sp : NodePeer)
  : PeerState * list Effect :=
  let list := donePeerList sp in
  match getList list state !! ID sp with
  | Some _ =>
    let state :=
      if negb (Inbound sp) && VersionKnown sp
      then set_OutboundGroups
             (decr (GroupKey (NA sp)) (OutboundGroups state)) state
      else state in
    let effs :=
      match ConnReq sp with
      | Some id => if negb (Inbound sp) then [ConnManagerDisconnect id]
                   else []
      | None => []
      end in
    (setList list (delete (ID sp) (getList list state)) state, effs)
  | None =>
    let effs1 :=
      match ConnReq sp with
      | Some id => [ConnManagerDisconnect id]
      | None => []
      end in
    let effs2 :=
      match NA sp with
      | Some na =>
        if VerAckReceived sp && VersionKnown sp
        then [AddrManagerConnected na] else []
      | None => []
      end in
    (state, effs1 ++ effs2)
  end.

(** [DisconnectPeer] ranges over a Go map, whose order is not fixed: any
    matching entry may be the one it removes. The result is the new
    list, the peer found (if any), to which [whenFound] and
    [Disconnect] are applied by the caller below. *)
Inductive DisconnectPeer (peerList : gmap Z NodePeer)
          (compareFunc : NodePeer -> bool)
  : gmap Z NodePeer -> option NodePeer -> Prop :=
| DisconnectPeer_found addr nodePeer :
    peerList !! addr = Some nodePeer ->
    compareFunc nodePeer = true ->
    DisconnectPeer peerList compareFunc (delete addr peerList)
                   (Some nodePeer)
| DisconnectPeer_none :
    (forall addr nodePeer,
        peerList !! addr = Some nodePeer -> compareFunc nodePeer = false) ->
    DisconnectPeer peerList compareFunc peerList None.

(** The queries of [HandleQuery] that write to the peer state; the
    others ([GetConnCountMsg], [GetPeersMsg], [ConnectNodeMsg],
    [GetOutboundGroup], [GetAddedNodesMsg]) only read it. *)
Inductive Query :=
| RemoveNodeMsg (Cmp : NodePeer -> bool)
| DisconnectNodeMsg (Cmp : NodePeer -> bool)
| ReadOnlyQuery.

Definition groupsDown (sp : NodePeer) (state : PeerState) : PeerState :=
  set_OutboundGroups (decr (GroupKey (NA sp)) (OutboundGroups state))
                     state.

(** The [for found { ... }] loop of [DisconnectNodeMsg]. *)
Inductive DisconnectRepeat (Cmp : NodePeer -> bool)
  : PeerState -> PeerState -> list Effect -> Prop :=
| DisconnectRepeat_more state m sp state' effs :
    DisconnectPeer (OutboundPeers state) Cmp m (Some sp) ->
    DisconnectRepeat Cmp (set_OutboundPeers m (groupsDown sp state))
                     state' effs ->
    DisconnectRepeat Cmp state state' (PeerDisconnect sp :: effs)
| DisconnectRepeat_done state :
    DisconnectPeer (OutboundPeers state) Cmp (OutboundPeers state) None ->
    DisconnectRepeat Cmp state state [].

(** [HandleQuery state q state' effs found]: [found] is what decides
    between the [nil] reply and the "not found" error. *)
Inductive HandleQuery (state : PeerState)
  : Query -> PeerState -> list Effect -> bool -> Prop :=
| HandleQuery_remove_found Cmp m sp :
    DisconnectPeer (PersistentPeers state) Cmp m (Some sp) ->
    HandleQuery state (RemoveNodeMsg Cmp)
                (set_PersistentPeers m (groupsDown sp state))
                [PeerDisconnect sp] true
| HandleQuery_remove_none Cmp m :
    DisconnectPeer (PersistentPeers state) Cmp m None ->
    HandleQuery state (RemoveNodeMsg Cmp) state [] false
| HandleQuery_disconnect_inbound Cmp m sp :
    DisconnectPeer (InboundPeers state) Cmp m (Some sp) ->
    HandleQuery state (DisconnectNodeMsg Cmp)
                (set_InboundPeers m state) [PeerDisconnect sp] true
| HandleQuery_disconnect_outbound Cmp m0 m sp state' effs :
    DisconnectPeer (InboundPeers state) Cmp m0 None ->
    DisconnectPeer (OutboundPeers state) Cmp m (Some sp) ->
    DisconnectRepeat Cmp (set_OutboundPeers m (groupsDown sp state))
                     state' effs ->
    HandleQuery state (DisconnectNodeMsg Cmp) state'
                (PeerDisconnect sp :: effs) true
| HandleQuery_disconnect_none Cmp m0 m1 :
    DisconnectPeer (InboundPeers state) Cmp m0 None ->
    DisconnectPeer (OutboundPeers state) Cmp m1 None ->
    HandleQuery state (DisconnectNodeMsg Cmp) state [] false
| HandleQuery_read :
    HandleQuery state ReadOnlyQuery state [] false.

(** What [PeerHandler] receives in its [select]; the messages that do
    not reach the three peer maps, the ban table or the group counts
    (height updates, relays, broadcasts) are one constructor. *)
Inductive Msg :=
| NewPeers (p : option NodePeer)
| DonePeers (p : NodePeer)
| BanPeers (p : NodePeer)
| QueryMsg (q : Query)
| OtherMsg.

(** One turn of the loop of [PeerHandler]. The server flags and the
    clock are read at each turn. *)
Inductive PeerHandler_step : PeerState -> Msg -> PeerState -> Prop :=
| step_NewPeers n now state p :
    PeerHandler_step state (NewPeers p)
                     (HandleAddPeerMsg n state p now).1.2
| step_DonePeers state p :
    PeerHandler_step state (DonePeers p) (HandleDonePeerMsg state p).1
| step_BanPeers n now state p :
    PeerHandler_step state (BanPeers p) (HandleBanPeerMsg n state p now)
| step_Query state q state' effs found :
    HandleQuery state q state' effs found ->
    PeerHandler_step state (QueryMsg q) state'
| step_Other state :
    PeerHandler_step state OtherMsg state.

Inductive PeerHandler_run : PeerState -> list Msg -> PeerState -> Prop :=
| run_nil state : PeerHandler_run state [] state
| run_cons state msg state' msgs state'' :
    PeerHandler_step state msg state' ->
    PeerHandler_run state' msgs state'' ->
    PeerHandler_run state (msg :: msgs) state''.

End Handlers.

End Server.

(** ** Strings: the parts of [strings], [strconv], [fmt] and
       [encoding/hex] that the template identifier goes through *)

Module Str.

Definition is_digit (c : ascii) : bool :=
  let n := Z.of_N (N_of_ascii c) in (48 <=? n) && (n <=? 57).

Definition digit_char (d : Z) : ascii := ascii_of_N (Z.to_N (48 + d)).

(** [strings.Split(s, sep)] for a separator of one byte. *)
Fixpoint Split (s : string) (sep : ascii) : list string :=
  match s with
  | EmptyString => [EmptyString]
  | String c s' =>
    if Ascii.eqb c sep then EmptyString :: Split s' sep
    else match Split s' sep with
         | f :: fs => String c f :: fs
         | [] => [String c EmptyString]
         end
  end.

(** The digit loop of [strconv.ParseUint(s, 10, 64)]: [n] is a [uint64],
    and the two overflow tests are those of the Go code. *)
Definition maxUint64 : Z := 2 ^ 64 - 1.

Fixpoint parseDigits (s : string) (n : Z) : option Z :=
  match s with
  | EmptyString => Some n
  | String c s' =>
    if negb (is_digit c) then None
    else
      let d := Z.of_N (N_of_ascii c) - 48 in
      if n >=? maxUint64 / 10 + 1 then None
      else
        let n := (n * 10) mod 2 ^ 64 in
        let n1 := (n + d) mod 2 ^ 64 in
        if (n1 <? n) || (n1 >? maxUint64) then None
        else parseDigits s' n1
  end.

Definition ParseUint (s : string) : option Z :=
  match s with
  | EmptyString => None
  | _ => parseDigits s 0
  end.

(** [strconv.ParseInt(s, 10, 64)]; every error is [None]. *)
Definition ParseInt (s : string) : option Z :=
  match s with
  | EmptyString => None
  | String c s' =>
    let '(neg, s0) :=
      if Ascii.eqb c "+"%char then (false, s')
      else if Ascii.eqb c "-"%char then (true, s')
      else (false, s) in
    match ParseUint s0 with
    | None => None
    | Some un =>
      let cutoff := 2 ^ 63 in
      if negb neg && (un >=? cutoff) then None
      else if neg && (un >? cutoff) then None
      else Some (if neg then - un else un)
    end
  end.

(** Decimal digits of a [uint64], most significant first; twenty digits
    are enough for [2^64 - 1]. *)
Fixpoint formatBits (fuel : nat) (u : Z) (acc : string) : string :=
  match fuel with
  | O => acc
  | S fuel =>
    let acc := String (digit_char (u mod 10)) acc in
    if u <? 10 then acc else formatBits fuel (u / 10) acc
  end.

(** [strconv.FormatInt(i, 10)], which is what [%d] prints for an
    [int64]. *)
Definition FormatInt (i : Z) : string :=
  if i <? 0 then String "-"%char (formatBits 20 (- i) EmptyString)
  else formatBits 20 i EmptyString.

Definition hexdigit (n : N) : ascii :=
  if (n <? 10)%N then ascii_of_N (48 + n) else ascii_of_N (87 + n).

Definition fromHexChar (c : ascii) : option N :=
  let n := N_of_ascii c in
  if (48 <=? n)%N && (n <=? 57)%N then Some (n - 48)%N
  else if (97 <=? n)%N && (n <=? 102)%N then Some (n - 87)%N
  else if (65 <=? n)%N && (n <=? 70)%N then Some (n - 55)%N
  else None.

(** [hex.EncodeToString] *)
Fixpoint EncodeToString (src : list byte) : string :=
  match src with
  | [] => EmptyString
  | b :: src =>
    let v := Byte.to_N b in
    String (hexdigit (v / 16)) (String (hexdigit (v mod 16))
                                       (EncodeToString src))
  end.

(** [hex.DecodeString]: an odd length or a character that is no
    hexadecimal digit is an error. *)
Fixpoint DecodeString (s : string) : option (list byte) :=
  match s with
  | EmptyString => Some []
  | String _ EmptyString => None
  | String a (String b s') =>
    match fromHexChar a, fromHexChar b with
    | Some h, Some l =>
      match Byte.of_N (h * 16 + l), DecodeString s' with
      | Some x, Some rest => Some (x :: rest)
      | _, _ => None
      end
    | _, _ => None
    end
  end.

End Str.

(** ** The getblocktemplate work state ([GBTWorkState]) and its long-poll
       registry

    The functions below are those that run with the state locked; the
    mutex itself is left out, and a function is one step on the state. *)

Module RPC.

(** [chainhash.Hash] is [[32]byte]. *)
Definition Hash : Type := list byte.
Definition HashSize : nat := 32.

#[export] Instance byte_eq_dec : EqDecision byte := Byte.byte_eq_dec.

#[export] Instance byte_countable : Countable byte :=
  inj_countable Byte.to_N Byte.of_N Byte.of_to_N.

(** Channels are names; the store records how many were made and which
    ones are closed. *)
Definition chan : Type := nat.

Record Chans := mkChans {
  nextChan : chan;
  closedChans : gset chan
}.

(** [make(chan struct{})] *)
Definition make (h : Chans) : chan * Chans :=
  (nextChan h, mkChans (S (nextChan h)) (closedChans h)).

(** [close(c)]: closing a closed channel panics. *)
Definition close (c : chan) (h : Chans) : option Chans :=
  if decide (c ∈ closedChans h) then None
  else Some (mkChans (nextChan h) ({[c]} ∪ closedChans h)).

Fixpoint closeAll (cs : list chan) (h : Chans) : option Chans :=
  match cs with
  | [] => Some h
  | c :: cs =>
    match close c h with
    | Some h => closeAll cs h
    | None => None
    end
  end.

(** What the work state keeps of a [*mining.BlockTemplate]: the header
    fields of [Block] that are read or written, the script of the first
    output of the coinbase, and the [ValidPayAddress] flag. *)
Record BlockTemplate := mkBlockTemplate {
  PrevBlock : Hash;
  Timestamp : Time.Time;
  Bits : Z;
  Nonce : Z;
  MerkleRoot : Hash;
  CoinbasePkScript : list byte;
  ValidPayAddress : bool
}.

Record GBTWorkState := mkGBTWorkState {
  Template : option BlockTemplate;
  prevHash : option Hash;
  LastGenerated : Time.Time;
  LastTxUpdate : Time.Time;
  MinTimestamp : Time.Time;
  NotifyMap : gmap Hash (gmap Z chan)
}.

Definition set_NotifyMap (nm : gmap Hash (gmap Z chan))
           (state : GBTWorkState) : GBTWorkState :=
  mkGBTWorkState (Template state) (prevHash state) (LastGenerated state)
                 (LastTxUpdate state) (MinTimestamp state) nm.

(** The first loop of [NotifyLongPollers], over the entries in the order
    the [range] yields them. *)
Fixpoint notifyStale (latestHash : Hash)
         (entries : list (Hash * gmap Z chan))
         (nm : gmap Hash (gmap Z chan)) (h : Chans)
  : option (gmap Hash (gmap Z chan) * Chans) :=
  match entries with
  | [] => Some (nm, h)
  | (hash, channels) :: entries =>
    if bool_decide (hash = latestHash)
    then notifyStale latestHash entries nm h
    else
      match closeAll (snd <$> map_to_list channels) h with
      | Some h => notifyStale latestHash entries (delete hash nm) h
      | None => None
      end
  end.

(** The second loop, over the channels registered for the latest hash. *)
Fixpoint notifyOlder (lastGeneratedUnix : Z) (entries : list (Z * chan))
         (channels : gmap Z chan) (h : Chans)
  : option (gmap Z chan * Chans) :=
  match entries with
  | [] => Some (channels, h)
  | (lastGen, c) :: entries =>
    if lastGen <? lastGeneratedUnix
    then
      match close c h with
      | Some h =>
        notifyOlder lastGeneratedUnix entries (delete lastGen channels) h
      | None => None
      end
    else notifyOlder lastGeneratedUnix entries channels h
  end.

(** [channels] is the map stored in [NotifyMap] itself, so the deletions
    of the second loop are seen through [NotifyMap]. *)
Definition NotifyLongPollers (latestHash : Hash)
           (lastGenerated : Time.Time) (state : GBTWorkState) (h : Chans)
  : option (GBTWorkState * Chans) :=
  match notifyStale latestHash (map_to_list (NotifyMap state))
                    (NotifyMap state) h with
  | None => None
  | Some (nm, h) =>
    if Time.IsZero lastGenerated then Some (set_NotifyMap nm state, h)
    else
      match nm !! latestHash with
      | None => Some (set_NotifyMap nm state, h)
      | Some channels =>
        match notifyOlder (Time.Unix lastGenerated)
                          (map_to_list channels) channels h with
        | None => None
        | Some (channels, h) =>
          let nm := <[latestHash := channels]> nm in
          if len channels =? 0
          then Some (set_NotifyMap (delete latestHash nm) state, h)
          else Some (set_NotifyMap nm state, h)
        end
      end
  end.

Definition TemplateUpdateChan (prevHash : Hash) (lastGenerated : Z)
           (state : GBTWorkState) (h : Chans)
  : chan * GBTWorkState * Chans :=
  let '(channels, nm) :=
    match NotifyMap state !! prevHash with
    | Some channels => (channels, NotifyMap state)
    | None => (∅, <[prevHash := ∅]> (NotifyMap state))
    end in
  match channels !! lastGenerated with
  | Some c => (c, set_NotifyMap nm state, h)
  | None =>
    let '(c, h) := make h in
    (c,
     set_NotifyMap (<[prevHash := <[lastGenerated := c]> channels]> nm)
                   state, h)
  end.

(** Modelled from the spec: [chainhash.Hash.String] (package
    pkg/chain/hash is not among the sources). The identifier is
    "<hex prevblockhash>-<unix seconds>": the hash is written as the
    hexadecimal digits of its 32 bytes. *)
Definition HashString (hash : Hash) : string := Str.EncodeToString hash.

(** Modelled from the spec: [chainhash.NewHashFromStr] (same package),
    which reads a hash back from its hexadecimal digits and fails on
    anything that is not the digits of 32 bytes. *)
Definition NewHashFromStr (s : string) : option Hash :=
  match Str.DecodeString s with
  | Some bs => if (length bs =? HashSize)%nat then Some bs else None
  | None => None
  end.

Definition DecodeTemplateID (templateID : string) : option (Hash * Z) :=
  match Str.Split templateID "-" with
  | [f0; f1] =>
    match NewHashFromStr f0 with
    | None => None
    | Some prevHash =>
      match Str.ParseInt f1 with
      | None => None
      | Some lastGenerated => Some (prevHash, lastGenerated)
      end
    end
  | _ => None
  end.

Definition EncodeTemplateID (prevHash : Hash) (lastGenerated : Time.Time)
  : string :=
  (HashString prevHash
   ++ String "-" (Str.FormatInt (Time.Unix lastGenerated)))%string.

(** *** Template generation and the long-poll handler *)

Definition GBTRegenerateSeconds : Z := 60.

Inductive RPCError :=
| ErrRPCOutOfRange
| ErrRPCInternal (message context : string)
| ErrNoPaymentAddress
| ErrClientQuit.

(** What one request sees of the collaborators reached through
    [*Server] and of the clock: the transaction source, the best chain
    snapshot, the template generator, the script and merkle code, the
    median time source, and the successive readings of [time.Now()] in
    [UpdateBlockTemplate]. [MaxTimeOffsetSeconds] is a constant of
    package blockchain. *)
Record Server := mkServer {
  TxSourceLastUpdated : Time.Time;
  BestSnapshotHash : Hash;
  ActiveMiningAddrs : list string;
  randIntn : Z -> Z;
  NewBlockTemplate : option string -> string + BlockTemplate;
  MinimumMedianTime : Time.Time;
  PayToAddrScript : string -> string + list byte;
  BuildMerkleRoot : BlockTemplate -> Hash;
  UpdateBlockTime : BlockTemplate -> BlockTemplate;
  AdjustedTime : Time.Time;
  MaxTimeOffsetSeconds : Z;
  TxSerializeError : option string;
  CoinbaseSerializeError : option string;
  nowTxUpdate : Time.Time;
  nowRegenerate : Time.Time;
  nowGenerated : Time.Time
}.

(** [addrs[rand.Intn(len(addrs))]]: [rand.Intn(0)] and an index out of
    range panic. *)
Definition pickMiningAddr (s : Server) : option string :=
  match ActiveMiningAddrs s with
  | [] => None
  | addrs =>
    let i := randIntn s (Z.of_nat (length addrs)) in
    if (0 <=? i) then addrs !! Z.to_nat i else None
  end.

Definition UpdateBlockTemplate (s : Server) (useCoinbaseValue : bool)
           (state : GBTWorkState) (h : Chans)
  : option (option RPCError * GBTWorkState * Chans) :=
  let lastTxUpdate :=
    if Time.IsZero (TxSourceLastUpdated s) then nowTxUpdate s
    else TxSourceLastUpdated s in
  let latestHash := BestSnapshotHash s in
  let regenerate :=
    match Template state, prevHash state with
    | None, _ => true
    | _, None => true
    | Some _, Some ph =>
      negb (bool_decide (ph = latestHash))
      || (negb (LastTxUpdate state =? lastTxUpdate)
          && Time.After (nowRegenerate s)
               (Time.Add (LastGenerated state)
                         (Time.Second * GBTRegenerateSeconds)))
    end in
  if regenerate then
    let state :=
      mkGBTWorkState (Template state) None (LastGenerated state)
                     (LastTxUpdate state) (MinTimestamp state)
                     (NotifyMap state) in
    let payAddr : option (option string) :=
      if useCoinbaseValue then Some None
      else match pickMiningAddr s with
           | Some a => Some (Some a)
           | None => None
           end in
    match payAddr with
    | None => None
    | Some payAddr =>
      match NewBlockTemplate s payAddr with
      | inl err =>
        Some (Some (ErrRPCInternal
                      ("(rpcserver.go) Failed to create new block template: "
                         ++ err) ""), state, h)
      | inr blkTemplate =>
        let state :=
          mkGBTWorkState (Some blkTemplate) (Some latestHash)
                         (nowGenerated s) lastTxUpdate
                         (MinimumMedianTime s) (NotifyMap state) in
        match NotifyLongPollers latestHash lastTxUpdate state h with
        | None => None
        | Some (state, h) => Some (None, state, h)
        end
      end
    end
  else
    match Template state with
    | None => None
    | Some template =>
      let paid : option (option RPCError * BlockTemplate) :=
        if negb useCoinbaseValue && negb (ValidPayAddress template) then
          match pickMiningAddr s with
          | None => None
          | Some payToAddr =>
            match PayToAddrScript s payToAddr with
            | inl err =>
              Some (Some (ErrRPCInternal
                            err "Failed to create pay-to-addr script"),
                    template)
            | inr pkScript =>
              let template :=
                mkBlockTemplate (PrevBlock template) (Timestamp template)
                                (Bits template) (Nonce template)
                                (MerkleRoot template) pkScript true in
              Some (None,
                    mkBlockTemplate (PrevBlock template)
                                    (Timestamp template) (Bits template)
                                    (Nonce template)
                                    (BuildMerkleRoot s template)
                                    (CoinbasePkScript template)
                                    (ValidPayAddress template))
            end
          end
        else Some (None, template) in
      match paid with
      | None => None
      | Some (Some err, _) => Some (Some err, state, h)
      | Some (None, template) =>
        let template := UpdateBlockTime s template in
        let template :=
          mkBlockTemplate (PrevBlock template) (Timestamp template)
                          (Bits template) 0 (MerkleRoot template)
                          (CoinbasePkScript template)
                          (ValidPayAddress template) in
        Some (None,
              mkGBTWorkState (Some template) (prevHash state)
                             (LastGenerated state) (LastTxUpdate state)
                             (MinTimestamp state) (NotifyMap state), h)
      end
    end.

(** The fields of [btcjson.GetBlockTemplateResult] that depend on the
    work state beyond the block itself. *)
Record GetBlockTemplateResult := mkGetBlockTemplateResult {
  PreviousHash : string;
  CurTime : Z;
  LongPollID : string;
  SubmitOld : option bool;
  MinTime : Z;
  MaxTime : Z
}.

Definition BlockTemplateResult (s : Server) (useCoinbaseValue : bool)
           (submitOld : option bool) (state : GBTWorkState)
  : option (RPCError + GetBlockTemplateResult) :=
  match Template state with
  | None => None
  | Some template =>
    let maxTime :=
      Time.Add (AdjustedTime s) (Time.Second * MaxTimeOffsetSeconds s) in
    if Time.After (Timestamp template) maxTime
    then Some (inl ErrRPCOutOfRange)
    else
      match TxSerializeError s with
      | Some err =>
        Some (inl (ErrRPCInternal err "Failed to serialize transaction"))
      | None =>
        match prevHash state with
        | None => None
        | Some ph =>
          let reply :=
            mkGetBlockTemplateResult
              (HashString (PrevBlock template))
              (Time.Unix (Timestamp template))
              (EncodeTemplateID ph (LastGenerated state))
              submitOld
              (Time.Unix (MinTimestamp state))
              (Time.Unix maxTime) in
          if useCoinbaseValue then Some (inr reply)
          else if negb (ValidPayAddress template)
          then Some (inl ErrNoPaymentAddress)
          else
            match CoinbaseSerializeError s with
            | Some err =>
              Some (inl (ErrRPCInternal
                           err "Failed to serialize transaction"))
            | None => Some (inr reply)
            end
        end
      end
  end.

(** How a call of [HandleGetBlockTemplateLongPoll] goes up to its
    [select]: it has returned a result or an error, or it waits on
    [longPollChan] (and on [closeChan]). *)
Inductive Outcome :=
| Returned (result : GetBlockTemplateResult)
| Failed (err : RPCError)
| Waiting (longPollChan : chan) (prevHash : Hash).

Definition replyOf (r : RPCError + GetBlockTemplateResult) : Outcome :=
  match r with
  | inl err => Failed err
  | inr result => Returned result
  end.

Definition HandleGetBlockTemplateLongPoll (s : Server)
           (longPollID : string) (useCoinbaseValue : bool)
           (state : GBTWorkState) (h : Chans)
  : option (Outcome * GBTWorkState * Chans) :=
  match UpdateBlockTemplate s useCoinbaseValue state h with
  | None => None
  | Some (Some err, state, h) => Some (Failed err, state, h)
  | Some (None, state, h) =>
    match DecodeTemplateID longPollID with
    | None =>
      match BlockTemplateResult s useCoinbaseValue None state with
      | None => None
      | Some r => Some (replyOf r, state, h)
      end
    | Some (prevHash, lastGenerated) =>
      match Template state with
      | None => None
      | Some template =>
        let prevTemplateHash := PrevBlock template in
        if negb (bool_decide (prevHash = prevTemplateHash))
           || negb (lastGenerated =? Time.Unix (LastGenerated state))
        then
          let submitOld := bool_decide (prevHash = prevTemplateHash) in
          match BlockTemplateResult s useCoinbaseValue (Some submitOld)
                                    state with
          | None => None
          | Some r => Some (replyOf r, state, h)
          end
        else
          let '(longPollChan, state, h) :=
            TemplateUpdateChan prevHash lastGenerated state h in
          Some (Waiting longPollChan prevHash, state, h)
      end
    end
  end.

(** The rest of the handler, once the [select] has fired: on
    [closeChan] (the client went away) or on [longPollChan]. *)
Inductive Wake := ClientClosed | TemplateStale.

Definition HandleGetBlockTemplateLongPoll_wake (s : Server) (wake : Wake)
           (prevHash : Hash) (useCoinbaseValue : bool)
           (state : GBTWorkState) (h : Chans)
  : option (Outcome * GBTWorkState * Chans) :=
  match wake with
  | ClientClosed => Some (Failed ErrClientQuit, state, h)
  | TemplateStale =>
    match UpdateBlockTemplate s useCoinbaseValue state h with
    | None => None
    | Some (Some err, state, h) => Some (Failed err, state, h)
    | Some (None, state, h) =>
      match Template state with
      | None => None
      | Some template =>
        let submitOld := bool_decide (prevHash = PrevBlock template) in
        match BlockTemplateResult s useCoinbaseValue (Some submitOld)
                                  state with
        | None => None
        | Some r => Some (replyOf r, state, h)
        end
      end
    end
  end.

End RPC.

(** ** cmd/node/rpc/server.go: the filter-header checkpoint cache *)

Module CFCheckpt.

Import RPC.

Record CFHeaderKV := mkCFHeaderKV {
  BlockHash : Hash;
  FilterHeader : Hash
}.

(** [CFHeaderKV{}] *)
Definition zeroKV : CFHeaderKV :=
  mkCFHeaderKV (replicate HashSize Byte.x00) (replicate HashSize Byte.x00).

(** A [[]CFHeaderKV]: the backing array from the first element of the
    slice to its capacity, and the length. Two slices over one array
    see each other's writes, so the array is kept with the slice that
    the server stores. *)
Record slice := mkSlice {
  arr : list CFHeaderKV;
  slen : nat
}.

Definition nilSlice : slice := mkSlice [] 0.
Definition elems (s : slice) : list CFHeaderKV := take (slen s) (arr s).

Definition FilterType : Type := Z.

Record MsgGetCFCheckpt := mkMsgGetCFCheckpt {
  MsgFilterType : FilterType;
  StopHash : Hash
}.

Record MsgCFCheckpt := mkMsgCFCheckpt {
  ReplyFilterType : FilterType;
  ReplyStopHash : Hash;
  FilterHeaders : list Hash
}.

(** Modelled from the spec: [wire.MsgCFCheckpt.AddCFHeader] (the file of
    package wire that defines the message is not among the sources). The
    reply carries the cached entries of the prefix and then the fetched
    headers of the suffix: a header is added at the end. *)
Definition AddCFHeader (msg : MsgCFCheckpt) (header : Hash) : MsgCFCheckpt :=
  mkMsgCFCheckpt (ReplyFilterType msg) (ReplyStopHash msg)
                 (FilterHeaders msg ++ [header]).

Section Handler.

(** Collaborators: the sync manager, the chain, the filter index,
    [chainhash.NewHash], the constant [wire.GCSFilterRegular], and the
    spare capacity the runtime gives to an array that [append] has to
    allocate (old capacity, length needed). *)
Variable IsCurrent : bool.
Variable IntervalBlockHashes : Hash -> option (list Hash).
Variable FilterHeadersByBlockHashes :
  list Hash -> FilterType -> option (list (list byte)).
Variable NewHash : list byte -> option Hash.
Variable GCSFilterRegular : FilterType.
Variable spareCap : nat -> nat -> nat.

(** [append(s, make([]CFHeaderKV, n)...)]: in place when the capacity
    allows it ([true]), in a new array otherwise ([false]). *)
Definition appendZero (s : slice) (n : nat) : slice * bool :=
  if (slen s + n <=? length (arr s))%nat
  then (mkSlice (take (slen s) (arr s) ++ replicate n zeroKV
                      ++ drop (slen s + n) (arr s))
                (slen s + n), true)
  else (mkSlice (take (slen s) (arr s) ++ replicate n zeroKV
                      ++ replicate (spareCap (length (arr s))
                                             (slen s + n)) zeroKV)
                (slen s + n), false).

(** [s[i]] and [s[i] = v], which panic when [i] is not below
    [len(s)]. *)
Definition index (s : slice) (i : nat) : option CFHeaderKV :=
  if (i <? slen s)%nat then arr s !! i else None.

Definition store (s : slice) (i : nat) (v : CFHeaderKV) : option slice :=
  if (i <? slen s)%nat then Some (mkSlice (<[i := v]> (arr s)) (slen s))
  else None.

(** The backward walk: [forkIdx] goes down from [len(blockHashes)]
    until the entry below it has the hash of the chain. *)
Fixpoint findFork (checkptCache : slice) (blockHashes : list Hash)
         (forkIdx : nat) : option nat :=
  match forkIdx with
  | O => Some O
  | S i =>
    match index checkptCache i, blockHashes !! i with
    | Some kv, Some hash =>
      if bool_decide (BlockHash kv = hash) then Some forkIdx
      else findFork checkptCache blockHashes i
    | _, _ => None
    end
  end.

Fixpoint addCached (checkptCache : slice) (i n : nat)
         (msg : MsgCFCheckpt) : option MsgCFCheckpt :=
  match n with
  | O => Some msg
  | S n =>
    match index checkptCache i with
    | Some kv => addCached checkptCache (S i) n
                           (AddCFHeader msg (FilterHeader kv))
    | None => None
    end
  end.

(** How the last loop ends: it returns early, or it runs to its end. *)
Inductive Filled :=
| Aborted (checkptCache : slice)
| Completed (checkptMsg : MsgCFCheckpt) (checkptCache : slice).

Fixpoint fill (updateCache : bool) (blockHashes : list Hash)
         (forkIdx i : nat) (filterHeaders : list (list byte))
         (checkptMsg : MsgCFCheckpt) (checkptCache : slice)
  : option Filled :=
  match filterHeaders with
  | [] => Some (Completed checkptMsg checkptCache)
  | filterHeaderBytes :: filterHeaders =>
    if (length filterHeaderBytes =? 0)%nat
    then Some (Aborted checkptCache)
    else
      match NewHash filterHeaderBytes with
      | None => Some (Aborted checkptCache)
      | Some filterHeader =>
        let checkptMsg := AddCFHeader checkptMsg filterHeader in
        if updateCache then
          match blockHashes !! (forkIdx + i)%nat with
          | None => None
          | Some hash =>
            match store checkptCache (forkIdx + i)
                        (mkCFHeaderKV hash filterHeader) with
            | None => None
            | Some checkptCache =>
              fill updateCache blockHashes forkIdx (S i) filterHeaders
                   checkptMsg checkptCache
            end
          end
        else fill updateCache blockHashes forkIdx (S i) filterHeaders
                  checkptMsg checkptCache
      end
  end.

(** The result is the server's cache after the call and the message
    queued to the peer, if any. When the handler returns early after an
    [append] in place, the array under the stored slice has already
    been written. The handler is taken to run alone: the read-write lock
    is left out, and the cache read again under the write lock is the
    cache read first. *)
Definition OnGetCFCheckpt (msg : MsgGetCFCheckpt)
           (CFCheckptCaches : gmap FilterType slice)
  : option (gmap FilterType slice * option MsgCFCheckpt) :=
  if negb IsCurrent then Some (CFCheckptCaches, None)
  else if negb (MsgFilterType msg =? GCSFilterRegular)
  then Some (CFCheckptCaches, None)
  else
    match IntervalBlockHashes (StopHash msg) with
    | None => Some (CFCheckptCaches, None)
    | Some blockHashes =>
      let checkptMsg :=
        mkMsgCFCheckpt (MsgFilterType msg) (StopHash msg) [] in
      let stored :=
        default nilSlice (CFCheckptCaches !! MsgFilterType msg) in
      let '(checkptCache, updateCache, shared) :=
        if (slen stored <? length blockHashes)%nat
        then
          let '(grown, shared) :=
            appendZero stored (length blockHashes - slen stored) in
          (grown, true, shared)
        else (stored, false, false) in
      let early (c : slice) : gmap FilterType slice :=
        if shared
        then <[MsgFilterType msg := mkSlice (arr c) (slen stored)]>
               CFCheckptCaches
        else CFCheckptCaches in
      match findFork checkptCache blockHashes (length blockHashes) with
      | None => None
      | Some forkIdx =>
        match addCached checkptCache 0 forkIdx checkptMsg with
        | None => None
        | Some checkptMsg =>
          let blockHashPtrs := drop forkIdx blockHashes in
          match FilterHeadersByBlockHashes blockHashPtrs
                                           (MsgFilterType msg) with
          | None => Some (early checkptCache, None)
          | Some filterHeaders =>
            match fill updateCache blockHashes forkIdx 0 filterHeaders
                       checkptMsg checkptCache with
            | None => None
            | Some (Aborted c) => Some (early c, None)
            | Some (Completed checkptMsg c) =>
              if updateCache
              then Some (<[MsgFilterType msg := c]> CFCheckptCaches,
                         Some checkptMsg)
              else Some (CFCheckptCaches, Some checkptMsg)
            end
          end
        end
      end
    end.

End Handler.

End CFCheckpt.

(** ** cmd/kopach/main.go: the worker and the election of its controller *)

Module Kopach.

(** Modelled from the spec: [job.LoadContainer], [pause.LoadPauseContainer]
    and their [GetIPs] and [GetControllerListenerPort] (packages
    cmd/kopach/control/... are not among the sources). Each payload
    embeds the sender's claimed listener IP/port, used for controller
    identity: a container is the list of the addresses it carries, each
    as [net.IP.String] prints it, the port, and the rest of its bytes. *)
Record Container := mkContainer {
  GetIPs : list string;
  GetControllerListenerPort : Z;
  Body : list byte
}.

(** [net.JoinHostPort]: a host with a colon is put in brackets. *)
Fixpoint hasColon (host : string) : bool :=
  match host with
  | EmptyString => false
  | String c host => Ascii.eqb c ":" || hasColon host
  end.

Definition JoinHostPort (host port : string) : string :=
  if hasColon host then ("[" ++ host ++ "]:" ++ port)%string
  else (host ++ ":" ++ port)%string.

(** The fields of [Worker] that the handlers and the watcher use;
    [workers] is [len(w.workers)]. *)
Record Worker := mkWorker {
  active : bool;
  workers : nat;
  FirstSender : string;
  lastSent : Z
}.

(** Calls on the worker processes, by index in [w.workers]. *)
Inductive WorkerCall :=
| NewJob (i : nat) (j : Container)
| Pause (i : nat).

Definition forWorkers (w : Worker) (call : nat -> WorkerCall)
  : list WorkerCall :=
  call <$> seq 0 (workers w).

Definition set_FirstSender (addr : string) (w : Worker) : Worker :=
  mkWorker (active w) (workers w) addr (lastSent w).
Definition set_lastSent (t : Z) (w : Worker) : Worker :=
  mkWorker (active w) (workers w) (FirstSender w) t.

(** The address a container names as its controller; [ips[0]] panics on
    an empty list. *)
Definition controllerAddr (c : Container) : option string :=
  match GetIPs c with
  | [] => None
  | ip :: _ =>
    Some (JoinHostPort ip (Str.FormatInt (GetControllerListenerPort c)))
  end.

(** handlers[job.Magic] *)
Definition handleJob (w : Worker) (j : Container) (now : Time.Time)
  : option (Worker * list WorkerCall) :=
  if negb (active w) then Some (w, [])
  else
    match controllerAddr j with
    | None => None
    | Some addr =>
      let firstSender := FirstSender w in
      let otherSent :=
        negb (String.eqb firstSender addr)
        && negb (String.eqb firstSender "") in
      if otherSent then Some (w, [])
      else
        let w := set_lastSent now (set_FirstSender addr w) in
        Some (w, forWorkers w (fun i => NewJob i j))
    end.

(** handlers[pause.Magic] *)
Definition handlePause (w : Worker) (p : Container)
  : option (Worker * list WorkerCall) :=
  let fs := FirstSender w in
  match controllerAddr p with
  | None => None
  | Some ns =>
    if String.eqb fs ns then Some (w, forWorkers w Pause)
    else Some (w, [])
  end.

(** handlers[sol.SolutionMagic] *)
Definition handleSol (w : Worker) : option (Worker * list WorkerCall) :=
  Some (set_FirstSender "" w, []).

(** One tick of the controller watcher. *)
Definition watch (w : Worker) (now : Time.Time)
  : option (Worker * list WorkerCall) :=
  let since := Time.Sub now (lastSent w) in
  let wasSending :=
    (since >? Time.Second * 3) && negb (String.eqb (FirstSender w) "") in
  if wasSending then Some (set_FirstSender "" w, forWorkers w Pause)
  else Some (w, []).

(** What happens to a worker: a datagram of one of the three kinds
    arrives, or the watcher ticks. The clock is read where the code
    reads it. A handler or a tick is one step: [FirstSender] and
    [lastSent] are atomic variables, and the steps of the handlers and of
    the watcher are taken one after the other. *)
Inductive Event :=
| JobMsg (j : Container) (now : Time.Time)
| PauseMsg (p : Container)
| SolMsg
| Tick (now : Time.Time).

Definition step (w : Worker) (ev : Event)
  : option (Worker * list WorkerCall) :=
  match ev with
  | JobMsg j now => handleJob w j now
  | PauseMsg p => handlePause w p
  | SolMsg => handleSol w
  | Tick now => watch w now
  end.

Fixpoint run (w : Worker) (evs : list Event)
  : option (Worker * list WorkerCall) :=
  match evs with
  | [] => Some (w, [])
  | ev :: evs =>
    match step w ev with
    | None => None
    | Some (w, calls) =>
      match run w evs with
      | None => None
      | Some (w', calls') => Some (w', calls ++ calls')
      end
    end
  end.

End Kopach.

(** * Vocabulary of the statements *)

(** ** Peers *)

Module PeerSpec.

Import Server.

(** The map in which [HandleAddPeerMsg] files a peer. *)
Definition addPeerList (sp : NodePeer) : PeerList :=
  if Inbound sp then ListInbound
  else if Persistent sp then ListPersistent
  else ListOutbound.

(** No identifier is a key of two of the three maps. *)
Definition exclusive (state : PeerState) : Prop :=
  forall id l l',
    is_Some (getList l state !! id) -> is_Some (getList l' state !! id) ->
    l = l'.

(** Peers that arrive under the same identifier are of the same kind. *)
Definition sameKind (msgs : list Msg) : Prop :=
  forall p q,
    NewPeers (Some p) ∈ msgs -> NewPeers (Some q) ∈ msgs ->
    ID p = ID q -> addPeerList p = addPeerList q.

(** Every entry is a peer that was added, under its own identifier, in the
    map of its kind. *)
Definition filed (Added : NodePeer -> Prop) (state : PeerState) : Prop :=
  forall l id p,
    getList l state !! id = Some p ->
    Added p /\ ID p = id /\ addPeerList p = l.

(** The host of the peer has a ban that has not run out at [now]. *)
Definition banned (SplitHostPort : string -> option (string * string))
           (state : PeerState) (sp : NodePeer) (now : Time.Time) : Prop :=
  exists host port banEnd,
    SplitHostPort (Addr sp) = Some (host, port) /\
    Banned state !! host = Some banEnd /\ now < banEnd.

Definition samePeers (state state' : PeerState) : Prop :=
  forall l, getList l state' = getList l state.

(** [HandleDonePeerMsg] finds the peer in the map it looks in. *)
Definition known (state : PeerState) (sp : NodePeer) : Prop :=
  is_Some (getList (donePeerList sp) state !! ID sp).

(** Concrete collaborators and peers for the examples. *)
Definition hostOnly (addr : string) : option (string * string) :=
  Some (addr, EmptyString).
Definition oneGroup (na : option NetAddress) : string := EmptyString.

Definition peerIn : NodePeer :=
  mkNodePeer 1 true false "10.0.0.1" None true true None.
Definition peerOut : NodePeer :=
  mkNodePeer 1 false false "10.0.0.2" None true true (Some 7).
Definition peerOther : NodePeer :=
  mkNodePeer 2 false false "10.0.0.4" None true true (Some 8).
Definition peerPersistent : NodePeer :=
  mkNodePeer 2 false true "10.0.0.3" None true true (Some 9).

Definition statePersistent : PeerState :=
  mkPeerState ∅ ∅ {[2 := peerPersistent]} ∅ {[EmptyString := 1]}.

Definition threeMsgs : list Msg :=
  [NewPeers (Some peerIn); NewPeers (Some peerOther); DonePeers peerIn].

Definition afterThreeMsgs : PeerState :=
  let n := mkNode 0 8 0 in
  let s1 := (HandleAddPeerMsg hostOnly oneGroup n emptyPeerState
                              (Some peerIn) 0).1.2 in
  let s2 := (HandleAddPeerMsg hostOnly oneGroup n s1 (Some peerOther) 0).1.2 in
  (HandleDonePeerMsg oneGroup s2 peerIn).1.

End PeerSpec.

(** ** Long polling *)

Module PollSpec.

Import RPC.

(** Channel [c] is registered for the template made on [hash] at [t]. *)
Definition registered (nm : gmap Hash (gmap Z chan))
           (hash : Hash) (t : Z) (c : chan) : Prop :=
  exists channels, nm !! hash = Some channels /\ channels !! t = Some c.

(** The registry as the code keeps it: a registered channel is open, it
    is registered once, and the channels in use are channels that were
    made. *)
Record wf (nm : gmap Hash (gmap Z chan)) (h : Chans) : Prop := mkWf {
  wf_open : forall hash t c, registered nm hash t c -> c ∉ closedChans h;
  wf_inj : forall hash t hash' t' c,
      registered nm hash t c -> registered nm hash' t' c ->
      hash = hash' /\ t = t';
  wf_made : forall hash t c, registered nm hash t c -> (c < nextChan h)%nat;
  wf_closed_made : forall c, c ∈ closedChans h -> (c < nextChan h)%nat
}.

(** A registration that [NotifyLongPollers] has to wake. *)
Definition stale (latestHash : Hash) (lastGeneratedUnix : Z)
           (hash : Hash) (t : Z) : Prop :=
  hash <> latestHash \/ t < lastGeneratedUnix.

(** A series of calls of [TemplateUpdateChan]. *)
Definition registerAll (calls : list (Hash * Z))
           (s : GBTWorkState * Chans) : GBTWorkState * Chans :=
  foldl (fun s call =>
           let '(_, state, h) :=
             TemplateUpdateChan call.1 call.2 s.1 s.2 in (state, h))
        s calls.

(** Nothing stands in the way of serving the template: its time is not
    beyond the allowed offset, its transactions serialize and, when the
    full coinbase is asked for, it pays to an address. *)
Definition servable (s : Server) (useCoinbaseValue : bool)
           (template : BlockTemplate) : Prop :=
  Time.After (Timestamp template)
             (Time.Add (AdjustedTime s)
                       (Time.Second * MaxTimeOffsetSeconds s)) = false /\
  TxSerializeError s = None /\
  (useCoinbaseValue = true \/
   (ValidPayAddress template = true /\ CoinbaseSerializeError s = None)).

Fixpoint all_chars (P : ascii -> bool) (s : string) : bool :=
  match s with
  | EmptyString => true
  | String c s => P c && all_chars P s
  end.

Definition not_char (sep c : ascii) : bool := negb (Ascii.eqb c sep).

(** Concrete hashes, work states and collaborators for the examples. *)
Definition hashOf (b : byte) : Hash := replicate HashSize b.
Definition zeroHash : Hash := hashOf Byte.x00.

Definition freshState : GBTWorkState :=
  mkGBTWorkState None None Time.zero Time.zero Time.zero ∅.

Definition pollers : GBTWorkState * Chans :=
  registerAll [(hashOf Byte.x0a, 5); (hashOf Byte.x0a, 7);
               (hashOf Byte.x0b, 3)]
              (freshState, mkChans 0%nat ∅).

Definition template0 : BlockTemplate :=
  mkBlockTemplate (hashOf Byte.x0a) (4 * Time.Second) 0 0 zeroHash [] false.

Definition server0 : Server :=
  mkServer (5 * Time.Second) (hashOf Byte.x0a) [] (fun _ => 0)
           (fun _ => inr template0) (2 * Time.Second)
           (fun _ => inr []) (fun _ => zeroHash) (fun t => t)
           (6 * Time.Second) 7200 None None
           (6 * Time.Second) (6 * Time.Second) (7 * Time.Second).

Definition generated0 : GBTWorkState :=
  mkGBTWorkState (Some template0) (Some (hashOf Byte.x0a))
                 (7 * Time.Second) (5 * Time.Second) (2 * Time.Second) ∅.

Definition oldID : string := EncodeTemplateID (hashOf Byte.x0b) (3 * Time.Second).

End PollSpec.

(** ** Checkpoint cache *)

Module CFSpec.

Import RPC CFCheckpt.

(** The slice has no more elements than its array. *)
Definition within (s : slice) : Prop := (slen s <= length (arr s))%nat.

(** The raw headers that the index returns decode to [hs]. *)
Definition decoded (NewHash : list byte -> option Hash)
           (raw : list (list byte)) (hs : list Hash) : Prop :=
  Forall2 (fun bytes h => length bytes <> O /\ NewHash bytes = Some h)
          raw hs.

(** The cached entry at [j] has the hash that the chain has at [j]. *)
Definition agrees (cache : list CFHeaderKV) (blockHashes : list Hash)
           (j : nat) : Prop :=
  exists kv, cache !! j = Some kv /\ blockHashes !! j = Some (BlockHash kv).

(** A chain of two checkpoints whose second block was replaced, a filter
    index over it, and a cache that still holds the old block. *)
Definition reorgChain (stop : Hash) : option (list Hash) :=
  Some [PollSpec.hashOf Byte.x0a; PollSpec.hashOf Byte.x0c].
Definition reorgIndex (hashes : list Hash) (t : FilterType)
  : option (list (list byte)) :=
  Some ((fun _ => PollSpec.hashOf Byte.xff) <$> hashes).
Definition newHash32 (bs : list byte) : option Hash :=
  if (length bs =? HashSize)%nat then Some bs else None.
Definition noSpare (cap needed : nat) : nat := O.
Definition reorgMsg : MsgGetCFCheckpt :=
  mkMsgGetCFCheckpt 0 (PollSpec.hashOf Byte.x0c).
Definition staleCache : gmap FilterType slice :=
  {[0 := mkSlice [mkCFHeaderKV (PollSpec.hashOf Byte.x0a)
                               (PollSpec.hashOf Byte.x01);
                  mkCFHeaderKV (PollSpec.hashOf Byte.x0b)
                               (PollSpec.hashOf Byte.x02)] 2]}.
(** The same chain seen by a cache that holds its first checkpoint
    only. *)
Definition shortCache : gmap FilterType slice :=
  {[0 := mkSlice [mkCFHeaderKV (PollSpec.hashOf Byte.x0a)
                               (PollSpec.hashOf Byte.x01)] 1]}.

End CFSpec.

(** ** Controller election *)

Module ElectionSpec.

Import Kopach.

(** The watcher finds the controller silent: more than three seconds
    since the last job that was accepted. *)
Definition silent (w : Worker) (now : Time.Time) : Prop :=
  Time.Sub now (lastSent w) > Time.Second * 3.

(** The events that clear the controller. *)
Definition clears (w : Worker) (ev : Event) : Prop :=
  ev = SolMsg \/ exists now, ev = Tick now /\ silent w now.

(** No event of the run clears the controller of the state it reaches. *)
Fixpoint uncleared (w : Worker) (evs : list Event) : Prop :=
  match evs with
  | [] => True
  | ev :: evs =>
    ~ clears w ev /\
    match step w ev with
    | Some (w', _) => uncleared w' evs
    | None => True
    end
  end.

(** A call that hands out a job hands out a job of controller [X]. *)
Definition jobOf (X : string) (call : WorkerCall) : Prop :=
  match call with
  | NewJob _ j => controllerAddr j = Some X
  | Pause _ => True
  end.

Definition worker0 : Worker := mkWorker true 2 "10.0.0.1:11049" 0.

End ElectionSpec.

(** * Further functions of the same files *)

(** ** cmd/node/rpc/server.go: shutdown ticks, service flags, checkpoints *)

Module ServerUtil.

Definition Minute : Time.Duration := 60 * Time.Second.
Definition Hour : Time.Duration := 60 * Minute.

Definition DynamicTickDuration (remaining : Time.Duration)
  : Time.Duration :=
  if remaining <=? Time.Second * 5 then Time.Second
  else if remaining <=? Time.Second * 15 then Time.Second * 5
  else if remaining <=? Minute then Time.Second * 15
  else if remaining <=? Minute * 5 then Minute
  else if remaining <=? Minute * 15 then Minute * 5
  else if remaining <=? Hour then Minute * 15
  else Hour.

(** The goroutine of [ScheduleShutdown] keeps the pair
    [(remaining, tickDuration)]; this is how it starts. *)
Definition shutdownStart (duration : Time.Duration)
  : Time.Duration * Time.Duration :=
  (duration, DynamicTickDuration duration).

(** Its [case <-ticker.C] branch: [remaining -= -tickDuration], the
    [continue] below one second, and the new ticker. *)
Definition shutdownTick (st : Time.Duration * Time.Duration)
  : Time.Duration * Time.Duration :=
  let '(remaining, tickDuration) := st in
  let remaining := wrap_int (remaining - wrap_int (- tickDuration)) in
  if remaining <? Time.Second then (remaining, tickDuration)
  else
    let newDuration := DynamicTickDuration remaining in
    if negb (tickDuration =? newDuration)
    then (remaining, newDuration)
    else (remaining, tickDuration).

(** The pair after [k] ticks, as long as [done] has not fired. *)
Definition shutdownTicks (k : nat) (duration : Time.Duration)
  : Time.Duration * Time.Duration :=
  Nat.iter k shutdownTick (shutdownStart duration).

(** [wire.ServiceFlag] is a [uint64] bit field. *)
Definition GetHasServices (advertised desired : Z) : bool :=
  Z.land advertised desired =? desired.

Section Checkpoints.

(** [chaincfg.Checkpoint] is taken as it comes, with its [Height]
    field (an [int32]). *)
Variable Checkpoint : Type.
Variable Height : Checkpoint -> Z.

(** [CheckpointSorter.Less], on the elements rather than their indices. *)
Definition Less (a b : Checkpoint) : bool := Height a <? Height b.

(** The first loop of [MergeCheckpoints]: the map [extra]. *)
Definition extraOf (additional : list Checkpoint) : gmap Z Checkpoint :=
  foldl (fun extra checkpoint => <[Height checkpoint := checkpoint]> extra)
        ∅ additional.

(** The second loop: the defaults that have no override. *)
Definition keptDefaults (extra : gmap Z Checkpoint)
           (defaultCheckpoints : list Checkpoint) : list Checkpoint :=
  foldl (fun checkpoints checkpoint =>
           match extra !! Height checkpoint with
           | Some _ => checkpoints
           | None => checkpoints ++ [checkpoint]
           end) [] defaultCheckpoints.

(** What [sort.Sort] promises of its result: no element is [Less] than
    one before it. *)
Definition sorted (checkpoints : list Checkpoint) : Prop :=
  StronglySorted (fun a b => Less b a = false) checkpoints.

(** [MergeCheckpoints]: the third loop ranges over the map [extra] in
    an order that is not fixed, and [sort.Sort] is not stable, so the
    result is any sorted arrangement of the checkpoints collected. *)
Inductive MergeCheckpoints (defaultCheckpoints additional : list Checkpoint)
  : list Checkpoint -> Prop :=
| MergeCheckpoints_intro extras result :
    extras ≡ₚ (map_to_list (extraOf additional)).*2 ->
    result ≡ₚ keptDefaults (extraOf additional) defaultCheckpoints
              ++ extras ->
    sorted result ->
    MergeCheckpoints defaultCheckpoints additional result.

(** One such run: the map ranged over in key order, the sort a merge
    sort. *)
Definition mergeCheckpoints (defaultCheckpoints additional : list Checkpoint)
  : list Checkpoint :=
  @merge_sort _ (fun a b => Height a <= Height b)
              (fun a b => decide (Height a <= Height b))
              (keptDefaults (extraOf additional) defaultCheckpoints
              ++ (map_to_list (extraOf additional)).*2).

End Checkpoints.

Arguments Less {Checkpoint} Height a b.
Arguments extraOf {Checkpoint} Height additional.
Arguments keptDefaults {Checkpoint} Height extra defaultCheckpoints.
Arguments sorted {Checkpoint} Height checkpoints.
Arguments MergeCheckpoints {Checkpoint} Height defaultCheckpoints
          additional _.
Arguments mergeCheckpoints {Checkpoint} Height defaultCheckpoints
          additional.

End ServerUtil.


(** ** cmd/node/rpc/server.go: the peer handler under one configuration *)

Module PeerLoop.

Import Server.

(** The [GetOutboundGroup] case of [HandleQuery]: what it replies. *)
Definition GetOutboundGroup (state : PeerState) (Key : string) : Z :=
  match OutboundGroups state !! Key with
  | Some count => count
  | None => 0
  end.

Section Loop.

Variable SplitHostPort : string -> option (string * string).
Variable GroupKey : option NetAddress -> string.

(** [PeerHandler] reads [*n.Config.MaxPeers] through the configuration
    it was started with: the runs of its loop in which that value
    stays [maxPeers], while the shutdown flag, the ban duration and the
    clock are read at each turn. *)
Inductive PeerHandler_runAt (maxPeers : Z)
  : PeerState -> list Msg -> PeerState -> Prop :=
| runAt_nil state : PeerHandler_runAt maxPeers state [] state
| runAt_NewPeers n now state p msgs state'' :
    MaxPeers n = maxPeers ->
    PeerHandler_runAt
      maxPeers (HandleAddPeerMsg SplitHostPort GroupKey n state p now).1.2
      msgs state'' ->
    PeerHandler_runAt maxPeers state (NewPeers p :: msgs) state''
| runAt_other state msg state' msgs state'' :
    (forall p, msg <> NewPeers p) ->
    PeerHandler_step SplitHostPort GroupKey state msg state' ->
    PeerHandler_runAt maxPeers state' msgs state'' ->
    PeerHandler_runAt maxPeers state (msg :: msgs) state''.

End Loop.

End PeerLoop.

(** Vocabulary of the statements about the peer loop. *)
Module PeerLoopSpec.

Import Server.

(** The number of entries of the three peer maps, not wrapped. *)
Definition peers (state : PeerState) : Z :=
  len (InboundPeers state) + len (OutboundPeers state)
  + len (PersistentPeers state).

(** Some peer of the map satisfies [Cmp]. *)
Definition matching (Cmp : NodePeer -> bool) (m : gmap Z NodePeer)
  : Prop :=
  exists id sp, m !! id = Some sp /\ Cmp sp = true.

(** A Go [int]. *)
Definition isInt (z : Z) : Prop := - 2 ^ 63 <= z < 2 ^ 63.

(** Concrete states and queries for the examples. *)
Definition afterTwoAdds : PeerState :=
  let n := mkNode 0 1 0 in
  let s1 := (HandleAddPeerMsg PeerSpec.hostOnly PeerSpec.oneGroup n
                              emptyPeerState (Some PeerSpec.peerIn) 0).1.2 in
  (HandleAddPeerMsg PeerSpec.hostOnly PeerSpec.oneGroup n s1
                    (Some PeerSpec.peerOther) 0).1.2.

Definition twoOutbound : PeerState :=
  mkPeerState ∅ {[1 := PeerSpec.peerOut; 2 := PeerSpec.peerOther]} ∅ ∅
              {[EmptyString := 2]}.

Definition oneOutbound : PeerState :=
  set_OutboundPeers
    (delete 1 (OutboundPeers twoOutbound))
    (groupsDown PeerSpec.oneGroup PeerSpec.peerOut twoOutbound).

Definition hasID (id : Z) (sp : NodePeer) : bool := ID sp =? id.

End PeerLoopSpec.


(** ** cmd/kopach/main.go: what wakes the long pollers *)

Module Notify.

Import RPC.

(** [NotifyBlockConnected]: the body of its goroutine. [LastTxUpdate]
    is read under the lock, which is released before the call of
    [NotifyLongPollers]. *)
Definition NotifyBlockConnected (blockHash : Hash) (state : GBTWorkState)
           (h : Chans) : option (GBTWorkState * Chans) :=
  let statelasttxupdate := LastTxUpdate state in
  NotifyLongPollers blockHash statelasttxupdate state h.

(** [NotifyMempoolTx]: the body of its goroutine, [now] being what
    [time.Now()] gives. *)
Definition NotifyMempoolTx (lastUpdated now : Time.Time)
           (state : GBTWorkState) (h : Chans)
  : option (GBTWorkState * Chans) :=
  match prevHash state with
  | None => Some (state, h)
  | Some ph =>
    if Time.IsZero (LastGenerated state) then Some (state, h)
    else if Time.After now
              (Time.Add (LastGenerated state)
                        (Time.Second * GBTRegenerateSeconds))
    then NotifyLongPollers ph lastUpdated state h
    else Some (state, h)
  end.

End Notify.

(** Vocabulary of the statements about waking. *)
Module WakeSpec.

Import RPC.

(** A registration that [NotifyLongPollers latestHash lastGenerated]
    wakes: it is for another hash or, when [lastGenerated] is set, for
    an earlier second. *)
Definition woken (latestHash : Hash) (lastGenerated : Time.Time)
           (hash : Hash) (t : Z) : Prop :=
  hash <> latestHash
  \/ (Time.IsZero lastGenerated = false /\ t < Time.Unix lastGenerated).

(** A work state for the examples: a template has been generated and
    the three long pollers of [PollSpec.pollers] wait. *)
Definition waiting0 : GBTWorkState :=
  set_NotifyMap (NotifyMap PollSpec.pollers.1) PollSpec.generated0.

End WakeSpec.


(** ** cmd/kopach/main.go: the getblocktemplate request *)

(** [btcjson.TemplateRequest], the fields read. *)
Module TemplateRequest.

Record t := mk {
  Mode : string;
  Capabilities : list string;
  LongPollID : string
}.

End TemplateRequest.

Module GBT.

Import RPC.

(** What the request handler reads beyond the work state and the
    collaborators of [RPC.Server]: [*s.Config.Network],
    [s.Cfg.ConnMgr.ConnectedCount()], the height of
    [s.Cfg.Chain.BestSnapshot()] and [s.Cfg.SyncMgr.IsCurrent()]. *)
Record Env := mkEnv {
  Network : string;
  ConnectedCount : Z;
  BestHeight : Z;
  IsCurrent : bool
}.

(** The errors the request handlers make themselves, and their
    replies: such an error, or what [UpdateBlockTemplate],
    [BlockTemplateResult] or the long-poll handler came to. *)
Inductive RequestError :=
| ErrNoMiningAddrs
| ErrRPCClientNotConnected
| ErrRPCClientInInitialDownload
| ErrRPCInvalidParameter.

Inductive Reply :=
| Refused (err : RequestError)
| Handled (out : Outcome).

(** The loop over [request.Capabilities]:
    [(hasCoinbaseValue, hasCoinbaseTxn)]. *)
Definition capabilityFlags (capabilities : list string) : bool * bool :=
  foldl (fun '(hasCoinbaseValue, hasCoinbaseTxn) capability =>
           if String.eqb capability "coinbasetxn"
           then (hasCoinbaseValue, true)
           else if String.eqb capability "coinbasevalue"
           then (true, hasCoinbaseTxn)
           else (hasCoinbaseValue, hasCoinbaseTxn))
        (false, false) capabilities.

Definition useCoinbaseValueOf (request : option TemplateRequest.t) : bool :=
  match request with
  | None => true
  | Some request =>
    let '(hasCoinbaseValue, hasCoinbaseTxn) :=
      capabilityFlags (TemplateRequest.Capabilities request) in
    if hasCoinbaseTxn && negb hasCoinbaseValue then false else true
  end.

(** [HandleGetBlockTemplateRequest] up to its return or, for a long
    poll, up to the [select] of [HandleGetBlockTemplateLongPoll].
    Indexing the empty network name panics. *)
Definition HandleGetBlockTemplateRequest (s : Server) (env : Env)
           (request : option TemplateRequest.t)
           (state : GBTWorkState) (h : Chans)
  : option (Reply * GBTWorkState * Chans) :=
  let useCoinbaseValue := useCoinbaseValueOf request in
  if negb useCoinbaseValue
     && (Z.of_nat (length (ActiveMiningAddrs s)) =? 0)
  then Some (Refused ErrNoMiningAddrs, state, h)
  else
    match Network env with
    | EmptyString => None
    | String netwk _ =>
      if negb (Ascii.eqb netwk "r" || Ascii.eqb netwk "s")
         && (ConnectedCount env =? 0)
      then Some (Refused ErrRPCClientNotConnected, state, h)
      else
        let currentHeight := BestHeight env in
        if negb (currentHeight =? 0) && negb (IsCurrent env)
        then Some (Refused ErrRPCClientInInitialDownload, state, h)
        else
          let regular :=
            match UpdateBlockTemplate s useCoinbaseValue state h with
            | None => None
            | Some (Some err, state, h) =>
              Some (Handled (Failed err), state, h)
            | Some (None, state, h) =>
              match BlockTemplateResult s useCoinbaseValue None state with
              | None => None
              | Some r => Some (Handled (replyOf r), state, h)
              end
            end in
          match request with
          | Some request =>
            if negb (String.eqb (TemplateRequest.LongPollID request) "")
            then
              match HandleGetBlockTemplateLongPoll
                      s (TemplateRequest.LongPollID request)
                      useCoinbaseValue state h with
              | None => None
              | Some (out, state, h) => Some (Handled out, state, h)
              end
            else regular
          | None => regular
          end
    end.

End GBT.

(** Vocabulary of the statements about requests. *)
Module GBTSpec.

Import RPC.

(** [rand.Intn] as the library has it: a number in [[0, n)]. *)
Definition randInRange (s : Server) : Prop :=
  forall n, 0 < n -> 0 <= randIntn s n < n.

(** The condition under which [UpdateBlockTemplate] makes a new
    template. *)
Definition regenerates (s : Server) (state : GBTWorkState) : bool :=
  match Template state, prevHash state with
  | None, _ => true
  | _, None => true
  | Some _, Some ph =>
    negb (bool_decide (ph = BestSnapshotHash s))
    || (negb (LastTxUpdate state
              =? (if Time.IsZero (TxSourceLastUpdated s)
                  then nowTxUpdate s else TxSourceLastUpdated s))
        && Time.After (nowRegenerate s)
             (Time.Add (LastGenerated state)
                       (Time.Second * GBTRegenerateSeconds)))
  end.

(** The request asks for the coinbase transaction and does not accept
    the coinbase value instead. *)
Definition wantsCoinbaseTxn (request : option TemplateRequest.t) : Prop :=
  exists r, request = Some r
            /\ "coinbasetxn"%string ∈ TemplateRequest.Capabilities r
            /\ "coinbasevalue"%string ∉ TemplateRequest.Capabilities r.

(** For the examples: a request for a full coinbase, and a node that
    is connected and synchronised. *)
Definition txnRequest : TemplateRequest.t :=
  TemplateRequest.mk "" ["longpoll"%string; "coinbasetxn"%string] "".

Definition env0 : GBT.Env := GBT.mkEnv "mainnet" 3 100 true.

(** A server like [PollSpec.server0] whose generator fails, and one
    that has seen the block [hashOf x0b] connected. *)
Definition serverFailing : Server :=
  mkServer (5 * Time.Second) (PollSpec.hashOf Byte.x0b) []
           (fun _ => 0) (fun _ => inl "no block"%string)
           (2 * Time.Second) (fun _ => inr []) (fun _ => PollSpec.zeroHash)
           (fun t => t) (6 * Time.Second) 7200 None None
           (6 * Time.Second) (6 * Time.Second) (7 * Time.Second).

(** What [BlockTemplateResult] makes of [PollSpec.generated0]. *)
Definition result0 : GetBlockTemplateResult :=
  mkGetBlockTemplateResult
    (HashString (PollSpec.hashOf Byte.x0a)) 4
    (EncodeTemplateID (PollSpec.hashOf Byte.x0a) (7 * Time.Second))
    None 2 7206.

Definition template1 : BlockTemplate :=
  mkBlockTemplate (PollSpec.hashOf Byte.x0b) (8 * Time.Second) 0 0
                  PollSpec.zeroHash [] false.

Definition server1 : Server :=
  mkServer (5 * Time.Second) (PollSpec.hashOf Byte.x0b) []
           (fun _ => 0) (fun _ => inr template1)
           (2 * Time.Second) (fun _ => inr []) (fun _ => PollSpec.zeroHash)
           (fun t => t) (9 * Time.Second) 7200 None None
           (9 * Time.Second) (9 * Time.Second) (9 * Time.Second).

End GBTSpec.


(** ** cmd/kopach/main.go: verifychain and witness formatting *)

Module Verify.

(** An [int32] with its wrap-around. *)
Definition wrap_int32 (z : Z) : Z := (z + 2 ^ 31) mod 2 ^ 32 - 2 ^ 31.

Section VerifyChain.

(** The chain as [VerifyChain] sees it: the height of
    [s.Cfg.Chain.BestSnapshot()], [s.Cfg.Chain.BlockByHeight], and
    [blockchain.CheckBlockSanity] applied to a block with the proof of
    work limit of its version at its height and the time source of the
    server. *)
Variable Block : Type.
Variable error : Type.
Variable BestHeight : Z.
Variable BlockByHeight : Z -> error + Block.
Variable CheckBlockSanity : Block -> Z -> option error.

(** The [for height := best.Height; height > finishHeight; height--]
    loop; [fuel] bounds its turns, and [None] is a loop that has not
    ended within [fuel] turns. *)
Fixpoint verifyLoop (fuel : nat) (level finishHeight height : Z)
  : option (option error) :=
  if height >? finishHeight then
    match fuel with
    | O => None
    | S fuel =>
      match BlockByHeight height with
      | inl err => Some (Some err)
      | inr block =>
        let checked :=
          if level >? 0 then CheckBlockSanity block height else None in
        match checked with
        | Some err => Some (Some err)
        | None =>
          verifyLoop fuel level finishHeight (wrap_int32 (height - 1))
        end
      end
    end
  else Some None.

Definition VerifyChain (level depth : Z) : option (option error) :=
  let finishHeight := wrap_int32 (BestHeight - depth) in
  let finishHeight := if finishHeight <? 0 then 0 else finishHeight in
  verifyLoop (Z.to_nat (BestHeight - finishHeight)) level finishHeight
             BestHeight.

(** [HandleVerifyChain]: [c.CheckLevel] and [c.CheckDepth] are
    pointers, read as zero when nil; the reply is [err == nil]. *)
Definition HandleVerifyChain (CheckLevel CheckDepth : option Z)
  : option bool :=
  let checkLevel := match CheckLevel with Some l => l | None => 0 end in
  let checkDepth := match CheckDepth with Some d => d | None => 0 end in
  match VerifyChain checkLevel checkDepth with
  | None => None
  | Some None => Some true
  | Some (Some _) => Some false
  end.

End VerifyChain.

Arguments verifyLoop {Block error} BlockByHeight CheckBlockSanity
          fuel level finishHeight height.
Arguments VerifyChain {Block error} BestHeight BlockByHeight
          CheckBlockSanity level depth.
Arguments HandleVerifyChain {Block error} BestHeight BlockByHeight
          CheckBlockSanity CheckLevel CheckDepth.

(** [WitnessToHex]: [None] is the nil slice it returns for an empty
    witness. *)
Definition WitnessToHex (witness : list (list byte))
  : option (list string) :=
  if Z.of_nat (length witness) =? 0 then None
  else Some (foldl (fun result wit => result ++ [Str.EncodeToString wit])
                   [] witness).

End Verify.

(** Vocabulary of the statements about verifychain. *)
Module VerifySpec.

(** The block at [height] can be fetched and, from level 1 on, passes
    the sanity check. *)
Definition sound {Block error : Type}
           (BlockByHeight : Z -> error + Block)
           (CheckBlockSanity : Block -> Z -> option error)
           (level height : Z) : Prop :=
  exists block,
    BlockByHeight height = inr block
    /\ (0 < level -> CheckBlockSanity block height = None).

(** For the examples: a chain of ten blocks, the block at height 7
    being unreadable. *)
Definition chain10 (height : Z) : string + Z :=
  if height =? 7 then inl "missing"%string else inr height.
Definition sane (block height : Z) : option string := None.

End VerifySpec.


(** ** cmd/node/rpc/server.go: the callbacks of one peer *)

Module PeerCallbacks.

(** The part of [*np.Server.Config] and of [np.Server] the callbacks
    read. *)
Record Config := mkConfig {
  DisableBanning : bool;
  BanThreshold : Z;
  Network : string;
  Services : Z
}.

(** Calls on the peer object, the server and the address manager. *)
Inductive Effect :=
| Disconnect
| BanPeer
| PushAddrMsg (addrs : list Server.NetAddress)
| AddAddresses (addrs : list Server.NetAddress)
| QueueHeaders
| QueueInventory.

Inductive InvType := InvTypeBlock | InvTypeTx | InvTypeOther.

Section Callbacks.

(** Taken as they come, their packages not being among the sources:
    the bloom filter of the peer ([*bloom.Filter]) with the methods
    used; the dynamic ban score ([connmgr.DynamicBanScore]), whose
    [Increase] returns the new score; [addrmgr.NetAddressKey]; the
    constants [wire.SFNodeBloom], [wire.BIP0111Version],
    [wire.NetAddressTimeVersion] and [util.MaxSatoshi]; the
    transactions of the mempool. *)
Variable BloomFilter : Type.
Variable IsLoaded : BloomFilter -> bool.
Variable FilterAdd : BloomFilter -> list byte -> BloomFilter.
Variable Unload : BloomFilter -> BloomFilter.
Variable Reload : BloomFilter -> list byte -> BloomFilter.
Variable Tx : Type.
Variable MatchTxAndUpdate : BloomFilter -> Tx -> bool * BloomFilter.
Variable DynamicBanScore : Type.
Variable Increase : DynamicBanScore -> Z -> Z -> Z * DynamicBanScore.
Variable NetAddressKey : Server.NetAddress -> string.
Variable SFNodeBloom : Z.
Variable BIP0111Version : Z.
Variable NetAddressTimeVersion : Z.
Variable MaxSatoshi : Z.

(** The fields of [*NodePeer] the callbacks read and write, with the
    protocol version the peer object has negotiated. *)
Record NodePeer := mkNodePeer {
  Inbound : bool;
  IsWhitelisted : bool;
  ProtocolVersion : Z;
  SentAddrs : bool;
  KnownAddresses : gset string;
  FeeFilter : Z;
  DisableRelayTx : bool;
  Filter : BloomFilter;
  BanScore : DynamicBanScore
}.

Definition set_SentAddrs (b : bool) (np : NodePeer) : NodePeer :=
  mkNodePeer (Inbound np) (IsWhitelisted np) (ProtocolVersion np) b
             (KnownAddresses np) (FeeFilter np) (DisableRelayTx np)
             (Filter np) (BanScore np).
Definition set_KnownAddresses (k : gset string) (np : NodePeer) : NodePeer :=
  mkNodePeer (Inbound np) (IsWhitelisted np) (ProtocolVersion np)
             (SentAddrs np) k (FeeFilter np) (DisableRelayTx np)
             (Filter np) (BanScore np).
Definition set_FeeFilter (f : Z) (np : NodePeer) : NodePeer :=
  mkNodePeer (Inbound np) (IsWhitelisted np) (ProtocolVersion np)
             (SentAddrs np) (KnownAddresses np) f (DisableRelayTx np)
             (Filter np) (BanScore np).
Definition set_DisableRelayTx (b : bool) (np : NodePeer) : NodePeer :=
  mkNodePeer (Inbound np) (IsWhitelisted np) (ProtocolVersion np)
             (SentAddrs np) (KnownAddresses np) (FeeFilter np) b
             (Filter np) (BanScore np).
Definition set_Filter (f : BloomFilter) (np : NodePeer) : NodePeer :=
  mkNodePeer (Inbound np) (IsWhitelisted np) (ProtocolVersion np)
             (SentAddrs np) (KnownAddresses np) (FeeFilter np)
             (DisableRelayTx np) f (BanScore np).
Definition set_BanScore (s : DynamicBanScore) (np : NodePeer) : NodePeer :=
  mkNodePeer (Inbound np) (IsWhitelisted np) (ProtocolVersion np)
             (SentAddrs np) (KnownAddresses np) (FeeFilter np)
             (DisableRelayTx np) (Filter np) s.

(** [AddBanScore]; the warnings it logs are left out. *)
Definition AddBanScore (cfg : Config) (np : NodePeer)
           (persistent transient : Z) : NodePeer * list Effect :=
  if DisableBanning cfg then (np, [])
  else if IsWhitelisted np then (np, [])
  else
    let warnThreshold := Z.shiftr (BanThreshold cfg) 1 in
    if (transient =? 0) && (persistent =? 0) then (np, [])
    else
      let '(score, banScore) := Increase (BanScore np) persistent transient in
      let np := set_BanScore banScore np in
      if score >? warnThreshold then
        if score >? BanThreshold cfg then (np, [BanPeer; Disconnect])
        else (np, [])
      else (np, []).

Definition EnforceNodeBloomFlag (cfg : Config) (np : NodePeer)
  : bool * NodePeer * list Effect :=
  if negb (Z.land (Services cfg) SFNodeBloom =? SFNodeBloom) then
    if (ProtocolVersion np >=? BIP0111Version)
       && negb (DisableBanning cfg)
    then
      let '(np, effs) := AddBanScore cfg np 100 0 in
      (false, np, effs ++ [Disconnect])
    else (false, np, [Disconnect])
  else (true, np, []).

Definition OnFilterAdd (cfg : Config) (np : NodePeer) (data : list byte)
  : NodePeer * list Effect :=
  let '(ok, np, effs) := EnforceNodeBloomFlag cfg np in
  if negb ok then (np, effs)
  else if negb (IsLoaded (Filter np)) then (np, effs ++ [Disconnect])
  else (set_Filter (FilterAdd (Filter np) data) np, effs).

Definition OnFilterClear (cfg : Config) (np : NodePeer)
  : NodePeer * list Effect :=
  let '(ok, np, effs) := EnforceNodeBloomFlag cfg np in
  if negb ok then (np, effs)
  else if negb (IsLoaded (Filter np)) then (np, effs ++ [Disconnect])
  else (set_Filter (Unload (Filter np)) np, effs).

Definition OnFilterLoad (cfg : Config) (np : NodePeer) (msg : list byte)
  : NodePeer * list Effect :=
  let '(ok, np, effs) := EnforceNodeBloomFlag cfg np in
  if negb ok then (np, effs)
  else
    let np := set_DisableRelayTx false np in
    (set_Filter (Reload (Filter np) msg) np, effs).

(** The three filter messages of a peer, and a series of them. *)
Inductive FilterMsg :=
| MsgFilterAdd (data : list byte)
| MsgFilterClear
| MsgFilterLoad (msg : list byte).

Definition OnFilterMsg (cfg : Config) (np : NodePeer) (m : FilterMsg)
  : NodePeer * list Effect :=
  match m with
  | MsgFilterAdd data => OnFilterAdd cfg np data
  | MsgFilterClear => OnFilterClear cfg np
  | MsgFilterLoad msg => OnFilterLoad cfg np msg
  end.

Definition OnFilterMsgs (cfg : Config) (np : NodePeer)
           (ms : list FilterMsg) : NodePeer * list Effect :=
  foldl (fun '(np, effs) m =>
           let '(np, effs') := OnFilterMsg cfg np m in (np, effs ++ effs'))
        (np, []) ms.

(** [OnFeeFilter], [MinFee] being an [int64]. *)
Definition OnFeeFilter (np : NodePeer) (MinFee : Z)
  : NodePeer * list Effect :=
  if (MinFee <? 0) || (MinFee >? MaxSatoshi) then (np, [Disconnect])
  else (set_FeeFilter MinFee np, []).

(** What [msg.Data] of a [RelayMsg] is found to be. *)
Inductive RelayData :=
| BlockHeaderData
| TxDescData (FeePerKB : Z) (tx : Tx)
| OtherData.

(** The function [HandleRelayInvMsg] applies to every peer;
    [connected] and [wantsHeaders] are what [sp.Connected()] and
    [sp.WantsHeaders()] give, [addFails] is whether
    [msgHeaders.AddBlockHeader] fails. *)
Definition HandleRelayInvMsg (sp : NodePeer)
           (connected wantsHeaders addFails : bool)
           (invType : InvType) (data : RelayData)
  : NodePeer * list Effect :=
  if negb connected then (sp, [])
  else
    let headers :=
      match invType with InvTypeBlock => wantsHeaders | _ => false end in
    if headers then
      match data with
      | BlockHeaderData =>
        if addFails then (sp, []) else (sp, [QueueHeaders])
      | _ => (sp, [])
      end
    else
      match invType with
      | InvTypeTx =>
        if DisableRelayTx sp then (sp, [])
        else
          match data with
          | TxDescData FeePerKB tx =>
            let feeFilter := FeeFilter sp in
            if (feeFilter >? 0) && (FeePerKB <? feeFilter) then (sp, [])
            else if IsLoaded (Filter sp) then
              let '(matched, filter) := MatchTxAndUpdate (Filter sp) tx in
              if negb matched then (set_Filter filter sp, [])
              else (set_Filter filter sp, [QueueInventory])
            else (sp, [QueueInventory])
          | _ => (sp, [])
          end
      | _ => (sp, [QueueInventory])
      end.

Definition AddKnownAddresses (np : NodePeer)
           (addresses : list Server.NetAddress) : NodePeer :=
  set_KnownAddresses
    (foldl (fun known na => {[NetAddressKey na]} ∪ known)
           (KnownAddresses np) addresses) np.

Definition IsAddressKnown (np : NodePeer) (na : Server.NetAddress) : bool :=
  bool_decide (NetAddressKey na ∈ KnownAddresses np).

(** [PreparePushAddrMsg]; [push] is what [np.PushAddrMsg] returns for
    the addresses it is given: the addresses it has sent, or an
    error. *)
Definition PreparePushAddrMsg
           (push : list Server.NetAddress -> option (list Server.NetAddress))
           (np : NodePeer) (addresses : list Server.NetAddress)
  : NodePeer * list Effect :=
  let addrs :=
    foldl (fun addrs addr =>
             if negb (IsAddressKnown np addr) then addrs ++ [addr]
             else addrs) [] addresses in
  match push addrs with
  | None => (np, [PushAddrMsg addrs; Disconnect])
  | Some known => (AddKnownAddresses np known, [PushAddrMsg addrs])
  end.

(** [OnGetAddr]; [addrCache] is what the address manager gives. *)
Definition OnGetAddr (cfg : Config)
           (push : list Server.NetAddress -> option (list Server.NetAddress))
           (np : NodePeer) (addrCache : list Server.NetAddress)
  : option (NodePeer * list Effect) :=
  match Network cfg with
  | EmptyString => None
  | String c _ =>
    if Ascii.eqb c "s" then Some (np, [])
    else if negb (Inbound np) then Some (np, [])
    else if SentAddrs np then Some (np, [])
    else
      let np := set_SentAddrs true np in
      Some (PreparePushAddrMsg push np addrCache)
  end.

(** A series of getaddr messages of one connection. *)
Fixpoint OnGetAddrs (cfg : Config)
         (push : list Server.NetAddress -> option (list Server.NetAddress))
         (np : NodePeer) (addrCaches : list (list Server.NetAddress))
  : option (NodePeer * list Effect) :=
  match addrCaches with
  | [] => Some (np, [])
  | addrCache :: addrCaches =>
    match OnGetAddr cfg push np addrCache with
    | None => None
    | Some (np, effs) =>
      match OnGetAddrs cfg push np addrCaches with
      | None => None
      | Some (np, effs') => Some (np, effs ++ effs')
      end
    end
  end.

(** The loop of [OnAddr] over [msg.AddrList]: [connected i] and
    [now i] are what [np.Connected()] and [time.Now()] give at turn
    [i]. The addresses are reached through pointers, so the list the
    address manager gets holds the timestamps as rewritten. The list
    is [None] when the loop returns early; what it has added to the
    known addresses by then stays. *)
Fixpoint addrLoop (connected : nat -> bool) (now : nat -> Time.Time)
         (i : nat) (np : NodePeer) (addrList : list Server.NetAddress)
  : NodePeer * option (list Server.NetAddress) :=
  match addrList with
  | [] => (np, Some [])
  | na :: addrList =>
    if negb (connected i) then (np, None)
    else
      let na :=
        if Time.After (Server.Timestamp na)
                      (Time.Add (now i) (ServerUtil.Minute * 10))
        then Server.mkNetAddress
               (Time.Add (now i) (-1 * ServerUtil.Hour * 24 * 5))
               (Server.Services na) (Server.IP na) (Server.Port na)
        else na in
      let np := AddKnownAddresses np [na] in
      match addrLoop connected now (S i) np addrList with
      | (np, None) => (np, None)
      | (np, Some rest) => (np, Some (na :: rest))
      end
  end.

Definition OnAddr (cfg : Config) (connected : nat -> bool)
           (now : nat -> Time.Time) (np : NodePeer)
           (AddrList : list Server.NetAddress)
  : option (NodePeer * list Effect) :=
  match Network cfg with
  | EmptyString => None
  | String c _ =>
    if Ascii.eqb c "s" then Some (np, [])
    else if ProtocolVersion np <? NetAddressTimeVersion then Some (np, [])
    else if Z.of_nat (length AddrList) =? 0 then Some (np, [Disconnect])
    else
      match addrLoop connected now 0 np AddrList with
      | (np, None) => Some (np, [])
      | (np, Some addrs) => Some (np, [AddAddresses addrs])
      end
  end.

End Callbacks.

Arguments mkNodePeer {BloomFilter DynamicBanScore}.
Arguments Inbound {BloomFilter DynamicBanScore} n.
Arguments IsWhitelisted {BloomFilter DynamicBanScore} n.
Arguments ProtocolVersion {BloomFilter DynamicBanScore} n.
Arguments SentAddrs {BloomFilter DynamicBanScore} n.
Arguments KnownAddresses {BloomFilter DynamicBanScore} n.
Arguments FeeFilter {BloomFilter DynamicBanScore} n.
Arguments DisableRelayTx {BloomFilter DynamicBanScore} n.
Arguments Filter {BloomFilter DynamicBanScore} n.
Arguments BanScore {BloomFilter DynamicBanScore} n.
Arguments set_SentAddrs {BloomFilter DynamicBanScore} b np.
Arguments set_KnownAddresses {BloomFilter DynamicBanScore} k np.
Arguments set_FeeFilter {BloomFilter DynamicBanScore} f np.
Arguments set_DisableRelayTx {BloomFilter DynamicBanScore} b np.
Arguments set_Filter {BloomFilter DynamicBanScore} f np.
Arguments set_BanScore {BloomFilter DynamicBanScore} s np.
Arguments AddBanScore {BloomFilter DynamicBanScore} Increase cfg np
          persistent transient.
Arguments EnforceNodeBloomFlag {BloomFilter DynamicBanScore} Increase
          SFNodeBloom BIP0111Version cfg np.
Arguments OnFilterAdd {BloomFilter} IsLoaded FilterAdd {DynamicBanScore}
          Increase SFNodeBloom BIP0111Version cfg np data.
Arguments OnFilterClear {BloomFilter} IsLoaded Unload {DynamicBanScore}
          Increase SFNodeBloom BIP0111Version cfg np.
Arguments OnFilterLoad {BloomFilter} Reload {DynamicBanScore}
          Increase SFNodeBloom BIP0111Version cfg np msg.
Arguments OnFilterMsg {BloomFilter} IsLoaded FilterAdd Unload Reload
          {DynamicBanScore} Increase SFNodeBloom BIP0111Version cfg np m.
Arguments OnFilterMsgs {BloomFilter} IsLoaded FilterAdd Unload Reload
          {DynamicBanScore} Increase SFNodeBloom BIP0111Version cfg np ms.
Arguments OnFeeFilter {BloomFilter DynamicBanScore} MaxSatoshi np MinFee.
Arguments BlockHeaderData {Tx}.
Arguments TxDescData {Tx} FeePerKB tx.
Arguments OtherData {Tx}.
Arguments HandleRelayInvMsg {BloomFilter} IsLoaded {Tx} MatchTxAndUpdate
          {DynamicBanScore} sp connected wantsHeaders addFails invType data.
Arguments AddKnownAddresses {BloomFilter DynamicBanScore} NetAddressKey
          np addresses.
Arguments IsAddressKnown {BloomFilter DynamicBanScore} NetAddressKey np na.
Arguments PreparePushAddrMsg {BloomFilter DynamicBanScore} NetAddressKey
          push np addresses.
Arguments OnGetAddr {BloomFilter DynamicBanScore} NetAddressKey cfg push
          np addrCache.
Arguments OnGetAddrs {BloomFilter DynamicBanScore} NetAddressKey cfg push
          np addrCaches.
Arguments addrLoop {BloomFilter DynamicBanScore} NetAddressKey connected
          now i np addrList.
Arguments OnAddr {BloomFilter DynamicBanScore} NetAddressKey
          NetAddressTimeVersion cfg connected now np AddrList.

End PeerCallbacks.

(** Vocabulary of the statements about the callbacks. *)
Module CallbackSpec.

Import RPC PeerCallbacks.

(** The address lists pushed to the peer, in order. *)
Fixpoint pushes (effs : list Effect) : list (list Server.NetAddress) :=
  match effs with
  | [] => []
  | PushAddrMsg addrs :: effs => addrs :: pushes effs
  | _ :: effs => pushes effs
  end.

(** The addresses that the peer does not know. *)
Definition unknownTo {BloomFilter DynamicBanScore : Type}
           (NetAddressKey : Server.NetAddress -> string)
           (np : NodePeer BloomFilter DynamicBanScore)
           (addresses : list Server.NetAddress) : list Server.NetAddress :=
  filter (fun addr => NetAddressKey addr ∉ KnownAddresses np) addresses.

(** The timestamp [OnAddr] leaves an address with at time [now]. *)
Definition backdated (now : Time.Time) (timestamp : Time.Time) : Time.Time :=
  if decide (timestamp <= now + ServerUtil.Minute * 10) then timestamp
  else now - 5 * 24 * ServerUtil.Hour.

(** For the examples: a filter that is a list of the data added to it,
    the empty list being the filter that is not loaded; a ban score
    that is the sum of what was added; addresses known by their port;
    and a peer. *)
Definition listLoaded (f : list (list byte)) : bool :=
  negb (Z.of_nat (length f) =? 0).
Definition listAdd (f : list (list byte)) (data : list byte)
  : list (list byte) := f ++ [data].
Definition listUnload (f : list (list byte)) : list (list byte) := [].
Definition listReload (f : list (list byte)) (msg : list byte)
  : list (list byte) := [msg].
Definition listMatch (f : list (list byte)) (tx : list byte)
  : bool * list (list byte) := (bool_decide (tx ∈ f), f).
Definition sumScore (score persistent transient : Z) : Z * Z :=
  (score + persistent + transient, score + persistent + transient).
Definition portKey (na : Server.NetAddress) : string :=
  Str.FormatInt (Server.Port na).

Definition cfg0 : Config := mkConfig false 100 "mainnet" 0.

Definition peer0 : NodePeer (list (list byte)) Z :=
  mkNodePeer true false 70013 false ∅ 0 false [] 0.

Definition addr (timestamp : Time.Time) (port : Z) : Server.NetAddress :=
  Server.mkNetAddress timestamp 1 [] port.

End CallbackSpec.

(** * Properties *)

(** ** The peer registry *)

Section PeerProperties.

Import Server PeerSpec.

Variable SplitHostPort : string -> option (string * string).
Variable GroupKey : option NetAddress -> string.

Lemma getList_setList l l' m state :
  getList l (setList l' m state) =
  if decide (l = l') then m else getList l state.
Proof. by destruct l, l'. Qed.

Lemma OutboundGroups_setList l m state :
  OutboundGroups (setList l m state) = OutboundGroups state.
Proof. by destruct l. Qed.

Lemma getList_set_OutboundGroups l g state :
  getList l (set_OutboundGroups g state) = getList l state.
Proof. by destruct l. Qed.

Lemma Count_samePeers state state' :
  samePeers state state' -> Count state' = Count state.
Proof.
  intros H. unfold Count.
  pose proof (H ListInbound) as H1. pose proof (H ListOutbound) as H2.
  pose proof (H ListPersistent) as H3. cbn [getList] in H1, H2, H3.
  by rewrite H1, H2, H3.
Qed.

Lemma samePeers_set_Banned m state : samePeers state (set_Banned m state).
Proof. by intros []. Qed.

Section Invariant.

Variable Added : NodePeer -> Prop.

Lemma filed_set_Banned m state :
  filed Added state -> filed Added (set_Banned m state).
Proof. intros H l id p. specialize (H l id p). by destruct l. Qed.

Lemma filed_set_OutboundGroups m state :
  filed Added state -> filed Added (set_OutboundGroups m state).
Proof. intros H l id p. specialize (H l id p). by destruct l. Qed.

Lemma filed_setList_delete l id state :
  filed Added state ->
  filed Added (setList l (delete id (getList l state)) state).
Proof.
  intros H l' id' p. rewrite getList_setList.
  case_decide as Hl; [subst l'|by apply H].
  intros [_ Hp]%lookup_delete_Some. by apply H.
Qed.

Lemma filed_setList_insert sp state :
  Added sp -> filed Added state ->
  filed Added
        (setList (addPeerList sp)
                 (<[ID sp := sp]> (getList (addPeerList sp) state)) state).
Proof.
  intros Hsp H l' id' p. rewrite getList_setList.
  case_decide as Hl; [subst l'|by apply H].
  intros [[<- <-]|[_ Hp]]%lookup_insert_Some; [done|by apply H].
Qed.

Lemma filed_HandleAddPeerMsg n state sp now :
  (forall p, sp = Some p -> Added p) -> filed Added state ->
  filed Added
        (HandleAddPeerMsg SplitHostPort GroupKey n state sp now).1.2.
Proof.
  intros Hsp Hf. destruct sp as [sp|]; [|done].
  specialize (Hsp sp eq_refl). unfold HandleAddPeerMsg.
  destruct (negb (Shutdown n =? 0)); [done|].
  destruct (SplitHostPort (Addr sp)) as [[host port]|]; [|done].
  set (checked := match Banned state !! host with
                  | Some banEnd =>
                    if Time.Before now banEnd then None
                    else Some (set_Banned (delete host (Banned state))
                                          state)
                  | None => Some state
                  end).
  assert (forall st, checked = Some st -> filed Added st) as Hchecked.
  { unfold checked. intros st.
    destruct (Banned state !! host) as [banEnd|].
    - destruct (Time.Before now banEnd); [done|].
      intros [= <-]. by apply filed_set_Banned.
    - by intros [= <-]. }
  destruct checked as [st|]; [|done]. specialize (Hchecked st eq_refl).
  destruct (Count st >=? MaxPeers n); [done|].
  pose proof (filed_setList_insert sp _ Hsp Hchecked) as Hin.
  pose proof (filed_setList_insert sp _ Hsp
                (filed_set_OutboundGroups
                   (incr (GroupKey (NA sp)) (OutboundGroups st)) _
                   Hchecked)) as Hout.
  unfold addPeerList in Hin, Hout.
  destruct (Inbound sp); [exact Hin|].
  destruct (Persistent sp); exact Hout.
Qed.

Lemma filed_HandleDonePeerMsg state sp :
  filed Added state ->
  filed Added (HandleDonePeerMsg GroupKey state sp).1.
Proof.
  intros Hf. unfold HandleDonePeerMsg.
  destruct (getList (donePeerList sp) state !! ID sp); [|done].
  cbn [fst].
  destruct (negb (Inbound sp) && VersionKnown sp).
  - pose proof (filed_setList_delete (donePeerList sp) (ID sp) _
                  (filed_set_OutboundGroups
                     (decr (GroupKey (NA sp)) (OutboundGroups state)) _
                     Hf)) as H.
    by destruct (donePeerList sp).
  - by apply filed_setList_delete.
Qed.

Lemma filed_HandleBanPeerMsg n state sp now :
  filed Added state ->
  filed Added (HandleBanPeerMsg SplitHostPort n state sp now).
Proof.
  intros Hf. unfold HandleBanPeerMsg.
  destruct (SplitHostPort (Addr sp)) as [[host port]|]; [|done].
  by apply filed_set_Banned.
Qed.

Lemma filed_DisconnectPeer l state Cmp m found :
  filed Added state -> DisconnectPeer (getList l state) Cmp m found ->
  filed Added (setList l m state).
Proof.
  intros Hf Hd. inversion Hd; subst.
  - by apply filed_setList_delete.
  - intros l' id' p. rewrite getList_setList.
    case_decide; [subst l'|]; apply Hf.
Qed.

Lemma filed_DisconnectRepeat Cmp state state' effs :
  DisconnectRepeat GroupKey Cmp state state' effs ->
  filed Added state -> filed Added state'.
Proof.
  induction 1 as [state m sp state' effs Hd _ IH|]; [|done].
  intros Hf. apply IH.
  apply (filed_DisconnectPeer ListOutbound (groupsDown GroupKey sp state)
                              Cmp m (Some sp));
    [by apply filed_set_OutboundGroups|done].
Qed.

Lemma filed_HandleQuery state q state' effs found :
  HandleQuery GroupKey state q state' effs found ->
  filed Added state -> filed Added state'.
Proof.
  intros Hq Hf. inversion Hq; subst; try done.
  - apply (filed_DisconnectPeer ListPersistent
             (groupsDown GroupKey sp state) Cmp m (Some sp));
      [by apply filed_set_OutboundGroups|done].
  - by apply (filed_DisconnectPeer ListInbound state Cmp m (Some sp)).
  - eapply filed_DisconnectRepeat; [done|].
    apply (filed_DisconnectPeer ListOutbound
             (groupsDown GroupKey sp state) Cmp m (Some sp));
      [by apply filed_set_OutboundGroups|done].
Qed.

Lemma filed_step state msg state' :
  PeerHandler_step SplitHostPort GroupKey state msg state' ->
  (forall p, msg = NewPeers (Some p) -> Added p) ->
  filed Added state -> filed Added state'.
Proof.
  intros Hstep Hadd Hf. inversion Hstep; subst.
  - apply filed_HandleAddPeerMsg; [|done].
    intros p0 ->. by apply Hadd.
  - by apply filed_HandleDonePeerMsg.
  - by apply filed_HandleBanPeerMsg.
  - by eapply filed_HandleQuery.
  - done.
Qed.

Lemma filed_run state msgs state' :
  PeerHandler_run SplitHostPort GroupKey state msgs state' ->
  (forall p, NewPeers (Some p) ∈ msgs -> Added p) ->
  filed Added state -> filed Added state'.
Proof.
  induction 1 as [|state msg state' msgs state'' Hstep _ IH]; [done|].
  intros Hadd Hf. apply IH.
  - intros p Hp. apply Hadd. by right.
  - eapply filed_step; [done| |done].
    intros p ->. apply Hadd. left.
Qed.

Lemma filed_empty : filed Added emptyPeerState.
Proof. intros l id p. by destruct l. Qed.

End Invariant.

(** C3 (amended). When the peers that arrive under one identifier are
    of one kind (inbound, persistent, or plain outbound), then after any
    sequence of new-peer, done-peer, ban and query messages handled from
    the empty peer state, no peer identifier is a key of two of the maps
    InboundPeers, OutboundPeers and PersistentPeers. *)
Theorem peer_maps_exclusive msgs state :
  sameKind msgs ->
  PeerHandler_run SplitHostPort GroupKey emptyPeerState msgs state ->
  exclusive state.
Proof.
  intros Hkind Hrun.
  pose proof (filed_run (fun p => NewPeers (Some p) ∈ msgs) _ _ _ Hrun
                        (fun p H => H) (filed_empty _)) as Hf.
  intros id l l' [p Hp] [q Hq].
  destruct (Hf _ _ _ Hp) as (Hpa & Hpid & <-).
  destruct (Hf _ _ _ Hq) as (Hqa & Hqid & <-).
  apply Hkind; [done|done|congruence].
Qed.

End PeerProperties.

Section PeerAdmission.

Import Server PeerSpec.

Variable SplitHostPort : string -> option (string * string).
Variable GroupKey : option NetAddress -> string.

Lemma HandleAddPeerMsg_cases n state sp now :
  let '(ok, state', effs) :=
    HandleAddPeerMsg SplitHostPort GroupKey n state (Some sp) now in
  (Shutdown n <> 0 \/ banned SplitHostPort state sp now \/
   Count state >= MaxPeers n ->
   ok = false /\ effs = [PeerDisconnect sp] /\
   samePeers state state' /\ Count state' = Count state /\
   OutboundGroups state' = OutboundGroups state) /\
  (forall host port banEnd,
      Shutdown n = 0 ->
      SplitHostPort (Addr sp) = Some (host, port) ->
      Banned state !! host = Some banEnd -> banEnd <= now ->
      Banned state' !! host = None /\
      (Count state < MaxPeers n -> ok = true)) /\
  (ok = true ->
   effs = [] /\
   getList (addPeerList sp) state' =
   <[ID sp := sp]> (getList (addPeerList sp) state) /\
   (forall l, l <> addPeerList sp -> getList l state' = getList l state) /\
   OutboundGroups state' =
   (if Inbound sp then OutboundGroups state
    else incr (GroupKey (NA sp)) (OutboundGroups state))).
Proof.
  unfold HandleAddPeerMsg.
  destruct (Z.eqb_spec (Shutdown n) 0) as [Hs|Hs]; cbn [negb].
  2:{ split_and!; [|intros; done|done].
      intros _. split_and!; [done|done|done|done|done]. }
  destruct (SplitHostPort (Addr sp)) as [[host port]|] eqn:Hsplit.
  2:{ split_and!; [|intros; done|done].
      intros _. split_and!; [done|done|done|done|done]. }
  destruct (Banned state !! host) as [banEnd|] eqn:Hban.
  - unfold Time.Before. destruct (Z.ltb_spec now banEnd) as [Hlt|Hge].
    + split_and!; [| |done].
      * intros _. split_and!; [done|done|done|done|done].
      * intros host' port' banEnd' _ [= <- <-] Hb Hle.
        assert (Some banEnd' = Some banEnd) as [= ->]
            by (etrans; [symmetry; exact Hb|exact Hban]).
        lia.
    + set (st := set_Banned (delete host (Banned state)) state).
      assert (Count st = Count state) as HC
          by apply Count_samePeers, samePeers_set_Banned.
      rewrite HC.
      destruct (Z.geb_spec (Count state) (MaxPeers n)) as [Hfull|Hroom].
      * split_and!; [| |done].
        -- intros _. split_and!; [done|done|by intros []|done|done].
        -- intros host' port' banEnd' _ [= <- <-] _ _.
           split; [apply lookup_delete_eq|lia].
      * assert (forall P : Prop,
                   Shutdown n <> 0 \/ banned SplitHostPort state sp now \/
                   Count state >= MaxPeers n -> P) as Hno.
        { intros P [?|[(h' & p' & b' & Hsp & Hb & Hlt)|?]]; [done| |lia].
          rewrite Hsplit in Hsp. injection Hsp as <- <-.
          assert (Some b' = Some banEnd) as [= ->]
              by (etrans; [symmetry; exact Hb|exact Hban]).
          lia. }
        unfold addPeerList.
        destruct (Inbound sp) eqn:Hin;
          [|destruct (Persistent sp) eqn:Hp];
          (split_and!;
           [apply Hno
           |intros host' port' banEnd' _ [= <- <-] _ _;
            split; [apply lookup_delete_eq|done]
           |intros _; split_and!; [done|done|by intros []|done]]).
  - destruct (Z.geb_spec (Count state) (MaxPeers n)) as [Hfull|Hroom].
    + split_and!; [| |done].
      * intros _. split_and!; [done|done|done|done|done].
      * intros host' port' banEnd' _ [= <- <-] Hb.
        assert (Some banEnd' = None) as [=]
            by (etrans; [symmetry; exact Hb|exact Hban]).
    + assert (forall P : Prop,
                 Shutdown n <> 0 \/ banned SplitHostPort state sp now \/
                 Count state >= MaxPeers n -> P) as Hno.
      { intros P [?|[(h' & p' & b' & Hsp & Hb & Hlt)|?]]; [done| |lia].
        rewrite Hsplit in Hsp. injection Hsp as <- <-.
        assert (Some b' = None) as [=]
            by (etrans; [symmetry; exact Hb|exact Hban]). }
      unfold addPeerList.
      destruct (Inbound sp) eqn:Hin;
        [|destruct (Persistent sp) eqn:Hp];
        (split_and!;
         [apply Hno
         |intros host' port' banEnd' _ [= <- <-] Hb;
          assert (Some banEnd' = None) as [=]
              by (etrans; [symmetry; exact Hb|exact Hban])
         |intros _; split_and!; [done|done|by intros []|done]]).
Qed.

Lemma HandleAddPeerMsg_full first second banDuration now :
  let n := mkNode 0 1 banDuration in
  let state := mkPeerState {[ID first := first]} ∅ ∅ ∅ ∅ in
  HandleAddPeerMsg SplitHostPort GroupKey n state (Some second) now =
  (false, state, [PeerDisconnect second]) /\
  Count state = 1.
Proof.
  cbn zeta. unfold HandleAddPeerMsg. cbn [Shutdown Banned negb Z.eqb].
  assert (Count (mkPeerState {[ID first := first]} ∅ ∅ ∅ ∅) = 1) as HC.
  { unfold Count, len. cbn [InboundPeers OutboundPeers PersistentPeers].
    rewrite map_size_singleton, !map_size_empty. reflexivity. }
  split; [|done].
  destruct (SplitHostPort (Addr second)) as [[host port]|]; [|done].
  rewrite lookup_empty, HC. reflexivity.
Qed.

(** C4. [HandleAddPeerMsg] on a peer [sp]: when the server is shutting
    down, or the host of [sp] has a ban that has not run out, or
    [Count] has reached [MaxPeers], the peer is disconnected, the
    result is [false] and the peer maps, their count and the group
    counts are as before. A ban that has run out is deleted, and the
    peer is then let in when there is room. When the result is [true],
    nothing is disconnected, [sp] is put under its identifier in the one
    map of its kind, the two other maps are as before, and the group
    count of [sp] goes up by one exactly when [sp] is not inbound. With
    room for one peer and one inbound peer connected, a second peer is
    disconnected and the count stays 1. *)
Theorem HandleAddPeerMsg_admission n state sp now
        first second banDuration now' :
  (let '(ok, state', effs) :=
     HandleAddPeerMsg SplitHostPort GroupKey n state (Some sp) now in
   (Shutdown n <> 0 \/ banned SplitHostPort state sp now \/
    Count state >= MaxPeers n ->
    ok = false /\ effs = [PeerDisconnect sp] /\
    samePeers state state' /\ Count state' = Count state /\
    OutboundGroups state' = OutboundGroups state) /\
   (forall host port banEnd,
       Shutdown n = 0 ->
       SplitHostPort (Addr sp) = Some (host, port) ->
       Banned state !! host = Some banEnd -> banEnd <= now ->
       Banned state' !! host = None /\
       (Count state < MaxPeers n -> ok = true)) /\
   (ok = true ->
    effs = [] /\
    getList (addPeerList sp) state' =
    <[ID sp := sp]> (getList (addPeerList sp) state) /\
    (forall l, l <> addPeerList sp -> getList l state' = getList l state) /\
    OutboundGroups state' =
    (if Inbound sp then OutboundGroups state
     else incr (GroupKey (NA sp)) (OutboundGroups state)))) /\
  (let n1 := mkNode 0 1 banDuration in
   let state1 := mkPeerState {[ID first := first]} ∅ ∅ ∅ ∅ in
   HandleAddPeerMsg SplitHostPort GroupKey n1 state1 (Some second) now' =
   (false, state1, [PeerDisconnect second]) /\
   Count state1 = 1).
Proof.
  split; [apply HandleAddPeerMsg_cases|apply HandleAddPeerMsg_full].
Qed.


(** C6 (amended). Two bans of one host, at [now1] and then at [now2]:
    after the first the host is banned until [now1 + BanDuration];
    after the second it is banned until [now2 + BanDuration], whatever
    was recorded before; the entries of other hosts are as before. *)
Theorem HandleBanPeerMsg_overwrites n state sp now1 now2 host port :
  SplitHostPort (Addr sp) = Some (host, port) ->
  let banned1 := HandleBanPeerMsg SplitHostPort n state sp now1 in
  let banned2 := HandleBanPeerMsg SplitHostPort n banned1 sp now2 in
  Banned banned1 !! host = Some (Time.Add now1 (BanDuration n)) /\
  Banned banned2 !! host = Some (Time.Add now2 (BanDuration n)) /\
  (forall other, other <> host ->
                 Banned banned2 !! other = Banned state !! other).
Proof.
  intros Hs. cbn zeta. unfold HandleBanPeerMsg. rewrite Hs.
  cbn [Banned set_Banned]. split_and!.
  - apply lookup_insert_eq.
  - apply lookup_insert_eq.
  - intros other Hne. by rewrite !lookup_insert_ne.
Qed.

End PeerAdmission.

Section PeerExamples.

Import Server PeerSpec.

(** C3, the claim as stated fails: an inbound peer and an outbound peer
    that carry the same identifier are both let in, and the identifier
    is then a key of InboundPeers and of OutboundPeers. *)
Lemma peer_maps_shared_id :
  exists state,
    PeerHandler_run hostOnly oneGroup emptyPeerState
                    [NewPeers (Some peerIn); NewPeers (Some peerOut)]
                    state /\
    ID peerIn = ID peerOut /\
    is_Some (InboundPeers state !! ID peerIn) /\
    is_Some (OutboundPeers state !! ID peerIn) /\
    ~ exclusive state.
Proof.
  eexists. split.
  - eapply run_cons; [apply (step_NewPeers _ _ (mkNode 0 8 0) 0)|].
    eapply run_cons; [apply (step_NewPeers _ _ (mkNode 0 8 0) 0)|].
    apply run_nil.
  - assert (forall (x : NodePeer), is_Some (Some x)) as Hsome by eauto.
    split_and!; [reflexivity|vm_compute; apply Hsome
                 |vm_compute; apply Hsome|].
    intros Hex.
    assert (ListInbound = ListOutbound) as Heq; [|discriminate Heq].
    apply (Hex 1); vm_compute; apply Hsome.
Qed.

Lemma sameKind_threeMsgs : sameKind threeMsgs.
Proof.
  intros p q Hp Hq Hid. unfold threeMsgs in Hp, Hq.
  repeat (apply elem_of_cons in Hp as [Hp|Hp]);
    repeat (apply elem_of_cons in Hq as [Hq|Hq]);
    try (by apply elem_of_nil in Hp); try (by apply elem_of_nil in Hq);
    try discriminate Hp; try discriminate Hq;
    injection Hp as ->; injection Hq as ->;
    first [reflexivity | discriminate Hid].
Qed.

Lemma peer_maps_exclusive_witness : exclusive afterThreeMsgs.
Proof.
  apply (peer_maps_exclusive hostOnly oneGroup threeMsgs).
  - apply sameKind_threeMsgs.
  - eapply run_cons; [apply (step_NewPeers _ _ (mkNode 0 8 0) 0)|].
    eapply run_cons; [apply (step_NewPeers _ _ (mkNode 0 8 0) 0)|].
    eapply run_cons; [apply step_DonePeers|].
    apply run_nil.
Defined.

Lemma HandleAddPeerMsg_admission_witness :
  (HandleAddPeerMsg hostOnly oneGroup (mkNode 1 8 0) emptyPeerState
                    (Some peerIn) 0).1.1 = false /\
  Count (mkPeerState {[ID peerIn := peerIn]} ∅ ∅ ∅ ∅) = 1.
Proof.
  pose proof (HandleAddPeerMsg_admission hostOnly oneGroup (mkNode 1 8 0)
                emptyPeerState peerIn 0 peerIn peerOther 0 0) as [H1 H2].
  split.
  - destruct (HandleAddPeerMsg hostOnly oneGroup (mkNode 1 8 0)
                               emptyPeerState (Some peerIn) 0)
      as [[ok state'] effs].
    destruct H1 as [H1 _]. apply H1. left. vm_compute. discriminate.
  - apply H2.
Defined.



(** C6, the claim as stated fails: a second ban five time units after
    the first, well before the first runs out at 10, moves the end of
    the ban to 15. *)
Lemma HandleBanPeerMsg_second_ban_extends :
  let n := mkNode 0 8 10 in
  let banned1 :=
    HandleBanPeerMsg hostOnly n emptyPeerState peerPersistent 0 in
  let banned2 := HandleBanPeerMsg hostOnly n banned1 peerPersistent 5 in
  Banned banned1 !! Addr peerPersistent = Some (0 + BanDuration n) /\
  5 < 0 + BanDuration n /\
  Banned banned2 !! Addr peerPersistent = Some 15 /\
  0 + BanDuration n < 15.
Proof. vm_compute. repeat split. Qed.

Lemma HandleBanPeerMsg_overwrites_witness :
  let n := mkNode 0 8 10 in
  let banned1 :=
    HandleBanPeerMsg hostOnly n emptyPeerState peerPersistent 0 in
  let banned2 := HandleBanPeerMsg hostOnly n banned1 peerPersistent 5 in
  Banned banned1 !! Addr peerPersistent = Some (Time.Add 0 10) /\
  Banned banned2 !! Addr peerPersistent = Some (Time.Add 5 10) /\
  (forall other, other <> Addr peerPersistent ->
                 Banned banned2 !! other = Banned emptyPeerState !! other).
Proof.
  apply (HandleBanPeerMsg_overwrites hostOnly (mkNode 0 8 10) emptyPeerState
           peerPersistent 0 5 (Addr peerPersistent) EmptyString).
  reflexivity.
Defined.

End PeerExamples.

(** ** The long-poll registry *)

Section LongPollRegistry.

Import RPC PollSpec.

Lemma closeAll_Some cs h :
  NoDup cs -> (forall c, c ∈ cs -> c ∉ closedChans h) ->
  closeAll cs h =
  Some (mkChans (nextChan h) (list_to_set cs ∪ closedChans h)).
Proof.
  revert h. induction cs as [|c cs IH]; intros h Hnd Hopen.
  - simpl. destruct h as [n X]. simpl. f_equal. f_equal. set_solver.
  - apply NoDup_cons in Hnd as [Hc Hnd]. simpl. unfold close.
    destruct (decide (c ∈ closedChans h)) as [Hin|_].
    + exfalso. apply (Hopen c); [left|done].
    + rewrite IH; [|done|].
      * simpl. f_equal. f_equal. set_solver.
      * intros c' Hc'. simpl. assert (c' <> c) by (intros ->; done).
        assert (c' ∉ closedChans h) by (apply Hopen; by right).
        set_solver.
Qed.

Lemma closeAll_Permutation cs cs' h :
  cs ≡ₚ cs' -> closeAll cs h = closeAll cs' h.
Proof.
  intros Hp. revert h. induction Hp as [|c cs cs' Hp IH|c d cs|]; intros h.
  - done.
  - simpl. destruct (close c h); [apply IH|done].
  - simpl. unfold close.
    destruct (decide (d ∈ closedChans h)), (decide (c ∈ closedChans h));
      simpl; repeat case_decide; try done; try set_solver.
    do 2 f_equal. rewrite !assoc_L by apply _.
    f_equal. set_solver.
  - etrans; eauto.
Qed.

Lemma notifyOlder_spec u l chs h :
  NoDup l.*1 ->
  (forall t c, (t, c) ∈ l -> c ∉ closedChans h) ->
  (forall t c t' c', (t, c) ∈ l -> (t', c') ∈ l -> c = c' -> t = t') ->
  exists chs' h',
    notifyOlder u l chs h = Some (chs', h') /\
    nextChan h' = nextChan h /\
    (forall c, c ∈ closedChans h' <->
               c ∈ closedChans h \/ exists t, (t, c) ∈ l /\ t < u) /\
    (forall t, chs' !! t =
               if decide (t < u /\ t ∈ l.*1) then None else chs !! t).
Proof.
  revert chs h. induction l as [|[t0 c0] l IH]; intros chs h Hnd Hopen Hinj.
  - exists chs, h. simpl. split_and!; [done|done| |].
    + intros c. split; [by left|]. intros [?|(t & Ht & _)]; [done|].
      by apply elem_of_nil in Ht.
    + intros t. case_decide as Hd; [|done].
      destruct Hd as [_ Hd]. by apply elem_of_nil in Hd.
  - simpl in Hnd. apply NoDup_cons in Hnd as [Ht0 Hnd]. simpl.
    destruct (Z.ltb_spec t0 u) as [Hlt|Hge].
    + unfold close. destruct (decide (c0 ∈ closedChans h)) as [Hin|_].
      { exfalso. apply (Hopen t0 c0); [left|done]. }
      destruct (IH (delete t0 chs)
                   (mkChans (nextChan h) ({[c0]} ∪ closedChans h)))
        as (chs' & h' & -> & Hn & Hcl & Hlk); [done| | |].
      * intros t c Htc. simpl.
        assert (c <> c0).
        { intros ->. apply Ht0.
          rewrite (Hinj t0 c0 t c0); [|left|by right|done].
          apply list_elem_of_fmap. by exists (t, c0). }
        assert (c ∉ closedChans h) by (apply (Hopen t); by right).
        set_solver.
      * intros t c t' c' H1 H2. apply Hinj; by right.
      * exists chs', h'. split_and!; [done|done| |].
        -- intros c. rewrite Hcl. simpl. split.
           ++ intros [Hc|(t & Ht & Hu)].
              ** apply elem_of_union in Hc as [Hc|Hc]; [|by left].
                 apply elem_of_singleton in Hc as ->. right.
                 exists t0. split; [left|done].
              ** right. exists t. split; [by right|done].
           ++ intros [Hc|(t & Ht & Hu)]; [left; set_solver|].
              apply elem_of_cons in Ht as [[= -> ->]|Ht].
              ** left. set_solver.
              ** right. eauto.
        -- intros t. rewrite Hlk, ?fmap_cons. simpl.
           destruct (decide (t = t0)) as [->|Hne];
             [rewrite lookup_delete_eq|rewrite lookup_delete_ne by done];
             repeat case_decide; try done; exfalso;
             rewrite ?elem_of_cons in *; naive_solver.
    + destruct (IH chs h) as (chs' & h' & -> & Hn & Hcl & Hlk); [done| |..].
      * intros t c Htc. apply (Hopen t). by right.
      * intros t c t' c' H1 H2. apply Hinj; by right.
      * exists chs', h'. split_and!; [done|done| |].
        -- intros c. rewrite Hcl. split.
           ++ intros [Hc|(t & Ht & Hu)]; [by left|].
              right. exists t. split; [by right|done].
           ++ intros [Hc|(t & Ht & Hu)]; [by left|].
              apply elem_of_cons in Ht as [[= -> ->]|Ht]; [lia|].
              right. eauto.
        -- intros t. rewrite Hlk, ?fmap_cons. simpl.
           repeat case_decide; try done; exfalso;
             rewrite ?elem_of_cons in *; naive_solver lia.
Qed.

Lemma elem_of_channels (chs : gmap Z chan) c :
  c ∈ (map_to_list chs).*2 <-> exists t, chs !! t = Some c.
Proof.
  rewrite list_elem_of_fmap. split.
  - intros ([t c'] & -> & Hin). exists t. by apply elem_of_map_to_list.
  - intros (t & Ht). exists (t, c). split; [done|].
    by apply elem_of_map_to_list.
Qed.

Lemma notifyStale_spec latest l nm h :
  NoDup l.*1 ->
  (forall hash chs t c,
      (hash, chs) ∈ l -> chs !! t = Some c -> c ∉ closedChans h) ->
  (forall hash chs t c hash' chs' t',
      (hash, chs) ∈ l -> (hash', chs') ∈ l ->
      chs !! t = Some c -> chs' !! t' = Some c -> hash = hash' /\ t = t') ->
  exists nm' h',
    notifyStale latest l nm h = Some (nm', h') /\
    nextChan h' = nextChan h /\
    (forall c, c ∈ closedChans h' <->
               c ∈ closedChans h \/
               exists hash chs t,
                 (hash, chs) ∈ l /\ hash <> latest /\ chs !! t = Some c) /\
    (forall k, nm' !! k =
               if decide (k <> latest /\ k ∈ l.*1) then None else nm !! k).
Proof.
  revert nm h.
  induction l as [|[hash0 chs0] l IH]; intros nm h Hnd Hopen Hinj.
  - exists nm, h. simpl. split_and!; [done|done| |].
    + intros c. split; [by left|].
      intros [?|(? & ? & ? & Hin & _)]; [done|]. by apply elem_of_nil in Hin.
    + intros k. case_decide as Hd; [|done].
      destruct Hd as [_ Hd]. by apply elem_of_nil in Hd.
  - rewrite fmap_cons in Hnd. apply NoDup_cons in Hnd as [Hh0 Hnd].
    assert (forall hash chs, (hash, chs) ∈ l -> hash <> hash0) as Hne0.
    { intros hash chs Hin ->. apply Hh0. apply list_elem_of_fmap.
      by exists (hash0, chs). }
    cbn [notifyStale]. case_bool_decide as Heq.
    + subst hash0.
      destruct (IH nm h) as (nm' & h' & -> & Hn & Hcl & Hlk); [done| | |].
      * intros hash chs t c Hin Hc.
        apply (Hopen hash chs t c); [by right|done].
      * intros hash chs t c hash' chs' t' H1 H2. apply Hinj; by right.
      * exists nm', h'. split_and!; [done|done| |].
        -- intros c. rewrite Hcl. split.
           ++ intros [?|(hash & chs & t & Hin & ? & ?)]; [by left|].
              right. exists hash, chs, t. split_and!; [by right|done|done].
           ++ intros [?|(hash & chs & t & Hin & ? & ?)]; [by left|].
              apply elem_of_cons in Hin as [[= -> ->]|Hin]; [done|].
              right. eauto 10.
        -- intros k. rewrite Hlk, ?fmap_cons. simpl.
           repeat case_decide; try done; exfalso;
             rewrite ?elem_of_cons in *; naive_solver.
    + rewrite closeAll_Some.
      * destruct (IH (delete hash0 nm)
                     (mkChans (nextChan h)
                              (list_to_set (map_to_list chs0).*2
                                           ∪ closedChans h)))
          as (nm' & h' & -> & Hn & Hcl & Hlk); [done| | |].
        -- intros hash chs t c Hin Hc. simpl.
           apply not_elem_of_union. split.
           ++ rewrite elem_of_list_to_set, elem_of_channels.
              intros (t' & Ht').
              destruct (Hinj hash chs t c hash0 chs0 t') as [-> _];
                [by right|left|done|done|].
              by eapply Hne0.
           ++ eapply Hopen; [by right|done].
        -- intros hash chs t c hash' chs' t' H1 H2. apply Hinj; by right.
        -- exists nm', h'. split_and!; [done|done| |].
           ++ intros c. rewrite Hcl. simpl.
              rewrite elem_of_union, elem_of_list_to_set, elem_of_channels.
              split.
              ** intros [[(t & Ht)|?]|(hash & chs & t & Hin & ? & ?)].
                 --- right. exists hash0, chs0, t.
                     split_and!; [left|done|done].
                 --- by left.
                 --- right. exists hash, chs, t.
                     split_and!; [by right|done|done].
              ** intros [?|(hash & chs & t & Hin & ? & ?)];
                   [left; by right|].
                 apply elem_of_cons in Hin as [[= -> ->]|Hin].
                 --- left. left. eauto.
                 --- right. eauto 10.
           ++ intros k. rewrite Hlk, ?fmap_cons. simpl.
              destruct (decide (k = hash0)) as [->|Hk];
                [rewrite lookup_delete_eq|rewrite lookup_delete_ne by done];
                repeat case_decide; try done; exfalso;
                rewrite ?elem_of_cons in *; naive_solver.
      * apply NoDup_fmap_2_strong; [|apply NoDup_map_to_list].
        intros [t c] [t' c'] H1 H2 Hc. simpl in Hc. subst c'.
        apply elem_of_map_to_list in H1, H2.
        destruct (Hinj hash0 chs0 t c hash0 chs0 t') as [_ ->];
          [left|left|done|done|done].
      * intros c (t & Ht)%elem_of_channels.
        eapply Hopen; [left|done].
Qed.

Lemma elem_of_keys {V} (m : gmap Hash V) k :
  k ∈ (map_to_list m).*1 <-> is_Some (m !! k).
Proof.
  rewrite list_elem_of_fmap. split.
  - intros ([k' v] & -> & Hin). exists v. by apply elem_of_map_to_list.
  - intros (v & Hv). exists (k, v). split; [done|].
    by apply elem_of_map_to_list.
Qed.

Lemma elem_of_times (m : gmap Z chan) k :
  k ∈ (map_to_list m).*1 <-> is_Some (m !! k).
Proof.
  rewrite list_elem_of_fmap. split.
  - intros ([k' v] & -> & Hin). exists v. by apply elem_of_map_to_list.
  - intros (v & Hv). exists (k, v). split; [done|].
    by apply elem_of_map_to_list.
Qed.

(** C2. On a registry as the code keeps it (registered channels are
    open and registered once), [NotifyLongPollers latest lastGenerated]
    with a non-zero [lastGenerated] runs to its end; the channels closed
    afterwards are those closed before and those that were registered
    under a hash other than [latest], or under [latest] with a time
    below the Unix seconds of [lastGenerated]; exactly the other
    registrations are still in the map, with their channels open, and
    the registry is again as the code keeps it. *)
Theorem NotifyLongPollers_closes_exactly latest lastGenerated state h :
  wf (NotifyMap state) h ->
  Time.IsZero lastGenerated = false ->
  exists state' h',
    NotifyLongPollers latest lastGenerated state h = Some (state', h') /\
    (forall c,
        c ∈ closedChans h' <->
        c ∈ closedChans h \/
        exists hash t,
          registered (NotifyMap state) hash t c /\
          stale latest (Time.Unix lastGenerated) hash t) /\
    (forall hash t c,
        registered (NotifyMap state') hash t c <->
        registered (NotifyMap state) hash t c /\
        ~ stale latest (Time.Unix lastGenerated) hash t) /\
    wf (NotifyMap state') h'.
Proof.
  intros Hwf Hnz. unfold NotifyLongPollers. rewrite Hnz.
  set (nm := NotifyMap state) in *.
  set (u := Time.Unix lastGenerated).
  destruct (notifyStale_spec latest (map_to_list nm) nm h)
    as (nm1 & h1 & -> & Hn1 & Hcl1 & Hlk1).
  { apply NoDup_fst_map_to_list. }
  { intros hash chs t c Hin%elem_of_map_to_list Hc.
    apply (wf_open _ _ Hwf hash t). by exists chs. }
  { intros hash chs t c hash' chs' t'
           Hin%elem_of_map_to_list Hin'%elem_of_map_to_list Hc Hc'.
    apply (wf_inj _ _ Hwf hash t hash' t' c); eexists; eauto. }
  assert (forall c, c ∈ closedChans h1 <->
            c ∈ closedChans h \/
            exists hash t, registered nm hash t c /\ hash <> latest)
    as Hcl1'.
  { intros c. rewrite Hcl1. split.
    - intros [?|(hash & chs & t & Hin%elem_of_map_to_list & ? & ?)];
        [by left|].
      right. exists hash, t. split; [by exists chs|done].
    - intros [?|(hash & t & (chs & ? & ?) & ?)]; [by left|].
      right. exists hash, chs, t. by rewrite elem_of_map_to_list. }
  assert (forall k, nm1 !! k = if decide (k = latest) then nm !! k else None)
    as Hlk1'.
  { intros k. rewrite Hlk1. destruct (decide (k = latest)) as [->|Hne].
    - rewrite decide_False; [done|naive_solver].
    - destruct (nm !! k) eqn:E; [|by case_decide].
      rewrite decide_True; [done|]. split; [done|].
      apply elem_of_keys. eauto. }
  clear Hcl1 Hlk1.
  assert (nm1 !! latest = nm !! latest) as Hlatest.
  { rewrite Hlk1'. by rewrite decide_True. }
  rewrite Hlatest.
  destruct (nm !! latest) as [chs|] eqn:Hchs.
  - destruct (notifyOlder_spec u (map_to_list chs) chs h1)
      as (chs' & h2 & -> & Hn2 & Hcl2 & Hlk2).
    { apply NoDup_fst_map_to_list. }
    { intros t c Hin%elem_of_map_to_list.
      rewrite Hcl1'. intros [Hc|(hash & t' & Hr & Hne)].
      - revert Hc. apply (wf_open _ _ Hwf latest t). by exists chs.
      - destruct (wf_inj _ _ Hwf hash t' latest t c) as [? _];
          [done|by exists chs|done]. }
    { intros t c t' c' Hin%elem_of_map_to_list Hin'%elem_of_map_to_list ->.
      destruct (wf_inj _ _ Hwf latest t latest t' c') as [_ ?];
        [by exists chs|by exists chs|done]. }
    assert (forall t, chs' !! t = if decide (t < u) then None else chs !! t)
      as Hlk2'.
    { intros t. rewrite Hlk2. destruct (decide (t < u)) as [Hlt|Hge].
      - destruct (chs !! t) eqn:E; [|by case_decide].
        rewrite decide_True; [done|]. split; [done|].
        apply elem_of_times. eauto.
      - rewrite decide_False; [done|naive_solver]. }
    clear Hlk2.
    set (nm2 := if len chs' =? 0
                then delete latest (<[latest := chs']> nm1)
                else <[latest := chs']> nm1).
    assert (forall hash t c,
               registered nm2 hash t c <->
               registered nm hash t c /\ ~ stale latest u hash t) as Hreg.
    { intros hash t c. unfold registered, stale, nm2.
      assert (forall chs0, (<[latest := chs']> nm1) !! hash = Some chs0 ->
                           hash = latest /\ chs0 = chs') as Hins.
      { intros chs0. destruct (decide (hash = latest)) as [->|Hne].
        - rewrite lookup_insert_eq. naive_solver.
        - rewrite lookup_insert_ne, Hlk1' by done.
          by rewrite decide_False. }
      split.
      - intros (chs0 & H1 & H2).
        assert ((<[latest := chs']> nm1) !! hash = Some chs0) as H1'.
        { destruct (len chs' =? 0); [|done].
          destruct (decide (hash = latest)) as [->|Hne].
          - by rewrite lookup_delete_eq in H1.
          - by rewrite lookup_delete_ne in H1. }
        apply Hins in H1' as [-> ->]. rewrite Hlk2' in H2.
        case_decide; [done|]. split; [by exists chs|].
        intros [?|?]; [done|lia].
      - intros [(chs0 & H1 & H2) Hns].
        assert (hash = latest) as ->.
        { destruct (decide (hash = latest)); [done|]. tauto. }
        assert (chs0 = chs) as -> by congruence.
        assert (chs' !! t = Some c) as Hc'.
        { rewrite Hlk2'. case_decide; [tauto|done]. }
        exists chs'. split; [|done].
        destruct (Z.eqb_spec (len chs') 0) as [Hz|_].
        + exfalso. unfold len in Hz.
          assert (size chs' = 0%nat) as Hz' by lia.
          apply map_size_empty_iff in Hz'. by rewrite Hz' in Hc'.
        + by rewrite lookup_insert_eq. }
    exists (set_NotifyMap nm2 state), h2.
    split; [unfold nm2; by destruct (len chs' =? 0)|].
    assert (forall c,
               c ∈ closedChans h2 <->
               c ∈ closedChans h \/
               exists hash t, registered nm hash t c /\
                              stale latest u hash t) as Hclosed.
    { intros c. rewrite Hcl2, Hcl1'. unfold stale. split.
      - intros [[?|(hash & t & ? & ?)]|(t & Hin%elem_of_map_to_list & ?)].
        + by left.
        + right. exists hash, t. tauto.
        + right. exists latest, t. split; [by exists chs|tauto].
      - intros [?|(hash & t & Hr & Hst)]; [tauto|].
        destruct (decide (hash = latest)) as [->|Hne].
        + destruct Hst as [?|Hlt]; [done|]. right. exists t.
          split; [|done]. apply elem_of_map_to_list.
          destruct Hr as (chs0 & ? & ?). congruence.
        + left. right. eauto. }
    split; [done|]. split; [done|].
    simpl. constructor.
    + intros hash t c [Hr Hns]%Hreg. rewrite Hclosed.
      intros [Hc|(hash' & t' & Hr' & Hst)].
      * by apply (wf_open _ _ Hwf hash t c).
      * destruct (wf_inj _ _ Hwf hash t hash' t' c) as [-> ->]; done.
    + intros hash t hash' t' c [Hr _]%Hreg [Hr' _]%Hreg.
      by apply (wf_inj _ _ Hwf hash t hash' t' c).
    + intros hash t c [Hr _]%Hreg. rewrite Hn2, Hn1.
      by apply (wf_made _ _ Hwf hash t c).
    + intros c. rewrite Hclosed, Hn2, Hn1.
      intros [?|(hash & t & Hr & _)].
      * by apply (wf_closed_made _ _ Hwf).
      * by apply (wf_made _ _ Hwf hash t c).
  - assert (forall hash t c,
               registered nm1 hash t c <->
               registered nm hash t c /\ ~ stale latest u hash t) as Hreg.
    { intros hash t c. unfold registered, stale. split.
      - intros (chs0 & H1 & _). rewrite Hlk1' in H1.
        case_decide; [subst; congruence|done].
      - intros [(chs0 & H1 & H2) Hns].
        assert (hash = latest) as ->.
        { destruct (decide (hash = latest)); [done|]. tauto. }
        congruence. }
    assert (forall c,
               c ∈ closedChans h1 <->
               c ∈ closedChans h \/
               exists hash t, registered nm hash t c /\
                              stale latest u hash t) as Hclosed.
    { intros c. rewrite Hcl1'. unfold stale. split.
      - intros [?|(hash & t & ? & ?)]; [by left|].
        right. exists hash, t. tauto.
      - intros [?|(hash & t & Hr & Hst)]; [tauto|].
        right. exists hash, t. split; [done|].
        intros ->. destruct Hr as (chs0 & ? & _). congruence. }
    exists (set_NotifyMap nm1 state), h1.
    split; [done|]. split; [done|]. split; [done|].
    simpl. constructor.
    + intros hash t c [Hr Hns]%Hreg. rewrite Hclosed.
      intros [Hc|(hash' & t' & Hr' & Hst)].
      * by apply (wf_open _ _ Hwf hash t c).
      * destruct (wf_inj _ _ Hwf hash t hash' t' c) as [-> ->]; done.
    + intros hash t hash' t' c [Hr _]%Hreg [Hr' _]%Hreg.
      by apply (wf_inj _ _ Hwf hash t hash' t' c).
    + intros hash t c [Hr _]%Hreg. rewrite Hn1.
      by apply (wf_made _ _ Hwf hash t c).
    + intros c. rewrite Hclosed, Hn1.
      intros [?|(hash & t & Hr & _)].
      * by apply (wf_closed_made _ _ Hwf).
      * by apply (wf_made _ _ Hwf hash t c).
Qed.

Lemma set_NotifyMap_id state : set_NotifyMap (NotifyMap state) state = state.
Proof. by destruct state. Qed.

Lemma TemplateUpdateChan_hit ph lg c state h :
  registered (NotifyMap state) ph lg c ->
  TemplateUpdateChan ph lg state h = (c, state, h).
Proof.
  intros (chs & H1 & H2). unfold TemplateUpdateChan.
  rewrite H1, H2. by rewrite set_NotifyMap_id.
Qed.

Lemma TemplateUpdateChan_cases ph lg state h c state' h' :
  TemplateUpdateChan ph lg state h = (c, state', h') ->
  (registered (NotifyMap state) ph lg c /\ state' = state /\ h' = h) \/
  ((forall c0, ~ registered (NotifyMap state) ph lg c0) /\
   c = nextChan h /\
   h' = mkChans (S (nextChan h)) (closedChans h) /\
   forall hash t c0,
     registered (NotifyMap state') hash t c0 <->
     registered (NotifyMap state) hash t c0 \/
     (hash = ph /\ t = lg /\ c0 = c)).
Proof.
  unfold TemplateUpdateChan.
  destruct (NotifyMap state !! ph) as [chs|] eqn:Hph.
  - destruct (chs !! lg) as [c1|] eqn:Hlg.
    + intros [= <- <- <-]. rewrite set_NotifyMap_id.
      left. split_and!; [by exists chs|done|done].
    + cbn. intros [= <- <- <-]. right. cbn. split_and!; [|done|done|].
      * intros c0 (chs0 & H1 & H2). congruence.
      * intros hash t c0. unfold registered. split.
        -- intros (chs0 & H1 & H2).
           destruct (decide (hash = ph)) as [->|Hne].
           ++ rewrite lookup_insert_eq in H1. injection H1 as <-.
              destruct (decide (t = lg)) as [->|Hne].
              ** rewrite lookup_insert_eq in H2. right.
                 by injection H2 as <-.
              ** rewrite lookup_insert_ne in H2 by done. left.
                 by exists chs.
           ++ rewrite lookup_insert_ne in H1 by done. left. by exists chs0.
        -- intros [(chs0 & H1 & H2)|(-> & -> & ->)].
           ++ destruct (decide (hash = ph)) as [->|Hne].
              ** exists (<[lg := nextChan h]> chs). rewrite lookup_insert_eq.
                 split; [done|]. rewrite lookup_insert_ne; congruence.
              ** exists chs0. by rewrite lookup_insert_ne.
           ++ eexists. by rewrite !lookup_insert_eq.
  - rewrite lookup_empty. cbn. intros [= <- <- <-]. right. cbn.
    split_and!; [|done|done|].
    + intros c0 (chs0 & H1 & H2). congruence.
    + intros hash t c0. unfold registered. split.
      * intros (chs0 & H1 & H2).
        destruct (decide (hash = ph)) as [->|Hne].
        -- rewrite lookup_insert_eq in H1. injection H1 as <-.
           destruct (decide (t = lg)) as [->|Hne].
           ++ rewrite lookup_insert_eq in H2. right. by injection H2 as <-.
           ++ by rewrite lookup_insert_ne, lookup_empty in H2.
        -- rewrite !lookup_insert_ne in H1 by done. left. by exists chs0.
      * intros [(chs0 & H1 & H2)|(-> & -> & ->)].
        -- assert (hash <> ph) by congruence.
           exists chs0. by rewrite !lookup_insert_ne.
        -- eexists. by rewrite !lookup_insert_eq.
Qed.

Lemma wf_empty n : wf ∅ (mkChans n ∅).
Proof.
  constructor.
  - intros ??? (chs & H & _). by rewrite lookup_empty in H.
  - intros ????? (chs & H & _). by rewrite lookup_empty in H.
  - intros ??? (chs & H & _). by rewrite lookup_empty in H.
  - intros c Hc. by apply not_elem_of_empty in Hc.
Qed.

Lemma wf_TemplateUpdateChan ph lg state h :
  wf (NotifyMap state) h ->
  wf (NotifyMap (TemplateUpdateChan ph lg state h).1.2)
     (TemplateUpdateChan ph lg state h).2.
Proof.
  intros Hwf.
  destruct (TemplateUpdateChan ph lg state h) as [[c state'] h'] eqn:E.
  destruct (TemplateUpdateChan_cases _ _ _ _ _ _ _ E)
    as [(_ & -> & ->)|(Hfresh & -> & -> & Hreg)]; [done|].
  simpl. constructor; simpl.
  - intros hash t c0 [Hold|(-> & -> & ->)]%Hreg.
    + by apply (wf_open _ _ Hwf hash t).
    + intros Hin%(wf_closed_made _ _ Hwf). lia.
  - intros hash t hash' t' c0 [Hold|(-> & -> & ->)]%Hreg
           [Hold'|(-> & -> & Heq)]%Hreg.
    + by apply (wf_inj _ _ Hwf hash t hash' t' c0).
    + apply (wf_made _ _ Hwf) in Hold. lia.
    + apply (wf_made _ _ Hwf) in Hold'. lia.
    + done.
  - intros hash t c0 [Hold|(-> & -> & ->)]%Hreg; [|lia].
    apply (wf_made _ _ Hwf) in Hold. lia.
  - intros c0 Hin%(wf_closed_made _ _ Hwf). lia.
Qed.

Lemma registerAll_keeps calls state h :
  (forall hash t c,
      registered (NotifyMap state) hash t c ->
      registered (NotifyMap (registerAll calls (state, h)).1) hash t c) /\
  closedChans (registerAll calls (state, h)).2 = closedChans h.
Proof.
  revert state h. induction calls as [|[hash0 t0] calls IH]; intros state h.
  - done.
  - cbn [registerAll foldl]. simpl.
    destruct (TemplateUpdateChan hash0 t0 state h) as [[c state'] h'] eqn:E.
    destruct (IH state' h') as [IH1 IH2]. fold (registerAll calls (state', h')).
    destruct (TemplateUpdateChan_cases _ _ _ _ _ _ _ E)
      as [(_ & -> & ->)|(Hfresh & -> & -> & Hreg)]; [done|].
    split; [|done].
    intros hash t c Hr. apply IH1, Hreg. by left.
Qed.

Lemma wf_registerAll calls state h :
  wf (NotifyMap state) h ->
  wf (NotifyMap (registerAll calls (state, h)).1)
     (registerAll calls (state, h)).2.
Proof.
  revert state h. induction calls as [|[hash0 t0] calls IH]; intros state h.
  - done.
  - intros Hwf. cbn [registerAll foldl]. simpl.
    pose proof (wf_TemplateUpdateChan hash0 t0 state h Hwf) as Hwf'.
    destruct (TemplateUpdateChan hash0 t0 state h) as [[c state'] h'].
    by apply IH.
Qed.

(** C10. A call of [TemplateUpdateChan] for [(prevHash, lastGenerated)],
    then any number of further calls of [TemplateUpdateChan], then the
    first call again: the last call returns the channel of the first
    and changes neither the work state nor the channels. Every
    registration present before the first call is present with the same
    channel after each of them, and the set of closed channels does not
    change. *)
Theorem TemplateUpdateChan_idempotent ph lg state h calls :
  let '(c1, state1, h1) := TemplateUpdateChan ph lg state h in
  let '(state2, h2) := registerAll calls (state1, h1) in
  TemplateUpdateChan ph lg state2 h2 = (c1, state2, h2) /\
  (forall hash t c,
      registered (NotifyMap state) hash t c ->
      registered (NotifyMap state1) hash t c /\
      registered (NotifyMap state2) hash t c) /\
  closedChans h1 = closedChans h /\
  closedChans h2 = closedChans h.
Proof.
  destruct (TemplateUpdateChan ph lg state h) as [[c1 state1] h1] eqn:E1.
  destruct (registerAll calls (state1, h1)) as [state2 h2] eqn:E2.
  pose proof (registerAll_keeps calls state1 h1) as [Hkeep Hcl].
  rewrite E2 in Hkeep, Hcl. simpl in Hkeep, Hcl.
  assert (registered (NotifyMap state1) ph lg c1 /\
          (forall hash t c, registered (NotifyMap state) hash t c ->
                            registered (NotifyMap state1) hash t c) /\
          closedChans h1 = closedChans h) as (Hc1 & Hkeep1 & Hcl1).
  { destruct (TemplateUpdateChan_cases _ _ _ _ _ _ _ E1)
      as [(? & -> & ->)|(Hfresh & -> & -> & Hreg)]; [done|].
    split_and!; [|intros; apply Hreg; by left|done].
    apply Hreg. by right. }
  split_and!.
  - apply TemplateUpdateChan_hit. by apply Hkeep.
  - intros hash t c Hr. split; [by apply Hkeep1|]. by apply Hkeep, Hkeep1.
  - done.
  - congruence.
Qed.
End LongPollRegistry.

(** ** Template identifiers *)

Section TemplateID.

Import Str RPC PollSpec.

Lemma all_chars_impl (P Q : ascii -> bool) s :
  (forall c, P c = true -> Q c = true) ->
  all_chars P s = true -> all_chars Q s = true.
Proof.
  intros HPQ. induction s as [|c s IH]; simpl; [done|].
  rewrite !andb_true_iff. intros [Hc Hs]. auto.
Qed.

Lemma Split_nonempty s sep : Split s sep <> [].
Proof.
  induction s as [|c s IH]; simpl; [done|].
  destruct (Ascii.eqb c sep); [done|]. by destruct (Split s sep).
Qed.

Lemma Split_no_sep s sep :
  all_chars (not_char sep) s = true -> Split s sep = [s].
Proof.
  induction s as [|c s IH]; simpl; [done|].
  rewrite andb_true_iff. unfold not_char at 1. intros [Hc Hs].
  apply negb_true_iff in Hc. rewrite Hc, (IH Hs). done.
Qed.

Lemma Split_app a b sep :
  all_chars (not_char sep) a = true ->
  Split (a ++ String sep b) sep = a :: Split b sep.
Proof.
  induction a as [|c a IH]; simpl.
  - intros _. by rewrite Ascii.eqb_refl.
  - rewrite andb_true_iff. unfold not_char at 1. intros [Hc Hs].
    apply negb_true_iff in Hc. rewrite Hc, (IH Hs). done.
Qed.

Lemma byte_hex (b : byte) :
  let v := Byte.to_N b in
  fromHexChar (hexdigit (v / 16)) = Some (v / 16)%N /\
  fromHexChar (hexdigit (v mod 16)) = Some (v mod 16)%N /\
  not_char "-" (hexdigit (v / 16)) = true /\
  not_char "-" (hexdigit (v mod 16)) = true /\
  Byte.of_N ((v / 16) * 16 + v mod 16) = Some b.
Proof. destruct b; vm_compute; repeat split; reflexivity. Qed.

Lemma Decode_Encode (bs : list byte) :
  DecodeString (EncodeToString bs) = Some bs.
Proof.
  induction bs as [|b bs IH]; simpl; [done|].
  destruct (byte_hex b) as (H1 & H2 & _ & _ & H3).
  rewrite H1, H2, H3, IH. done.
Qed.

Lemma Encode_no_dash (bs : list byte) :
  all_chars (not_char "-") (EncodeToString bs) = true.
Proof.
  induction bs as [|b bs IH]; simpl; [done|].
  destruct (byte_hex b) as (_ & _ & H1 & H2 & _).
  rewrite H1, H2, IH. done.
Qed.

Lemma is_digit_digit_char d :
  0 <= d < 10 ->
  is_digit (digit_char d) = true /\
  Z.of_N (N_of_ascii (digit_char d)) - 48 = d /\
  not_char "-" (digit_char d) = true /\
  Ascii.eqb (digit_char d) "+" = false /\
  Ascii.eqb (digit_char d) "-" = false.
Proof.
  intros Hd.
  assert (d = 0 \/ d = 1 \/ d = 2 \/ d = 3 \/ d = 4 \/ d = 5 \/ d = 6 \/
          d = 7 \/ d = 8 \/ d = 9) as Hcases by lia.
  repeat (destruct Hcases as [-> | Hcases]); try subst d;
    vm_compute; repeat split; reflexivity.
Qed.

Lemma formatBits_digits fuel u acc :
  0 <= u ->
  all_chars (not_char "-") acc = true ->
  all_chars (not_char "-") (formatBits fuel u acc) = true.
Proof.
  revert u acc. induction fuel as [|fuel IH]; intros u acc Hu Hacc; simpl;
    [done|].
  assert (0 <= u mod 10 < 10) as Hm by (apply Z.mod_pos_bound; lia).
  destruct (is_digit_digit_char _ Hm) as (_ & _ & Hnd & _ & _).
  destruct (u <? 10).
  - simpl. by rewrite Hnd, Hacc.
  - apply IH; [apply Z.div_pos; lia|]. simpl. by rewrite Hnd, Hacc.
Qed.

Lemma formatBits_head fuel u acc :
  0 <= u ->
  exists d s, 0 <= d < 10 /\
              formatBits (S fuel) u acc = String (digit_char d) s.
Proof.
  revert u acc. induction fuel as [|fuel IH]; intros u acc Hu.
  - exists (u mod 10), acc. split; [apply Z.mod_pos_bound; lia|].
    simpl. by destruct (u <? 10).
  - assert (0 <= u mod 10 < 10) as Hm by (apply Z.mod_pos_bound; lia).
    change (formatBits (S (S fuel)) u acc)
      with (let acc := String (digit_char (u mod 10)) acc in
            if u <? 10 then acc else formatBits (S fuel) (u / 10) acc).
    cbv zeta. destruct (u <? 10); [by eauto|].
    apply IH. apply Z.div_pos; lia.
Qed.

Lemma parseDigits_step d s n :
  0 <= d < 10 -> 0 <= n -> n * 10 + d <= maxUint64 ->
  parseDigits (String (digit_char d) s) n = parseDigits s (n * 10 + d).
Proof.
  intros Hd Hn Hmax.
  destruct (is_digit_digit_char _ Hd) as (Hdig & Hv & _).
  cbn [parseDigits]. rewrite Hdig, Hv. cbn [negb].
  unfold maxUint64 in *.
  assert ((2 ^ 64 - 1) / 10 = 1844674407370955161) as Hq by reflexivity.
  rewrite Hq.
  destruct (Z.geb_spec n (1844674407370955161 + 1)); [lia|].
  rewrite (Z.mod_small (n * 10)) by lia.
  rewrite (Z.mod_small (n * 10 + d)) by lia.
  destruct (Z.ltb_spec (n * 10 + d) (n * 10)); [lia|].
  destruct (Z.gtb_spec (n * 10 + d) (2 ^ 64 - 1)); [lia|].
  done.
Qed.

Lemma parseDigits_formatBits fuel u acc :
  0 <= u < 10 ^ Z.of_nat fuel -> u <= maxUint64 ->
  parseDigits (formatBits fuel u acc) 0 = parseDigits acc u.
Proof.
  revert u acc. induction fuel as [|fuel IH]; intros u acc Hu Hmax.
  - simpl in *. assert (u = 0) as -> by lia. done.
  - assert (0 <= u mod 10 < 10) as Hm by (apply Z.mod_pos_bound; lia).
    pose proof (Z.div_mod u 10 ltac:(lia)) as Hdm.
    cbn [formatBits]. destruct (Z.ltb_spec u 10) as [Hlt|Hge].
    + rewrite parseDigits_step; [|lia|lia|].
      * f_equal. rewrite Z.mod_small; lia.
      * rewrite Z.mod_small; lia.
    + assert (0 <= u / 10) by (apply Z.div_pos; lia).
      rewrite IH.
      * rewrite parseDigits_step; [|lia|lia|lia]. f_equal. lia.
      * split; [lia|].
        apply Z.div_lt_upper_bound; [lia|].
        rewrite Nat2Z.inj_succ, Z.pow_succ_r in Hu by lia. lia.
      * lia.
Qed.

Lemma ParseInt_FormatInt u :
  0 <= u < 2 ^ 63 -> ParseInt (FormatInt u) = Some u.
Proof.
  intros Hu. unfold FormatInt.
  destruct (Z.ltb_spec u 0); [lia|].
  destruct (formatBits_head 19 u EmptyString) as (d & s & Hd & Hs); [lia|].
  destruct (is_digit_digit_char _ Hd) as (_ & _ & _ & Hp & Hm).
  unfold ParseInt. rewrite Hs, Hp, Hm. rewrite <- Hs.
  unfold ParseUint. rewrite Hs at 1. rewrite parseDigits_formatBits.
  - cbn [parseDigits negb andb].
    destruct (Z.geb_spec u (2 ^ 63)); [lia|]. done.
  - change (Z.of_nat 20) with 20. lia.
  - unfold maxUint64. lia.
Qed.

(** C9 (amended). For every hash of 32 bytes and every time whose Unix
    seconds are not negative (and fit an int64), [DecodeTemplateID]
    applied to [EncodeTemplateID hash t] succeeds and returns the hash
    and the Unix seconds of [t]. *)
Theorem templateID_roundtrip (h : Hash) (t : Time.Time) :
  length h = HashSize ->
  0 <= Time.Unix t < 2 ^ 63 ->
  DecodeTemplateID (EncodeTemplateID h t) = Some (h, Time.Unix t).
Proof.
  intros Hlen Ht. unfold DecodeTemplateID, EncodeTemplateID, HashString.
  rewrite Split_app by apply Encode_no_dash.
  rewrite Split_no_sep.
  - unfold NewHashFromStr. rewrite Decode_Encode, Hlen.
    rewrite Nat.eqb_refl. by rewrite ParseInt_FormatInt.
  - unfold FormatInt. destruct (Z.ltb_spec (Time.Unix t) 0); [lia|].
    apply formatBits_digits; [lia|done].
Qed.

End TemplateID.

(** ** The long-poll handler *)

Section LongPollHandler.

Import RPC PollSpec.

Lemma NotifyLongPollers_fields latest lastGenerated state h state' h' :
  NotifyLongPollers latest lastGenerated state h = Some (state', h') ->
  Template state' = Template state /\
  prevHash state' = prevHash state /\
  LastGenerated state' = LastGenerated state.
Proof.
  unfold NotifyLongPollers.
  destruct (notifyStale _ _ _ _) as [[nm h1]|]; [|done].
  destruct (Time.IsZero lastGenerated); [by intros [= <- <-]|].
  destruct (nm !! latest) as [chs|]; [|by intros [= <- <-]].
  destruct (notifyOlder _ _ _ _) as [[chs' h2]|]; [|done].
  destruct (len chs' =? 0); by intros [= <- <-].
Qed.

Lemma UpdateBlockTemplate_ok s useCoinbaseValue state h state1 h1 :
  UpdateBlockTemplate s useCoinbaseValue state h = Some (None, state1, h1) ->
  is_Some (Template state1) /\ is_Some (prevHash state1).
Proof.
  unfold UpdateBlockTemplate.
  set (regenerate := match Template state, prevHash state with
                     | None, _ => true
                     | _, None => true
                     | Some _, Some ph => _
                     end).
  destruct regenerate eqn:Hregen.
  - destruct (if useCoinbaseValue then _ else _) as [payAddr|]; [|done].
    destruct (NewBlockTemplate s payAddr) as [err|tpl]; [done|].
    destruct (NotifyLongPollers _ _ _ _) as [[st hp]|] eqn:Hn; [|done].
    intros [= <- <-].
    destruct (NotifyLongPollers_fields _ _ _ _ _ _ Hn) as (-> & -> & _).
    cbn. eauto.
  - destruct (Template state) as [tpl|] eqn:Ht; [|done].
    destruct (prevHash state) as [ph|] eqn:Hp;
      [|by unfold regenerate in Hregen].
    destruct (if negb useCoinbaseValue && negb (ValidPayAddress tpl)
              then _ else _) as [[[err|] tpl1]|]; [done| |done].
    intros [= <- <-]. cbn. eauto.
Qed.

Lemma BlockTemplateResult_submitOld s useCoinbaseValue submitOld state
      template :
  Template state = Some template -> is_Some (prevHash state) ->
  exists r,
    BlockTemplateResult s useCoinbaseValue submitOld state = Some r /\
    (forall result, r = inr result -> SubmitOld result = submitOld) /\
    (servable s useCoinbaseValue template -> exists result, r = inr result).
Proof.
  intros Ht [ph Hp]. unfold BlockTemplateResult, servable.
  rewrite Ht, Hp.
  destruct (Time.After _ _).
  { eexists. split_and!; [done|done|]. by intros [? _]. }
  destruct (TxSerializeError s).
  { eexists. split_and!; [done|done|]. by intros (_ & ? & _). }
  destruct useCoinbaseValue.
  { eexists. split_and!; [done|by intros ? [= <-]|eauto]. }
  destruct (ValidPayAddress template); cbn [negb].
  - destruct (CoinbaseSerializeError s).
    + eexists. split_and!; [done|done|].
      by intros (_ & _ & [?|[_ ?]]).
    + eexists. split_and!; [done|by intros ? [= <-]|eauto].
  - eexists. split_and!; [done|done|].
    by intros (_ & _ & [?|[? _]]).
Qed.


(** The other side: an identifier that still names the current
    template makes the handler wait on the channel registered for it. *)
Lemma HandleGetBlockTemplateLongPoll_current
      s longPollID useCoinbaseValue state h state1 h1 template :
  UpdateBlockTemplate s useCoinbaseValue state h = Some (None, state1, h1) ->
  Template state1 = Some template ->
  DecodeTemplateID longPollID =
  Some (PrevBlock template, Time.Unix (LastGenerated state1)) ->
  exists c state2 h2,
    TemplateUpdateChan (PrevBlock template)
                       (Time.Unix (LastGenerated state1)) state1 h1 =
    (c, state2, h2) /\
    HandleGetBlockTemplateLongPoll s longPollID useCoinbaseValue state h =
    Some (Waiting c (PrevBlock template), state2, h2).
Proof.
  intros Hup Ht Hdec. unfold HandleGetBlockTemplateLongPoll.
  rewrite Hup, Hdec, Ht.
  rewrite bool_decide_eq_true_2, Z.eqb_refl by done. cbn [negb orb].
  destruct (TemplateUpdateChan _ _ _ _) as [[c state2] h2].
  by exists c, state2, h2.
Qed.
End LongPollHandler.

Section LongPollExamples.

Import RPC PollSpec.

Lemma NotifyLongPollers_closes_exactly_witness :
  exists state' h',
    NotifyLongPollers (hashOf Byte.x0a) (6 * Time.Second)
                      pollers.1 pollers.2 = Some (state', h') /\
    (forall c,
        c ∈ closedChans h' <->
        c ∈ closedChans pollers.2 \/
        exists hash t,
          registered (NotifyMap pollers.1) hash t c /\
          stale (hashOf Byte.x0a) (Time.Unix (6 * Time.Second)) hash t) /\
    (forall hash t c,
        registered (NotifyMap state') hash t c <->
        registered (NotifyMap pollers.1) hash t c /\
        ~ stale (hashOf Byte.x0a) (Time.Unix (6 * Time.Second)) hash t) /\
    wf (NotifyMap state') h'.
Proof.
  apply NotifyLongPollers_closes_exactly.
  - apply (wf_registerAll _ freshState (mkChans 0%nat ∅)), wf_empty.
  - reflexivity.
Defined.

(** What the call of the witness comes to: of the three channels 0, 1
    and 2, those of time 5 under the latest hash and of the other hash
    are closed, and the one of time 7 stays. *)
Example NotifyLongPollers_pollers :
  NotifyLongPollers (hashOf Byte.x0a) (6 * Time.Second)
                    pollers.1 pollers.2 =
  Some (set_NotifyMap {[hashOf Byte.x0a := {[7 := 1%nat]}]} freshState,
        mkChans 3%nat {[0%nat; 2%nat]}).
Proof. vm_compute. reflexivity. Qed.

Lemma TemplateUpdateChan_idempotent_witness :
  TemplateUpdateChan (hashOf Byte.x0a) 5 pollers.1 pollers.2 =
  (0%nat, pollers.1, pollers.2).
Proof.
  pose proof (TemplateUpdateChan_idempotent
                (hashOf Byte.x0a) 5 freshState (mkChans 0%nat ∅)
                [(hashOf Byte.x0a, 7); (hashOf Byte.x0b, 3)]) as H.
  vm_compute in H. destruct H as [H _]. vm_compute. exact H.
Defined.

(** C9, the claim as stated fails: a time before 1970 has negative Unix
    seconds, whose minus sign is taken for a second separator. *)
Lemma templateID_negative_time :
  length zeroHash = HashSize /\
  - 2 ^ 63 <= Time.Unix (-1) < 2 ^ 63 /\
  EncodeTemplateID zeroHash (-1) =
  (HashString zeroHash ++ "--1")%string /\
  DecodeTemplateID (EncodeTemplateID zeroHash (-1)) = None.
Proof. vm_compute. repeat split; congruence. Qed.

Lemma templateID_roundtrip_witness :
  DecodeTemplateID (EncodeTemplateID zeroHash (1500 * Time.Second)) =
  Some (zeroHash, Time.Unix (1500 * Time.Second)).
Proof.
  apply templateID_roundtrip.
  - reflexivity.
  - vm_compute. split; [discriminate|reflexivity].
Defined.


(** The same request, evaluated: the tip has moved from the block of
    [oldID], so work on the old template is not to be submitted. *)
Example HandleGetBlockTemplateLongPoll_oldID :
  exists result,
    HandleGetBlockTemplateLongPoll server0 oldID true freshState
                                   (mkChans 0%nat ∅) =
    Some (Returned result, generated0, mkChans 0%nat ∅) /\
    SubmitOld result = Some false.
Proof. eexists. vm_compute. split; reflexivity. Qed.

End LongPollExamples.

(** ** The checkpoint cache *)

Section Checkpoints.

Import RPC CFCheckpt CFSpec.

Variable IsCurrent : bool.
Variable IntervalBlockHashes : Hash -> option (list Hash).
Variable FilterHeadersByBlockHashes :
  list Hash -> FilterType -> option (list (list byte)).
Variable NewHash : list byte -> option Hash.
Variable GCSFilterRegular : FilterType.
Variable spareCap : nat -> nat -> nat.

Local Open Scope nat_scope.

Lemma index_elems s i : within s -> index s i = elems s !! i.
Proof.
  intros Hw. unfold index, elems. destruct (Nat.ltb_spec i (slen s)).
  - by rewrite lookup_take_lt.
  - by rewrite lookup_take_ge.
Qed.

Lemma length_elems s : within s -> length (elems s) = slen s.
Proof. intros Hw. unfold elems. by rewrite length_take_le. Qed.

Lemma appendZero_elems s n :
  within s ->
  let s' := (appendZero spareCap s n).1 in
  within s' /\ slen s' = slen s + n /\
  elems s' = elems s ++ replicate n zeroKV.
Proof.
  intros Hw. unfold within in Hw. cbn zeta. unfold appendZero.
  destruct (Nat.leb_spec (slen s + n) (length (arr s))); cbn [fst].
  - unfold within, elems. cbn [arr slen].
    rewrite !length_app, length_take_le, length_replicate, length_drop
      by lia.
    split_and!; [lia|done|].
    rewrite app_assoc.
    rewrite take_app_length'; [done|].
    rewrite length_app, length_take_le, length_replicate; lia.
  - unfold within, elems. cbn [arr slen].
    rewrite !length_app, length_take_le, !length_replicate by lia.
    split_and!; [lia|done|].
    rewrite app_assoc.
    rewrite take_app_length'; [done|].
    rewrite length_app, length_take_le, length_replicate; lia.
Qed.

Lemma findFork_spec c blockHashes k :
  within c -> k <= length blockHashes -> length blockHashes <= slen c ->
  exists forkIdx,
    findFork c blockHashes k = Some forkIdx /\
    forkIdx <= k /\
    (0 < forkIdx -> agrees (elems c) blockHashes (forkIdx - 1)) /\
    (forall j, forkIdx <= j < k -> ~ agrees (elems c) blockHashes j).
Proof.
  intros Hw Hk Hlen. induction k as [|k IH].
  - exists 0. split_and!; [done|done|lia|lia].
  - cbn [findFork]. rewrite index_elems by done.
    destruct (lookup_lt_is_Some_2 (elems c) k) as [kv Hkv].
    { rewrite length_elems by done. lia. }
    destruct (lookup_lt_is_Some_2 blockHashes k) as [hash Hh]; [lia|].
    rewrite Hkv, Hh. case_bool_decide as Heq.
    + exists (S k). split_and!; [done|done| |lia].
      intros _. replace (S k - 1) with k by lia.
      exists kv. by rewrite Heq.
    + destruct IH as (f & -> & Hf & Hag & Hdis); [lia|].
      exists f. split_and!; [done|lia|done|].
      intros j Hj. destruct (decide (j = k)) as [->|Hne].
      * intros (kv' & Hkv' & Hh'). congruence.
      * apply Hdis. lia.
Qed.

Lemma addCached_spec c i n msg :
  within c -> i + n <= slen c ->
  addCached c i n msg =
  Some (mkMsgCFCheckpt (ReplyFilterType msg) (ReplyStopHash msg)
          (FilterHeaders msg
             ++ (FilterHeader <$> take n (drop i (elems c))))).
Proof.
  intros Hw. revert i msg. induction n as [|n IH]; intros i msg Hi.
  - cbn. rewrite app_nil_r. by destruct msg.
  - cbn [addCached]. rewrite index_elems by done.
    destruct (lookup_lt_is_Some_2 (elems c) i) as [kv Hkv].
    { rewrite length_elems by done. lia. }
    rewrite Hkv, IH by lia. cbn. f_equal. f_equal.
    rewrite <- app_assoc. f_equal.
    rewrite (drop_S _ _ _ Hkv). done.
Qed.

Lemma fill_keep blockHashes forkIdx raw hs :
  decoded NewHash raw hs ->
  forall i msg c,
    fill NewHash false blockHashes forkIdx i raw msg c =
    Some (Completed
            (mkMsgCFCheckpt (ReplyFilterType msg) (ReplyStopHash msg)
                            (FilterHeaders msg ++ hs)) c).
Proof.
  induction 1 as [|bytes h raw hs [Hlen Hnew] _ IH]; intros i msg c.
  - cbn. rewrite app_nil_r. by destruct msg.
  - cbn [fill]. destruct (Nat.eqb_spec (length bytes) 0); [done|].
    rewrite Hnew, IH. cbn. by rewrite <- app_assoc.
Qed.

Lemma fill_update blockHashes forkIdx raw hs :
  decoded NewHash raw hs ->
  forall i msg c,
    within c -> slen c = length blockHashes ->
    forkIdx + i + length raw <= length blockHashes ->
    exists c',
      fill NewHash true blockHashes forkIdx i raw msg c =
      Some (Completed
              (mkMsgCFCheckpt (ReplyFilterType msg) (ReplyStopHash msg)
                              (FilterHeaders msg ++ hs)) c') /\
      within c' /\ slen c' = slen c /\
      (forall j, j < forkIdx + i \/ forkIdx + i + length raw <= j ->
                 elems c' !! j = elems c !! j) /\
      (forall k fh hash,
          hs !! k = Some fh -> blockHashes !! (forkIdx + i + k) = Some hash ->
          elems c' !! (forkIdx + i + k) = Some (mkCFHeaderKV hash fh)).
Proof.
  induction 1 as [|bytes h raw hs [Hlen Hnew] _ IH];
    intros i msg c Hw Hn Hi.
  - exists c. cbn. rewrite app_nil_r.
    split_and!; [by destruct msg|done|done|done|].
    intros k fh hash Hk. by rewrite lookup_nil in Hk.
  - cbn [fill length] in *.
    destruct (Nat.eqb_spec (length bytes) 0); [done|].
    rewrite Hnew.
    destruct (lookup_lt_is_Some_2 blockHashes (forkIdx + i)) as [hash Hh];
      [lia|].
    rewrite Hh. unfold store.
    destruct (Nat.ltb_spec (forkIdx + i) (slen c)); [|lia].
    set (c1 := mkSlice (<[forkIdx + i := mkCFHeaderKV hash h]> (arr c))
                       (slen c)).
    assert (within c1) as Hw1.
    { unfold within, c1. cbn. rewrite length_insert. apply Hw. }
    assert (elems c1 = <[forkIdx + i := mkCFHeaderKV hash h]> (elems c))
      as He1.
    { unfold elems, c1. cbn. by rewrite take_insert_lt. }
    destruct (IH (S i) (AddCFHeader msg h) c1) as
        (c' & -> & Hw' & Hs' & Hsame & Hnewer); [done|done|lia|].
    exists c'. cbn [AddCFHeader ReplyFilterType ReplyStopHash FilterHeaders].
    rewrite <- app_assoc. split_and!; [done|done|done| |].
    + intros j Hj. rewrite Hsame by lia. rewrite He1.
      apply list_lookup_insert_ne. lia.
    + intros k fh hash' Hk Hh'. destruct k as [|k].
      * cbn in Hk. injection Hk as <-.
        rewrite Nat.add_0_r in *. rewrite Hsame by lia.
        rewrite He1. rewrite Hh in Hh'. injection Hh' as <-.
        apply list_lookup_insert_eq. rewrite length_elems by done. lia.
      * cbn in Hk. replace (forkIdx + i + S k) with (forkIdx + S i + k)
          in * by lia.
        by apply Hnewer.
Qed.

(** C7 (amended). For a request that the handler serves (the node is
    in sync, the filter type is the regular one, the chain gives
    [blockHashes]), let [cache] be the stored entries, followed by empty
    placeholders when the chain has more checkpoints than the cache. The
    handler walks down from the end of [blockHashes] to [forkIdx]: the
    entry below [forkIdx] has the hash of the chain, no entry from
    [forkIdx] on has. When the filter index returns the headers of the
    hashes from [forkIdx] on, the reply holds the cached filter headers
    of the entries below [forkIdx] and then the fetched headers. The
    server's cache is written only when the chain has more checkpoints
    than the cache: it then has one entry per checkpoint, the old ones
    below [forkIdx] and the fetched ones, each with the hash of the
    chain, from [forkIdx] on; otherwise the cache is left as it was. *)
Theorem OnGetCFCheckpt_fork_repair msg caches blockHashes :
  IsCurrent = true ->
  MsgFilterType msg = GCSFilterRegular ->
  IntervalBlockHashes (StopHash msg) = Some blockHashes ->
  let stored := default nilSlice (caches !! MsgFilterType msg) in
  let n := length blockHashes in
  let cache := elems stored ++ replicate (n - slen stored) zeroKV in
  within stored ->
  exists forkIdx,
    forkIdx <= n /\
    (0 < forkIdx -> agrees cache blockHashes (forkIdx - 1)) /\
    (forall j, forkIdx <= j < n -> ~ agrees cache blockHashes j) /\
    forall raw hs,
      FilterHeadersByBlockHashes (drop forkIdx blockHashes)
                                 (MsgFilterType msg) = Some raw ->
      decoded NewHash raw hs -> length raw = n - forkIdx ->
      exists caches',
        OnGetCFCheckpt IsCurrent IntervalBlockHashes
                       FilterHeadersByBlockHashes NewHash GCSFilterRegular
                       spareCap msg caches =
        Some (caches',
              Some (mkMsgCFCheckpt
                      (MsgFilterType msg) (StopHash msg)
                      ((FilterHeader <$> take forkIdx cache) ++ hs))) /\
        if decide (slen stored < n)
        then exists c',
            caches' = <[MsgFilterType msg := c']> caches /\
            within c' /\ slen c' = n /\
            (forall j, j < forkIdx -> elems c' !! j = cache !! j) /\
            (forall k fh hash,
                hs !! k = Some fh ->
                blockHashes !! (forkIdx + k) = Some hash ->
                elems c' !! (forkIdx + k) = Some (mkCFHeaderKV hash fh))
        else caches' = caches.
Proof.
  intros Hcur Hft Hbh stored n cache Hw.
  assert ((MsgFilterType msg =? GCSFilterRegular)%Z = true) as Hft'
      by (by apply Z.eqb_eq).
  unfold OnGetCFCheckpt. rewrite Hcur, Hbh, Hft'. cbn [negb].
  fold stored. fold n.
  destruct (Nat.ltb_spec (slen stored) n) as [Hgrow|Hfit].
  - destruct (appendZero spareCap stored (n - slen stored))
      as [grown shared] eqn:Happ.
    destruct (appendZero_elems stored (n - slen stored) Hw)
      as (Hwg & Hsg & Heg).
    rewrite Happ in Hwg, Hsg, Heg. cbn [fst] in Hwg, Hsg, Heg.
    fold cache in Heg.
    destruct (findFork_spec grown blockHashes n Hwg)
      as (forkIdx & -> & Hf & Hag & Hdis); [done|lia|].
    rewrite Heg in Hag, Hdis.
    exists forkIdx. split_and!; [done|done|done|].
    intros raw hs Hraw Hdec Hlen.
    rewrite addCached_spec by (done || lia).
    rewrite drop_0, Heg. cbn [ReplyFilterType ReplyStopHash FilterHeaders app]. rewrite Hraw.
    destruct (fill_update blockHashes forkIdx raw hs Hdec 0
                (mkMsgCFCheckpt (MsgFilterType msg) (StopHash msg)
                                (FilterHeader <$> take forkIdx cache))
                grown)
      as (c' & Hfill & Hw' & Hs' & Hsame & Hnewer); [done|lia|lia|].
    rewrite Hfill. cbn [ReplyFilterType ReplyStopHash FilterHeaders].
    eexists. split; [done|].
    rewrite decide_True by done.
    exists c'. split_and!; [done|done|lia| |].
    + intros j Hj. rewrite Hsame by lia. by rewrite Heg.
    + intros k fh hash Hk Hh.
      specialize (Hnewer k fh hash Hk).
      rewrite Nat.add_0_r in Hnewer. by apply Hnewer.
  - assert (cache = elems stored) as Hcache.
    { unfold cache. replace (n - slen stored) with 0 by lia.
      cbn. by rewrite app_nil_r. }
    destruct (findFork_spec stored blockHashes n Hw)
      as (forkIdx & -> & Hf & Hag & Hdis); [done|lia|].
    rewrite <- Hcache in Hag, Hdis.
    exists forkIdx. split_and!; [done|done|done|].
    intros raw hs Hraw Hdec Hlen.
    rewrite addCached_spec by (done || lia).
    rewrite drop_0, <- Hcache. cbn [ReplyFilterType ReplyStopHash FilterHeaders app]. rewrite Hraw.
    rewrite (fill_keep blockHashes forkIdx raw hs Hdec).
    cbn [ReplyFilterType ReplyStopHash FilterHeaders].
    eexists. split; [done|].
    rewrite decide_False by lia. done.
Qed.
End Checkpoints.

(** ** Controller election *)

Section Election.

Import Kopach ElectionSpec.

Lemma eqb_false_ne (a b : string) : String.eqb a b = false <-> a <> b.
Proof. apply String.eqb_neq. Qed.

Lemma handleJob_other w j now X addr :
  active w = true -> FirstSender w = X -> X <> EmptyString ->
  controllerAddr j = Some addr -> addr <> X ->
  handleJob w j now = Some (w, []).
Proof.
  intros Ha HX Hne Haddr Hdiff. unfold handleJob.
  rewrite Ha, Haddr, HX. cbn [negb].
  assert (String.eqb X addr = false) as -> by (apply String.eqb_neq; auto).
  assert (String.eqb X "" = false) as -> by (by apply String.eqb_neq).
  done.
Qed.

Lemma forWorkers_jobOf w j X :
  controllerAddr j = Some X ->
  Forall (jobOf X) (forWorkers w (fun i => NewJob i j)).
Proof.
  intros Hj. unfold forWorkers. apply Forall_fmap, Forall_forall.
  intros i _. exact Hj.
Qed.

Lemma forWorkers_Pause_jobOf w X : Forall (jobOf X) (forWorkers w Pause).
Proof.
  unfold forWorkers. apply Forall_fmap, Forall_forall. by intros i _.
Qed.

Lemma step_controller w ev w' calls X :
  FirstSender w = X -> X <> EmptyString ->
  step w ev = Some (w', calls) ->
  Forall (jobOf X) calls /\
  (FirstSender w' = X \/ FirstSender w' = EmptyString) /\
  (FirstSender w' = EmptyString <-> clears w ev) /\
  (forall now, ev = Tick now -> silent w now ->
               calls = forWorkers w Pause) /\
  (forall j now, ev = JobMsg j now -> controllerAddr j <> Some X ->
                 w' = w /\ calls = []).
Proof.
  intros HX Hne Hstep.
  assert (String.eqb X "" = false) as HXe by (by apply String.eqb_neq).
  destruct ev as [j now|p| |now]; simpl in Hstep.
  - unfold handleJob in Hstep. destruct (active w) eqn:Ha; simpl in Hstep.
    + destruct (controllerAddr j) as [addr|] eqn:Haddr; [|done].
      rewrite HX, HXe in Hstep. cbn [negb] in Hstep.
      rewrite andb_true_r in Hstep.
      destruct (String.eqb_spec X addr) as [<-|Hdiff]; simpl in Hstep.
      * injection Hstep as <- <-. cbn.
        split_and!; [by apply forWorkers_jobOf|by left| |done|].
        -- split; [done|]. intros [?|(? & ? & _)]; done.
        -- intros j0 now0 [= <- <-] Hc. congruence.
      * injection Hstep as <- <-.
        split_and!; [done|by left| |done|done].
        split; [congruence|]. intros [?|(? & ? & _)]; done.
    + injection Hstep as <- <-.
      split_and!; [done|by left| |done|done].
      split; [congruence|]. intros [?|(? & ? & _)]; done.
  - unfold handlePause in Hstep.
    destruct (controllerAddr p) as [ns|]; [|done].
    destruct (String.eqb (FirstSender w) ns); injection Hstep as <- <-.
    + split_and!; [apply forWorkers_Pause_jobOf|by left| |done|done].
      split; [congruence|]. intros [?|(? & ? & _)]; done.
    + split_and!; [done|by left| |done|done].
      split; [congruence|]. intros [?|(? & ? & _)]; done.
  - injection Hstep as <- <-. cbn.
    split_and!; [done|by right| |done|done].
    split; [|done]. intros _. by left.
  - unfold watch in Hstep. rewrite HX, HXe in Hstep. cbn [negb] in Hstep.
    rewrite andb_true_r in Hstep.
    destruct (Z.gtb_spec (Time.Sub now (lastSent w)) (Time.Second * 3))
      as [Hs|Hs]; injection Hstep as <- <-.
    + cbn. split_and!; [apply forWorkers_Pause_jobOf|by right| |done|done].
      split; [|done]. intros _. right. exists now. split; [done|].
      unfold silent. lia.
    + split_and!; [done|by left| | |done].
      * split; [congruence|]. intros [?|(now' & [= <-] & Hsil)]; [done|].
        unfold silent in Hsil. lia.
      * intros now' [= <-] Hsil. unfold silent in Hsil. lia.
Qed.

(** [lastSent] is the time of the last job that was accepted: no other
    event writes it. *)
Lemma step_lastSent w ev w' calls :
  step w ev = Some (w', calls) ->
  lastSent w' = lastSent w \/
  exists j now, ev = JobMsg j now /\ lastSent w' = now /\
                controllerAddr j = Some (FirstSender w') /\
                calls = forWorkers w (fun i => NewJob i j).
Proof.
  destruct ev as [j now|p| |now]; simpl.
  - unfold handleJob. destruct (active w); [|intros [= <- <-]; by left].
    cbn [negb]. destruct (controllerAddr j) as [addr|] eqn:Hj; [|done].
    destruct (negb (String.eqb (FirstSender w) addr)
              && negb (String.eqb (FirstSender w) ""));
      intros [= <- <-]; [by left|].
    right. exists j, now. by rewrite Hj.
  - unfold handlePause. destruct (controllerAddr p); [|done].
    destruct (String.eqb (FirstSender w) s); intros [= <- <-]; by left.
  - intros [= <- <-]. by left.
  - unfold watch. destruct (_ && _); intros [= <- <-]; by left.
Qed.

(** Once the controller is cleared, the sender of the next job is the
    controller. *)
Lemma handleJob_elects w j now addr :
  active w = true -> FirstSender w = EmptyString ->
  controllerAddr j = Some addr ->
  handleJob w j now =
  Some (mkWorker true (workers w) addr now,
        forWorkers w (fun i => NewJob i j)).
Proof.
  intros Ha Hf Hj. unfold handleJob. rewrite Ha, Hj, Hf. cbn [negb].
  rewrite andb_false_r. unfold set_lastSent, set_FirstSender.
  cbn. by rewrite Ha.
Qed.

End Election.

Section CheckpointExamples.

Import RPC PollSpec CFCheckpt CFSpec.

(** C7, the claim as stated fails: the block of the second checkpoint
    was replaced and the chain is no longer than the cache. The reply
    carries the cached header of the first checkpoint and the fetched
    header of the second, and the cache is left as it was, with the
    block that is no longer in the chain. *)
Lemma OnGetCFCheckpt_reorg_not_cached :
  reorgChain (StopHash reorgMsg) = Some [hashOf Byte.x0a; hashOf Byte.x0c] /\
  (BlockHash <$> elems (default nilSlice (staleCache !! 0)))
  = [hashOf Byte.x0a; hashOf Byte.x0b] /\
  OnGetCFCheckpt true reorgChain reorgIndex newHash32 0 noSpare
                 reorgMsg staleCache =
  Some (staleCache,
        Some (mkMsgCFCheckpt 0 (hashOf Byte.x0c)
                             [hashOf Byte.x01; hashOf Byte.xff])).
Proof. vm_compute. repeat split. Qed.

Lemma OnGetCFCheckpt_fork_repair_witness :
  let blockHashes := [hashOf Byte.x0a; hashOf Byte.x0c] in
  let stored := default nilSlice (shortCache !! MsgFilterType reorgMsg) in
  let n := length blockHashes in
  let cache := elems stored ++ replicate (n - slen stored) zeroKV in
  exists forkIdx,
    (forkIdx <= n)%nat /\
    ((0 < forkIdx)%nat -> agrees cache blockHashes (forkIdx - 1)) /\
    (forall j, (forkIdx <= j < n)%nat -> ~ agrees cache blockHashes j) /\
    forall raw hs,
      reorgIndex (drop forkIdx blockHashes) (MsgFilterType reorgMsg)
      = Some raw ->
      decoded newHash32 raw hs -> length raw = (n - forkIdx)%nat ->
      exists caches',
        OnGetCFCheckpt true reorgChain reorgIndex newHash32 0 noSpare
                       reorgMsg shortCache =
        Some (caches',
              Some (mkMsgCFCheckpt
                      (MsgFilterType reorgMsg) (StopHash reorgMsg)
                      ((FilterHeader <$> take forkIdx cache) ++ hs))) /\
        if decide (slen stored < n)%nat
        then exists c',
            caches' = <[MsgFilterType reorgMsg := c']> shortCache /\
            within c' /\ slen c' = n /\
            (forall j, (j < forkIdx)%nat -> elems c' !! j = cache !! j) /\
            (forall k fh hash,
                hs !! k = Some fh ->
                blockHashes !! (forkIdx + k)%nat = Some hash ->
                elems c' !! (forkIdx + k)%nat
                = Some (mkCFHeaderKV hash fh))
        else caches' = shortCache.
Proof.
  apply (OnGetCFCheckpt_fork_repair true reorgChain reorgIndex newHash32 0
           noSpare reorgMsg shortCache
           [hashOf Byte.x0a; hashOf Byte.x0c]).
  - reflexivity.
  - reflexivity.
  - reflexivity.
  - vm_compute. lia.
Defined.

(** The call of the witness, evaluated: the cache grows by the entry of
    the second checkpoint. *)
Example OnGetCFCheckpt_grows :
  OnGetCFCheckpt true reorgChain reorgIndex newHash32 0 noSpare
                 reorgMsg shortCache =
  Some ({[0 := mkSlice [mkCFHeaderKV (hashOf Byte.x0a) (hashOf Byte.x01);
                        mkCFHeaderKV (hashOf Byte.x0c) (hashOf Byte.xff)]
                       2]},
        Some (mkMsgCFCheckpt 0 (hashOf Byte.x0c)
                             [hashOf Byte.x01; hashOf Byte.xff])).
Proof. vm_compute. reflexivity. Qed.

End CheckpointExamples.

Section ElectionExamples.

Import Kopach ElectionSpec.


(** A run of the worker: a job of another controller is dropped, a job
    of the controller is handed to both workers, and a tick four
    seconds later clears the controller and pauses them. *)
Example run_worker0 :
  let jobX := mkContainer ["10.0.0.1"%string] 11049 [] in
  let jobY := mkContainer ["10.0.0.9"%string] 11049 [] in
  run worker0 [JobMsg jobY (1 * Time.Second); JobMsg jobX (2 * Time.Second);
               Tick (6 * Time.Second)] =
  Some (mkWorker true 2 EmptyString (2 * Time.Second),
        [NewJob 0 jobX; NewJob 1 jobX; Pause 0; Pause 1]).
Proof. vm_compute. reflexivity. Qed.

End ElectionExamples.

(** ** Shutdown ticks, service flags and checkpoints *)

Section ServerUtilProperties.

Import ServerUtil.

Ltac tick_cases :=
  unfold DynamicTickDuration, Hour, Minute, Time.Second in *;
  repeat match goal with
         | |- context [?a <=? ?b] => destruct (Z.leb_spec a b)
         | H : context [?a <=? ?b] |- _ => destruct (Z.leb_spec a b)
         end.

Lemma DynamicTickDuration_range remaining :
  Time.Second <= DynamicTickDuration remaining <= Hour.
Proof. tick_cases; lia. Qed.

Lemma DynamicTickDuration_le remaining :
  Time.Second <= remaining -> DynamicTickDuration remaining <= remaining.
Proof. tick_cases; lia. Qed.

Lemma DynamicTickDuration_mono remaining remaining' :
  remaining <= remaining' ->
  DynamicTickDuration remaining <= DynamicTickDuration remaining'.
Proof. intros Hle. tick_cases; lia. Qed.

(** X1. [DynamicTickDuration] is between one second and one hour,
    grows with the remaining time, and never exceeds the remaining time
    once at least one second remains. *)
Theorem DynamicTickDuration_bounds (remaining remaining' : Time.Duration) :
  remaining <= remaining' ->
  Time.Second <= DynamicTickDuration remaining
  /\ DynamicTickDuration remaining <= DynamicTickDuration remaining'
  /\ DynamicTickDuration remaining' <= Hour
  /\ DynamicTickDuration remaining' <= Z.max Time.Second remaining'.
Proof.
  intros Hle. repeat split.
  - apply DynamicTickDuration_range.
  - by apply DynamicTickDuration_mono.
  - apply DynamicTickDuration_range.
  - destruct (Z.le_gt_cases Time.Second remaining') as [H|H].
    + pose proof (DynamicTickDuration_le _ H). lia.
    + assert (DynamicTickDuration remaining' = Time.Second) as ->; [|lia].
      clear Hle. tick_cases; lia.
Qed.

Lemma DynamicTickDuration_bounds_witness :
  Time.Second <= DynamicTickDuration (10 * Time.Second)
  /\ DynamicTickDuration (10 * Time.Second)
     <= DynamicTickDuration (2 * Minute)
  /\ DynamicTickDuration (2 * Minute) <= Hour
  /\ DynamicTickDuration (2 * Minute) <= Z.max Time.Second (2 * Minute).
Proof.
  apply (DynamicTickDuration_bounds (10 * Time.Second) (2 * Minute)).
  vm_compute. discriminate.
Defined.

Lemma wrap_int_id z : - 2 ^ 63 <= z < 2 ^ 63 -> wrap_int z = z.
Proof.
  intros Hz. unfold wrap_int.
  rewrite Z.mod_small; lia.
Qed.

Lemma shutdownTick_grows remaining :
  0 <= remaining -> remaining + Hour < 2 ^ 63 ->
  shutdownTick (remaining, DynamicTickDuration remaining)
  = (remaining + DynamicTickDuration remaining,
     DynamicTickDuration (remaining + DynamicTickDuration remaining)).
Proof.
  intros H0 Hmax.
  pose proof (DynamicTickDuration_range remaining) as Hr.
  assert (0 < Time.Second /\ Hour < 2 ^ 63) as [? ?]
    by (unfold Hour, Minute, Time.Second; lia).
  unfold shutdownTick.
  rewrite (wrap_int_id (- _)) by lia.
  replace (remaining - - DynamicTickDuration remaining)
    with (remaining + DynamicTickDuration remaining) by lia.
  rewrite wrap_int_id by lia.
  destruct (Z.ltb_spec (remaining + DynamicTickDuration remaining)
                       Time.Second); [lia|].
  destruct (DynamicTickDuration remaining
            =? DynamicTickDuration
                 (remaining + DynamicTickDuration remaining)) eqn:E;
    cbn [negb]; [|done].
  apply Z.eqb_eq in E. by rewrite <- E.
Qed.

(** X2. [ScheduleShutdown] adds the tick duration to [remaining] at
    every tick ([remaining -= -tickDuration]): as long as the shutdown
    has not fired, the remaining time it logs after [k] ticks is at
    least [k] seconds more than the duration asked for, the tick
    duration being the one [DynamicTickDuration] gives for it. *)
Theorem shutdownTicks_grow (k : nat) (duration : Time.Duration) :
  0 <= duration ->
  duration + (Z.of_nat k + 1) * Hour < 2 ^ 63 ->
  let st := shutdownTicks k duration in
  duration + Z.of_nat k * Time.Second <= st.1 <= duration + Z.of_nat k * Hour
  /\ st.2 = DynamicTickDuration st.1
  /\ shutdownTick st = (st.1 + st.2, DynamicTickDuration (st.1 + st.2)).
Proof.
  intros H0 Hmax. cbn zeta.
  assert (0 < Time.Second /\ Time.Second < Hour) as [? ?]
    by (unfold Hour, Minute, Time.Second; lia).
  assert (duration + Z.of_nat k * Time.Second
          <= (shutdownTicks k duration).1
          <= duration + Z.of_nat k * Hour
          /\ (shutdownTicks k duration).2
             = DynamicTickDuration (shutdownTicks k duration).1)
    as [Hr Ht].
  { induction k as [|k IH].
    - cbn. lia.
    - destruct IH as [IHr IHt]; [nia|].
      change (shutdownTicks (S k) duration)
        with (shutdownTick (shutdownTicks k duration)).
      destruct (shutdownTicks k duration) as [r t].
      cbn [fst snd] in *. subst t.
      rewrite shutdownTick_grows by nia. cbn [fst snd].
      pose proof (DynamicTickDuration_range r). split; [nia|done]. }
  split; [done|]. split; [done|].
  destruct (shutdownTicks k duration) as [r t]. cbn [fst snd] in *.
  subst t. apply shutdownTick_grows; nia.
Qed.

Lemma shutdownTicks_grow_witness :
  let st := shutdownTicks 3 (10 * Time.Second) in
  10 * Time.Second + Z.of_nat 3 * Time.Second <= st.1
  <= 10 * Time.Second + Z.of_nat 3 * Hour
  /\ st.2 = DynamicTickDuration st.1
  /\ shutdownTick st = (st.1 + st.2, DynamicTickDuration (st.1 + st.2)).
Proof.
  apply (shutdownTicks_grow 3 (10 * Time.Second)); vm_compute; done.
Defined.

(** X3. [GetHasServices] holds exactly when every bit set in [desired]
    is set in [advertised]; asking for the union of two sets of flags
    is asking for both. *)
Theorem GetHasServices_bits (advertised desired desired' : Z) :
  (GetHasServices advertised desired = true
   <-> forall i, Z.testbit desired i = true ->
                 Z.testbit advertised i = true)
  /\ GetHasServices advertised (Z.lor desired desired')
     = GetHasServices advertised desired
       && GetHasServices advertised desired'.
Proof.
  assert (forall a d, GetHasServices a d = true
                      <-> forall i, Z.testbit d i = true ->
                                    Z.testbit a i = true) as Hbits.
  { intros a d. unfold GetHasServices. rewrite Z.eqb_eq. split.
    - intros Heq i Hi. rewrite <- Heq, Z.land_spec in Hi.
      by apply andb_true_iff in Hi as [? _].
    - intros Hall. apply Z.bits_inj'. intros i _.
      rewrite Z.land_spec.
      destruct (Z.testbit d i) eqn:E; [|by rewrite andb_false_r].
      by rewrite (Hall i E). }
  split; [apply Hbits|].
  apply eq_true_iff_eq. rewrite andb_true_iff, !Hbits. split.
  - intros Hall. split; intros i Hi; apply Hall;
      rewrite Z.lor_spec, Hi; [done|by rewrite orb_true_r].
  - intros [H1 H2] i Hi. rewrite Z.lor_spec in Hi.
    apply orb_true_iff in Hi as [Hi|Hi]; auto.
Qed.

End ServerUtilProperties.

Section CheckpointProperties.

Import ServerUtil.

Context {Checkpoint : Type} (Height : Checkpoint -> Z).

Lemma extraOf_snoc additional c :
  extraOf Height (additional ++ [c])
  = <[Height c := c]> (extraOf Height additional).
Proof. unfold extraOf. by rewrite foldl_app. Qed.

Lemma extraOf_lookup additional h :
  extraOf Height additional !! h
  = last (filter (fun a => Height a = h) additional).
Proof.
  induction additional as [|c additional IH] using rev_ind; [done|].
  rewrite extraOf_snoc, filter_app, filter_cons, filter_nil.
  destruct (decide (Height c = h)) as [<-|Hne].
  - by rewrite lookup_insert_eq, last_snoc.
  - by rewrite lookup_insert_ne, app_nil_r.
Qed.

Lemma extraOf_Some additional h c :
  extraOf Height additional !! h = Some c ->
  Height c = h /\ c ∈ additional.
Proof.
  rewrite extraOf_lookup. intros Hlast.
  assert (c ∈ filter (fun a => Height a = h) additional) as Hin.
  { destruct (filter (fun a => Height a = h) additional)
      as [|x l] eqn:E using rev_ind; [done|].
    rewrite last_snoc in Hlast. injection Hlast as ->.
    apply elem_of_app. right. apply list_elem_of_singleton. done. }
  apply list_elem_of_filter in Hin as [? ?]. done.
Qed.

Lemma extraOf_None additional h :
  extraOf Height additional !! h = None
  <-> forall a, a ∈ additional -> Height a <> h.
Proof.
  rewrite extraOf_lookup, last_None. split.
  - intros Hnil a Ha Hh.
    assert (a ∈ filter (fun a => Height a = h) additional) as Hin
      by (by apply list_elem_of_filter).
    rewrite Hnil in Hin. by apply elem_of_nil in Hin.
  - intros Hall.
    destruct (filter (fun a => Height a = h) additional) as [|x l] eqn:E;
      [done|].
    assert (x ∈ filter (fun a => Height a = h) additional) as Hin
      by (rewrite E; left).
    apply list_elem_of_filter in Hin as [? ?]. by destruct (Hall x).
Qed.

Lemma keptDefaults_filter extra defaultCheckpoints :
  keptDefaults Height extra defaultCheckpoints
  = filter (fun c => extra !! Height c = None) defaultCheckpoints.
Proof.
  unfold keptDefaults.
  induction defaultCheckpoints as [|c l IH] using rev_ind; [done|].
  rewrite foldl_app, filter_app, filter_cons, filter_nil. cbn [foldl].
  rewrite IH.
  destruct (extra !! Height c) eqn:E.
  - rewrite decide_False by done. by rewrite app_nil_r.
  - by rewrite decide_True.
Qed.

Lemma elem_of_merged defaultCheckpoints additional extras c :
  extras ≡ₚ (map_to_list (extraOf Height additional)).*2 ->
  c ∈ keptDefaults Height (extraOf Height additional) defaultCheckpoints
        ++ extras
  <-> (c ∈ defaultCheckpoints
       /\ forall a, a ∈ additional -> Height a <> Height c)
      \/ last (filter (fun a => Height a = Height c) additional) = Some c.
Proof.
  intros Hextras.
  rewrite elem_of_app, keptDefaults_filter, list_elem_of_filter, Hextras,
    extraOf_None, <- extraOf_lookup, list_elem_of_fmap.
  split; (intros [H|H]; [left; tauto|right]).
  - destruct H as ([k c'] & -> & Hin). cbn.
    apply elem_of_map_to_list in Hin.
    destruct (extraOf_Some _ _ _ Hin) as [-> _]. done.
  - exists (Height c, c). split; [done|].
    by apply elem_of_map_to_list.
Qed.

Lemma sorted_le l :
  sorted Height l
  <-> StronglySorted (fun a b => Height a <= Height b) l.
Proof.
  unfold sorted, Less.
  induction l as [|x l IH]; [split; constructor|].
  rewrite !StronglySorted_cons, IH.
  apply and_iff_compat_r. apply Forall_iff. intros y.
  rewrite Z.ltb_ge. done.
Qed.

(** The run [mergeCheckpoints] is one of those [MergeCheckpoints]
    allows. *)
Lemma MergeCheckpoints_mergeCheckpoints defaultCheckpoints additional :
  MergeCheckpoints Height defaultCheckpoints additional
                   (mergeCheckpoints Height defaultCheckpoints additional).
Proof.
  eapply MergeCheckpoints_intro; [done| |].
  - unfold mergeCheckpoints. apply merge_sort_Permutation.
  - apply sorted_le. unfold mergeCheckpoints.
    apply StronglySorted_merge_sort.
    + intros a b c ??. lia.
    + intros a b. lia.
Qed.

Lemma NoDup_fmap_eq {A B} (f : A -> B) (l : list A) x y :
  NoDup (f <$> l) -> x ∈ l -> y ∈ l -> f x = f y -> x = y.
Proof.
  intros Hnd Hx Hy Hf.
  apply list_elem_of_lookup in Hx as [i Hi].
  apply list_elem_of_lookup in Hy as [j Hj].
  assert (i = j) as ->.
  { eapply NoDup_lookup; [exact Hnd| |].
    - rewrite list_lookup_fmap, Hi. done.
    - rewrite list_lookup_fmap, Hj. cbn. by rewrite Hf. }
  congruence.
Qed.

Lemma NoDup_merged_heights defaultCheckpoints additional extras :
  NoDup (Height <$> defaultCheckpoints) ->
  extras ≡ₚ (map_to_list (extraOf Height additional)).*2 ->
  NoDup (Height <$>
           keptDefaults Height (extraOf Height additional)
                        defaultCheckpoints ++ extras).
Proof.
  intros Hnd Hextras.
  assert (Height <$> (map_to_list (extraOf Height additional)).*2
          = (map_to_list (extraOf Height additional)).*1) as Hkeys.
  { rewrite <- list_fmap_compose. apply list_fmap_ext.
    intros i [k c] Hin. apply list_elem_of_lookup_2 in Hin.
    apply elem_of_map_to_list in Hin.
    by destruct (extraOf_Some _ _ _ Hin) as [? _]. }
  rewrite fmap_app, Hextras, Hkeys. apply NoDup_app. split; [|split].
  - rewrite keptDefaults_filter.
    eapply sublist_NoDup; [exact Hnd|].
    apply fmap_sublist, sublist_filter.
  - intros h Hh Hh'.
    apply list_elem_of_fmap in Hh as (c & -> & Hc).
    rewrite keptDefaults_filter in Hc.
    apply list_elem_of_filter in Hc as [Hnone _].
    apply list_elem_of_fmap in Hh' as ([k c'] & Hk & Hin). cbn in Hk.
    subst k. apply elem_of_map_to_list in Hin. congruence.
  - apply NoDup_fst_map_to_list.
Qed.

(** X4. Whatever order the map and the sort take, the result of
    [MergeCheckpoints] is sorted by height and holds exactly the
    default checkpoints whose height no additional checkpoint has,
    and, for each height among the additional checkpoints, the one
    specified last. *)
Theorem MergeCheckpoints_members
        (defaultCheckpoints additional result : list Checkpoint) :
  MergeCheckpoints Height defaultCheckpoints additional result ->
  StronglySorted (fun a b => Height a <= Height b) result
  /\ forall c,
      c ∈ result
      <-> (c ∈ defaultCheckpoints
           /\ forall a, a ∈ additional -> Height a <> Height c)
          \/ last (filter (fun a => Height a = Height c) additional)
             = Some c.
Proof.
  intros [extras result' Hextras Hresult Hsorted]. split.
  - by apply sorted_le.
  - intros c. rewrite Hresult. by apply elem_of_merged.
Qed.

(** X5. When the default checkpoints have distinct heights, the result
    of [MergeCheckpoints] does not depend on the order the map and the
    sort take: it is the list [mergeCheckpoints] computes, and its
    heights are strictly increasing. *)
Theorem MergeCheckpoints_unique
        (defaultCheckpoints additional result : list Checkpoint) :
  NoDup (Height <$> defaultCheckpoints) ->
  MergeCheckpoints Height defaultCheckpoints additional result ->
  result = mergeCheckpoints Height defaultCheckpoints additional
  /\ StronglySorted (fun a b => Height a < Height b) result.
Proof.
  intros Hnd [extras result' Hextras Hresult Hsorted].
  pose proof (NoDup_merged_heights _ _ _ Hnd Hextras) as Hheights.
  rewrite <- Hresult in Hheights.
  apply sorted_le in Hsorted. split.
  - pose proof (MergeCheckpoints_mergeCheckpoints
                  defaultCheckpoints additional)
      as [extras2 result2 Hextras2 Hresult2 Hsorted2].
    apply sorted_le in Hsorted2.
    assert (result' ≡ₚ result2) as Hperm.
    { rewrite Hresult, Hresult2. apply Permutation_app_head.
      by rewrite Hextras, Hextras2. }
    eapply StronglySorted_unique_strong;
      [|exact Hsorted|exact Hsorted2|exact Hperm].
    intros x1 x2 Hx1 Hx2 H12 H21. rewrite <- Hperm in Hx2.
    cbv beta in H12, H21.
    eapply NoDup_fmap_eq; [exact Hheights|done|done|lia].
  - clear Hresult. induction Hsorted as [|x l Hl IH Hall];
      [constructor|].
    rewrite fmap_cons in Hheights.
    apply NoDup_cons in Hheights as [Hx Hnd'].
    constructor; [by apply IH|].
    apply Forall_forall. intros y Hy.
    rewrite Forall_forall in Hall. specialize (Hall y Hy).
    assert (Height x <> Height y); [|lia].
    intros Heq. apply Hx. rewrite Heq.
    apply list_elem_of_fmap. by exists y.
Qed.

End CheckpointProperties.

Section CheckpointExamples.

Import ServerUtil.

(** Checkpoints as (height, hash) pairs. *)
Lemma MergeCheckpoints_members_witness :
  let defaults := [(10, 1); (20, 2)] in
  let additional := [(20, 3); (5, 4); (20, 5)] in
  let result := [(5, 4); (10, 1); (20, 5)] in
  StronglySorted (fun a b : Z * Z => a.1 <= b.1) result
  /\ forall c,
      c ∈ result
      <-> (c ∈ defaults /\ forall a, a ∈ additional -> a.1 <> c.1)
          \/ last (filter (fun a : Z * Z => a.1 = c.1) additional)
             = Some c.
Proof.
  apply (MergeCheckpoints_members
           fst [(10, 1); (20, 2)] [(20, 3); (5, 4); (20, 5)]).
  eapply (MergeCheckpoints_intro _ _ _ _ [(5, 4); (20, 5)]).
  - vm_compute. reflexivity.
  - vm_compute. apply perm_swap.
  - repeat constructor.
Defined.

Lemma MergeCheckpoints_unique_witness :
  [(5, 4); (10, 1); (20, 5)]
  = mergeCheckpoints fst [(10, 1); (20, 2)] [(20, 3); (5, 4); (20, 5)]
  /\ StronglySorted (fun a b : Z * Z => a.1 < b.1)
                    [(5, 4); (10, 1); (20, 5)].
Proof.
  apply (MergeCheckpoints_unique
           fst [(10, 1); (20, 2)] [(20, 3); (5, 4); (20, 5)]).
  - vm_compute. repeat constructor; set_solver.
  - eapply (MergeCheckpoints_intro _ _ _ _ [(5, 4); (20, 5)]).
    + vm_compute. reflexivity.
    + vm_compute. apply perm_swap.
    + repeat constructor.
Defined.

End CheckpointExamples.

(** ** The peer handler: bounds, round trips, bans, disconnections *)

Section PeerLoopProperties.

Import Server PeerSpec PeerLoop PeerLoopSpec.

Variable SplitHostPort : string -> option (string * string).
Variable GroupKey : option NetAddress -> string.

Lemma len_nonneg {V} (m : gmap Z V) : 0 <= len m.
Proof. unfold len. lia. Qed.

Lemma len_delete_le {V} k (m : gmap Z V) : len (delete k m) <= len m.
Proof.
  unfold len. rewrite map_size_delete. destruct (m !! k); cbn; lia.
Qed.

Lemma len_insert_le {V} k v (m : gmap Z V) :
  len (<[k := v]> m) <= len m + 1.
Proof.
  unfold len. rewrite map_size_insert. destruct (m !! k); cbn; lia.
Qed.

Lemma peers_nonneg state : 0 <= peers state.
Proof.
  unfold peers.
  pose proof (len_nonneg (InboundPeers state)).
  pose proof (len_nonneg (OutboundPeers state)).
  pose proof (len_nonneg (PersistentPeers state)). lia.
Qed.

Lemma Count_peers state : peers state < 2 ^ 63 -> Count state = peers state.
Proof.
  intros Hlt. unfold Count, peers in *.
  pose proof (len_nonneg (InboundPeers state)).
  pose proof (len_nonneg (OutboundPeers state)).
  pose proof (len_nonneg (PersistentPeers state)).
  rewrite (wrap_int_id (_ + len (OutboundPeers state))) by lia.
  apply wrap_int_id. lia.
Qed.

Lemma peers_getList state state' :
  (forall l, getList l state' = getList l state) ->
  peers state' = peers state.
Proof.
  intros H. unfold peers.
  pose proof (H ListInbound) as Hi. pose proof (H ListOutbound) as Ho.
  pose proof (H ListPersistent) as Hp. cbn [getList] in Hi, Ho, Hp.
  by rewrite Hi, Ho, Hp.
Qed.

Lemma peers_setList_delete l id state :
  peers (setList l (delete id (getList l state)) state) <= peers state.
Proof.
  unfold peers. destruct l; cbn;
    pose proof (len_delete_le id (PersistentPeers state));
    pose proof (len_delete_le id (InboundPeers state));
    pose proof (len_delete_le id (OutboundPeers state)); lia.
Qed.

Lemma peers_setList_insert l id sp state :
  peers (setList l (<[id := sp]> (getList l state)) state)
  <= peers state + 1.
Proof.
  unfold peers. destruct l; cbn;
    pose proof (len_insert_le id sp (PersistentPeers state));
    pose proof (len_insert_le id sp (InboundPeers state));
    pose proof (len_insert_le id sp (OutboundPeers state)); lia.
Qed.

Lemma peers_HandleAddPeerMsg n state p now :
  let state' :=
    (HandleAddPeerMsg SplitHostPort GroupKey n state p now).1.2 in
  peers state' = peers state
  \/ (Count state < MaxPeers n /\ peers state' <= peers state + 1).
Proof.
  cbn zeta. unfold HandleAddPeerMsg.
  destruct p as [sp|]; [|by left].
  destruct (negb (Shutdown n =? 0)); [by left|].
  destruct (SplitHostPort (Addr sp)) as [[host port]|]; [|by left].
  assert (forall st : PeerState,
             Count st = Count state -> peers st = peers state ->
             let state' :=
               (if Count st >=? MaxPeers n
                then (false, st, [PeerDisconnect sp])
                else if Inbound sp
                then (true,
                      set_InboundPeers (<[ID sp := sp]> (InboundPeers st))
                                       st, [])
                else
                  let st :=
                    set_OutboundGroups
                      (incr (GroupKey (NA sp)) (OutboundGroups st)) st in
                  if Persistent sp
                  then (true,
                        set_PersistentPeers
                          (<[ID sp := sp]> (PersistentPeers st)) st, [])
                  else (true,
                        set_OutboundPeers
                          (<[ID sp := sp]> (OutboundPeers st)) st, [])).1.2
             in
             peers state' = peers state
             \/ (Count state < MaxPeers n
                 /\ peers state' <= peers state + 1)) as Hrest.
  { intros st HC HP. cbn zeta. rewrite HC.
    destruct (Z.geb_spec (Count state) (MaxPeers n)); [by left|].
    right. split; [lia|]. rewrite <- HP.
    destruct (Inbound sp); [|destruct (Persistent sp)]; cbn [fst snd].
    - apply (peers_setList_insert ListInbound).
    - apply (peers_setList_insert ListPersistent (ID sp) sp
               (set_OutboundGroups _ st)).
    - apply (peers_setList_insert ListOutbound (ID sp) sp
               (set_OutboundGroups _ st)). }
  destruct (Banned state !! host) as [banEnd|].
  - destruct (Time.Before now banEnd); [by left|].
    apply Hrest; done.
  - apply Hrest; done.
Qed.

Lemma peers_HandleDonePeerMsg state sp :
  peers (HandleDonePeerMsg GroupKey state sp).1 <= peers state.
Proof.
  unfold HandleDonePeerMsg.
  destruct (getList (donePeerList sp) state !! ID sp); cbn [fst]; [|lia].
  destruct (negb (Inbound sp) && VersionKnown sp).
  - etrans; [|apply (peers_setList_delete (donePeerList sp) (ID sp))].
    apply Z.eq_le_incl. by destruct (donePeerList sp).
  - apply peers_setList_delete.
Qed.

Lemma peers_DisconnectPeer l state Cmp m found :
  DisconnectPeer (getList l state) Cmp m found ->
  peers (setList l m state) <= peers state.
Proof.
  intros H. inversion H; subst.
  - apply peers_setList_delete.
  - apply Z.eq_le_incl. by destruct l, state.
Qed.

Lemma peers_DisconnectRepeat Cmp state state' effs :
  DisconnectRepeat GroupKey Cmp state state' effs ->
  peers state' <= peers state.
Proof.
  induction 1 as [state m sp state' effs Hd _ IH|]; [|lia].
  etrans; [exact IH|].
  apply (peers_DisconnectPeer ListOutbound state) in Hd. exact Hd.
Qed.

Lemma peers_HandleQuery state q state' effs found :
  HandleQuery GroupKey state q state' effs found ->
  peers state' <= peers state.
Proof.
  intros H. inversion H as [Cmp m sp Hd| |Cmp m sp Hd
                            |Cmp m0 m sp st' effs' _ Hd Hr| |];
    subst; try lia.
  - apply (peers_DisconnectPeer ListPersistent state) in Hd. exact Hd.
  - apply (peers_DisconnectPeer ListInbound state) in Hd. exact Hd.
  - apply peers_DisconnectRepeat in Hr. etrans; [exact Hr|].
    apply (peers_DisconnectPeer ListOutbound state) in Hd. exact Hd.
Qed.

Lemma peers_step state msg state' :
  (forall p, msg <> NewPeers p) ->
  PeerHandler_step SplitHostPort GroupKey state msg state' ->
  peers state' <= peers state.
Proof.
  intros Hmsg H. inversion H; subst.
  - by destruct (Hmsg p).
  - apply peers_HandleDonePeerMsg.
  - unfold HandleBanPeerMsg.
    destruct (SplitHostPort (Addr p)) as [[host port]|];
      unfold peers; cbn; lia.
  - by eapply peers_HandleQuery.
  - lia.
Qed.

Lemma runAt_run maxPeers state msgs state' :
  PeerHandler_runAt SplitHostPort GroupKey maxPeers state msgs state' ->
  PeerHandler_run SplitHostPort GroupKey state msgs state'.
Proof.
  induction 1; econstructor; eauto. constructor.
Qed.

Lemma peers_runAt maxPeers state msgs state' :
  maxPeers < 2 ^ 63 ->
  PeerHandler_runAt SplitHostPort GroupKey maxPeers state msgs state' ->
  peers state <= Z.max 0 maxPeers ->
  peers state' <= Z.max 0 maxPeers.
Proof.
  intros Hhi Hrun.
  induction Hrun as [|n now st p msgs st'' Hn _ IH
                     |st msg st' msgs st'' Hmsg Hstep _ IH];
    intros H0; [done| |].
  - apply IH.
    destruct (peers_HandleAddPeerMsg n st p now) as [->|[Hc Hp]];
      [done|].
    rewrite Count_peers in Hc by lia. lia.
  - apply IH. pose proof (peers_step _ _ _ Hmsg Hstep). lia.
Qed.

(** X6. Under a configuration whose [MaxPeers] stays the same, the
    peer handler never holds more peers than [MaxPeers] (none when
    [MaxPeers] is negative), whatever messages it is sent, and
    [Count] is the true number of entries of the three maps. *)
Theorem PeerHandler_keeps_MaxPeers (maxPeers : Z) (msgs : list Msg)
        (state : PeerState) :
  isInt maxPeers ->
  PeerHandler_runAt SplitHostPort GroupKey maxPeers emptyPeerState msgs
                    state ->
  Count state = peers state /\ Count state <= Z.max 0 maxPeers.
Proof.
  intros [Hlo Hhi] Hrun.
  assert (peers state <= Z.max 0 maxPeers) as Hle.
  { eapply peers_runAt; [exact Hhi|exact Hrun|].
    vm_compute peers. lia. }
  rewrite Count_peers by lia. split; [done|lia].
Qed.

End PeerLoopProperties.

Section PeerCompositions.

Import Server PeerSpec PeerLoop PeerLoopSpec.

Variable SplitHostPort : string -> option (string * string).
Variable GroupKey : option NetAddress -> string.

Lemma wrap_int_incr_decr v : wrap_int (wrap_int (v + 1) - 1) = wrap_int v.
Proof.
  unfold wrap_int.
  replace ((v + 1 + 2 ^ 63) mod 2 ^ 64 - 2 ^ 63 - 1 + 2 ^ 63)
    with ((v + 1 + 2 ^ 63) mod 2 ^ 64 - 1) by lia.
  rewrite Zminus_mod_idemp_l. f_equal. f_equal. lia.
Qed.

Lemma GetOutboundGroup_incr_decr state key g k :
  isInt (GetOutboundGroup state key) ->
  OutboundGroups g = decr key (incr key (OutboundGroups state)) ->
  GetOutboundGroup g k = GetOutboundGroup state k.
Proof.
  intros Hint Hg. unfold GetOutboundGroup in *. rewrite Hg.
  unfold decr, incr.
  destruct (decide (k = key)) as [->|Hne].
  - rewrite !lookup_insert_eq. cbn [default]. unfold id.
    rewrite wrap_int_incr_decr.
    destruct (OutboundGroups state !! key) as [v|]; cbn [default].
    + apply wrap_int_id. exact Hint.
    + done.
  - by rewrite !lookup_insert_ne.
Qed.

(** X7. A peer that [HandleAddPeerMsg] admits and [HandleDonePeerMsg]
    then takes away leaves the three peer maps as they were and every
    outbound group count reading as before, provided the peer is not
    both inbound and persistent, its identifier was free, and, for a
    peer that is not inbound, its version is known. *)
Theorem HandleAddPeerMsg_HandleDonePeerMsg
        (n : Node) (state state1 : PeerState) (sp : NodePeer)
        (now : Time.Time) (effs1 : list Effect) :
  HandleAddPeerMsg SplitHostPort GroupKey n state (Some sp) now
  = (true, state1, effs1) ->
  getList (addPeerList sp) state !! ID sp = None ->
  Inbound sp && Persistent sp = false ->
  (Inbound sp = false -> VersionKnown sp = true) ->
  isInt (GetOutboundGroup state (GroupKey (NA sp))) ->
  let '(state2, effs2) := HandleDonePeerMsg GroupKey state1 sp in
  (forall l, getList l state2 = getList l state)
  /\ (forall key, GetOutboundGroup state2 key = GetOutboundGroup state key)
  /\ Count state2 = Count state
  /\ effs2 = match ConnReq sp with
             | Some id =>
               if Inbound sp then [] else [ConnManagerDisconnect id]
             | None => []
             end.
Proof.
  intros Hadd Hfree Hkind Hver Hint.
  pose proof (HandleAddPeerMsg_cases SplitHostPort GroupKey n state sp now)
    as Hc.
  rewrite Hadd in Hc. destruct Hc as (_ & _ & Hc).
  destruct (Hc eq_refl) as (_ & Hl & Hothers & Hg). clear Hc.
  assert (donePeerList sp = addPeerList sp) as Hsame.
  { unfold donePeerList, addPeerList.
    destruct (Inbound sp), (Persistent sp); done. }
  unfold HandleDonePeerMsg. rewrite Hsame, Hl, lookup_insert_eq.
  assert (forall st,
             getList (addPeerList sp) st
             = <[ID sp := sp]> (getList (addPeerList sp) state) ->
             (forall l, l <> addPeerList sp ->
                        getList l st = getList l state) ->
             forall l,
               getList l (setList (addPeerList sp)
                            (delete (ID sp) (getList (addPeerList sp) st))
                            st)
               = getList l state) as Hlists.
  { intros st Hst Hst' l. rewrite Hst, delete_insert_eq, delete_id by done.
    rewrite getList_setList.
    destruct (decide (l = addPeerList sp)) as [->|Hne]; [done|].
    by apply Hst'. }
  assert (forall st,
             (forall l, getList l st = getList l state) ->
             Count st = Count state) as HC.
  { intros st Hst. by apply Count_samePeers. }
  destruct (Inbound sp) eqn:Hin; cbn [negb andb].
  - split_and!.
    + by apply Hlists.
    + intros key. unfold GetOutboundGroup.
      rewrite OutboundGroups_setList, Hg. done.
    + apply HC. by apply Hlists.
    + by destruct (ConnReq sp).
  - rewrite (Hver eq_refl).
    assert (forall l,
               getList l
                 (setList (addPeerList sp)
                    (delete (ID sp)
                       (getList (addPeerList sp)
                          (set_OutboundGroups
                             (decr (GroupKey (NA sp))
                                   (OutboundGroups state1)) state1)))
                    (set_OutboundGroups
                       (decr (GroupKey (NA sp)) (OutboundGroups state1))
                       state1))
               = getList l state) as Hl2.
    { apply Hlists.
      - by rewrite getList_set_OutboundGroups.
      - intros l Hne. rewrite getList_set_OutboundGroups.
        by apply Hothers. }
    split_and!.
    + exact Hl2.
    + intros key.
      apply (GetOutboundGroup_incr_decr state (GroupKey (NA sp)));
        [done|].
      rewrite OutboundGroups_setList. cbn. by rewrite Hg.
    + apply HC. exact Hl2.
    + by destruct (ConnReq sp).
Qed.

(** X8. After [HandleBanPeerMsg] has banned a host, a peer from that
    host is turned away, with nothing changed, until the ban duration
    has passed; from then on the first arrival has the ban deleted
    and is admitted exactly when there is room. *)
Theorem HandleBanPeerMsg_HandleAddPeerMsg
        (n n' : Node) (state : PeerState) (sp sp' : NodePeer)
        (now now' : Time.Time) (host port port' : string) :
  SplitHostPort (Addr sp) = Some (host, port) ->
  SplitHostPort (Addr sp') = Some (host, port') ->
  Shutdown n' = 0 ->
  let state1 := HandleBanPeerMsg SplitHostPort n state sp now in
  let '(ok, state2, effs) :=
    HandleAddPeerMsg SplitHostPort GroupKey n' state1 (Some sp') now' in
  (now' < now + BanDuration n ->
   ok = false /\ state2 = state1 /\ effs = [PeerDisconnect sp'])
  /\ (now + BanDuration n <= now' ->
      Banned state2 = delete host (Banned state)
      /\ (ok = true <-> Count state < MaxPeers n')).
Proof.
  intros Hsp Hsp' Hrun. cbn zeta.
  unfold HandleBanPeerMsg, HandleAddPeerMsg. rewrite Hsp, Hsp', Hrun.
  cbn [negb Z.eqb set_Banned Banned]. rewrite lookup_insert_eq.
  unfold Time.Before, Time.Add.
  destruct (Z.ltb_spec now' (now + BanDuration n)) as [Hlt|Hge].
  { split; [done|lia]. }
  cbn [set_Banned Banned InboundPeers OutboundPeers PersistentPeers
       OutboundGroups].
  rewrite delete_insert_eq.
  match goal with
  | |- context [Count ?st >=? _] =>
    assert (Count st = Count state) as -> by done
  end.
  destruct (Z.geb_spec (Count state) (MaxPeers n')) as [Hfull|Hroom].
  { split; [lia|]. intros _. split; [done|]. split; [done|lia]. }
  destruct (Inbound sp'); [|destruct (Persistent sp')];
    (split; [lia|]; intros _; split; [done|]; split; [lia|done]).
Qed.

Lemma len_delete_Some {V} k (v : V) (m : gmap Z V) :
  m !! k = Some v -> len (delete k m) = len m - 1.
Proof.
  intros Hk. unfold len. rewrite map_size_delete, Hk.
  assert (size m <> 0%nat).
  { apply map_size_ne_0_lookup. eauto. }
  lia.
Qed.

Lemma DisconnectRepeat_clears Cmp state state' effs :
  DisconnectRepeat GroupKey Cmp state state' effs ->
  ~ matching Cmp (OutboundPeers state')
  /\ (forall sp, PeerDisconnect sp ∈ effs -> Cmp sp = true)
  /\ InboundPeers state' = InboundPeers state
  /\ PersistentPeers state' = PersistentPeers state
  /\ peers state' + Z.of_nat (length effs) = peers state.
Proof.
  induction 1 as [state m sp state' effs Hd _ IH|state Hd].
  - destruct IH as (Hno & Hall & Hin & Hpe & Hcount).
    inversion Hd as [addr nodePeer Hlook Hcmp|]; subst.
    split_and!; [done| |done|done|].
    + intros sp' Hin'. apply elem_of_cons in Hin' as [[= ->]|Hin'];
        [done|by apply Hall].
    + rewrite length_cons, Nat2Z.inj_succ.
      assert (peers (set_OutboundPeers (delete addr (OutboundPeers state))
                                       (groupsDown GroupKey sp state))
              = peers state - 1) as Hp.
      { unfold peers. cbn. rewrite (len_delete_Some _ _ _ Hlook). lia. }
      lia.
  - inversion Hd as [|Hnone]; subst.
    split_and!; [|by intros sp Hsp; apply elem_of_nil in Hsp
                 |done|done|cbn; lia].
    intros (id & sp & Hl & Hc). rewrite (Hnone _ _ Hl) in Hc. done.
Qed.

Lemma DisconnectPeer_found_iff m Cmp m' found :
  DisconnectPeer m Cmp m' found -> is_Some found <-> matching Cmp m.
Proof.
  intros H. inversion H as [addr nodePeer Hl Hc|Hnone]; subst.
  - split; [|by eauto]. intros _. by exists addr, nodePeer.
  - split; [by intros []|].
    intros (id & sp & Hl & Hc). rewrite (Hnone _ _ Hl) in Hc. done.
Qed.


End PeerCompositions.

Section PeerLoopExamples.

Import Server PeerSpec PeerLoop PeerLoopSpec.

Lemma PeerHandler_keeps_MaxPeers_witness :
  Count afterTwoAdds = peers afterTwoAdds
  /\ Count afterTwoAdds <= Z.max 0 1.
Proof.
  apply (PeerHandler_keeps_MaxPeers
           hostOnly oneGroup 1
           [NewPeers (Some peerIn); NewPeers (Some peerOther)]).
  - unfold isInt. lia.
  - apply (runAt_NewPeers _ _ _ (mkNode 0 1 0) 0); [reflexivity|].
    apply (runAt_NewPeers _ _ _ (mkNode 0 1 0) 0); [reflexivity|].
    apply runAt_nil.
Defined.

Lemma HandleAddPeerMsg_HandleDonePeerMsg_witness :
  let state1 :=
    (HandleAddPeerMsg hostOnly oneGroup (mkNode 0 8 0) emptyPeerState
                      (Some peerOut) 0).1.2 in
  let '(state2, effs2) := HandleDonePeerMsg oneGroup state1 peerOut in
  (forall l, getList l state2 = getList l emptyPeerState)
  /\ (forall key,
         GetOutboundGroup state2 key = GetOutboundGroup emptyPeerState key)
  /\ Count state2 = Count emptyPeerState
  /\ effs2 = [ConnManagerDisconnect 7].
Proof.
  apply (HandleAddPeerMsg_HandleDonePeerMsg
           hostOnly oneGroup (mkNode 0 8 0) emptyPeerState _ peerOut 0 []).
  - reflexivity.
  - reflexivity.
  - reflexivity.
  - reflexivity.
  - vm_compute. split; congruence.
Defined.

Lemma HandleBanPeerMsg_HandleAddPeerMsg_witness :
  let state1 :=
    HandleBanPeerMsg hostOnly (mkNode 0 8 100) emptyPeerState peerIn 0 in
  let '(ok, state2, effs) :=
    HandleAddPeerMsg hostOnly oneGroup (mkNode 0 8 100) state1
                     (Some peerIn) 50 in
  (50 < 0 + 100 ->
   ok = false /\ state2 = state1 /\ effs = [PeerDisconnect peerIn])
  /\ (0 + 100 <= 50 ->
      Banned state2 = delete (Addr peerIn) (Banned emptyPeerState)
      /\ (ok = true <-> Count emptyPeerState < 8)).
Proof.
  apply (HandleBanPeerMsg_HandleAddPeerMsg
           hostOnly oneGroup (mkNode 0 8 100) (mkNode 0 8 100)
           emptyPeerState peerIn peerIn 0 50 (Addr peerIn) EmptyString
           EmptyString).
  - reflexivity.
  - reflexivity.
  - reflexivity.
Defined.

Lemma DisconnectPeer_empty Cmp : DisconnectPeer ∅ Cmp ∅ None.
Proof. apply DisconnectPeer_none. intros addr sp Hl. done. Qed.


End PeerLoopExamples.

(** ** Long polling: who is woken, and when *)

Section Waking.

Import RPC PollSpec Notify WakeSpec.

(** [NotifyLongPollers], for any [lastGenerated], the zero time
    included. *)
Lemma NotifyLongPollers_spec latest lastGenerated state h :
  wf (NotifyMap state) h ->
  exists state' h',
    NotifyLongPollers latest lastGenerated state h = Some (state', h') /\
    nextChan h' = nextChan h /\
    (forall c,
        c ∈ closedChans h' <->
        c ∈ closedChans h \/
        exists hash t,
          registered (NotifyMap state) hash t c /\
          woken latest lastGenerated hash t) /\
    (forall hash t c,
        registered (NotifyMap state') hash t c <->
        registered (NotifyMap state) hash t c /\
        ~ woken latest lastGenerated hash t) /\
    wf (NotifyMap state') h'.
Proof.
  intros Hwf. unfold NotifyLongPollers.
  set (nm := NotifyMap state) in *.
  set (u := Time.Unix lastGenerated).
  destruct (notifyStale_spec latest (map_to_list nm) nm h)
    as (nm1 & h1 & -> & Hn1 & Hcl1 & Hlk1).
  { apply NoDup_fst_map_to_list. }
  { intros hash chs t c Hin%elem_of_map_to_list Hc.
    apply (wf_open _ _ Hwf hash t). by exists chs. }
  { intros hash chs t c hash' chs' t'
           Hin%elem_of_map_to_list Hin'%elem_of_map_to_list Hc Hc'.
    apply (wf_inj _ _ Hwf hash t hash' t' c); eexists; eauto. }
  assert (forall c, c ∈ closedChans h1 <->
            c ∈ closedChans h \/
            exists hash t, registered nm hash t c /\ hash <> latest)
    as Hcl1'.
  { intros c. rewrite Hcl1. split.
    - intros [?|(hash & chs & t & Hin%elem_of_map_to_list & ? & ?)];
        [by left|].
      right. exists hash, t. split; [by exists chs|done].
    - intros [?|(hash & t & (chs & ? & ?) & ?)]; [by left|].
      right. exists hash, chs, t. by rewrite elem_of_map_to_list. }
  assert (forall k, nm1 !! k = if decide (k = latest) then nm !! k else None)
    as Hlk1'.
  { intros k. rewrite Hlk1. destruct (decide (k = latest)) as [->|Hne].
    - rewrite decide_False; [done|naive_solver].
    - destruct (nm !! k) eqn:E; [|by case_decide].
      rewrite decide_True; [done|]. split; [done|].
      apply elem_of_keys. eauto. }
  clear Hcl1 Hlk1.
  assert (nm1 !! latest = nm !! latest) as Hlatest.
  { rewrite Hlk1'. by rewrite decide_True. }
  (* What is left to show once the closed channels and the
     registrations are known. *)
  assert (forall nm2 h2,
             nextChan h2 = nextChan h ->
             (forall c,
                 c ∈ closedChans h2 <->
                 c ∈ closedChans h \/
                 exists hash t, registered nm hash t c /\
                                woken latest lastGenerated hash t) ->
             (forall hash t c,
                 registered nm2 hash t c <->
                 registered nm hash t c /\
                 ~ woken latest lastGenerated hash t) ->
             wf nm2 h2) as Hwf2.
  { intros nm2 h2 Hn2 Hclosed Hreg. constructor.
    - intros hash t c [Hr Hns]%Hreg. rewrite Hclosed.
      intros [Hc|(hash' & t' & Hr' & Hst)].
      + by apply (wf_open _ _ Hwf hash t c).
      + destruct (wf_inj _ _ Hwf hash t hash' t' c) as [-> ->]; done.
    - intros hash t hash' t' c [Hr _]%Hreg [Hr' _]%Hreg.
      by apply (wf_inj _ _ Hwf hash t hash' t' c).
    - intros hash t c [Hr _]%Hreg. rewrite Hn2.
      by apply (wf_made _ _ Hwf hash t c).
    - intros c. rewrite Hclosed, Hn2.
      intros [?|(hash & t & Hr & _)].
      + by apply (wf_closed_made _ _ Hwf).
      + by apply (wf_made _ _ Hwf hash t c). }
  (* The two early returns: only the first loop has run. *)
  assert (Time.IsZero lastGenerated = true \/ nm !! latest = None ->
          exists state' h',
            Some (set_NotifyMap nm1 state, h1) = Some (state', h') /\
            nextChan h' = nextChan h /\
            (forall c,
                c ∈ closedChans h' <->
                c ∈ closedChans h \/
                exists hash t,
                  registered nm hash t c /\
                  woken latest lastGenerated hash t) /\
            (forall hash t c,
                registered (NotifyMap state') hash t c <->
                registered nm hash t c /\
                ~ woken latest lastGenerated hash t) /\
            wf (NotifyMap state') h') as Hearly.
  { intros Hwhy.
    assert (forall hash t c,
               registered nm hash t c ->
               woken latest lastGenerated hash t <-> hash <> latest)
      as Hwoken.
    { intros hash t c (chs0 & H1 & _). unfold woken. split; [|tauto].
      intros [?|[Hnz _]]; [done|].
      destruct Hwhy as [Hz|Hnone]; congruence. }
    assert (forall hash t c,
               registered nm1 hash t c <->
               registered nm hash t c /\
               ~ woken latest lastGenerated hash t) as Hreg.
    { intros hash t c. split.
      - intros (chs0 & H1 & H2). rewrite Hlk1' in H1.
        case_decide as Hk; [|done]. subst hash.
        assert (registered nm latest t c) as Hr by (by exists chs0).
        split; [done|]. rewrite (Hwoken _ _ _ Hr). tauto.
      - intros [Hr Hns]. rewrite (Hwoken _ _ _ Hr) in Hns.
        assert (hash = latest) as ->.
        { destruct (decide (hash = latest)); [done|]. tauto. }
        destruct Hr as (chs0 & H1 & H2). exists chs0.
        by rewrite Hlatest. }
    assert (forall c,
               c ∈ closedChans h1 <->
               c ∈ closedChans h \/
               exists hash t, registered nm hash t c /\
                              woken latest lastGenerated hash t)
      as Hclosed.
    { intros c. rewrite Hcl1'. split.
      - intros [?|(hash & t & Hr & ?)]; [by left|].
        right. exists hash, t. split; [done|]. by left.
      - intros [?|(hash & t & Hr & Hst)]; [tauto|].
        right. exists hash, t. split; [done|].
        by apply (Hwoken _ _ _ Hr). }
    exists (set_NotifyMap nm1 state), h1.
    split_and!; [done|done|done|done|].
    by apply Hwf2. }
  destruct (Time.IsZero lastGenerated) eqn:Hnz; [by apply Hearly; left|].
  rewrite Hlatest.
  destruct (nm !! latest) as [chs|] eqn:Hchs; [|by apply Hearly; right].
  clear Hearly.
  destruct (notifyOlder_spec u (map_to_list chs) chs h1)
    as (chs' & h2 & -> & Hn2 & Hcl2 & Hlk2).
  { apply NoDup_fst_map_to_list. }
  { intros t c Hin%elem_of_map_to_list.
    rewrite Hcl1'. intros [Hc|(hash & t' & Hr & Hne)].
    - revert Hc. apply (wf_open _ _ Hwf latest t). by exists chs.
    - destruct (wf_inj _ _ Hwf hash t' latest t c) as [? _];
        [done|by exists chs|done]. }
  { intros t c t' c' Hin%elem_of_map_to_list Hin'%elem_of_map_to_list ->.
    destruct (wf_inj _ _ Hwf latest t latest t' c') as [_ ?];
      [by exists chs|by exists chs|done]. }
  assert (forall t, chs' !! t = if decide (t < u) then None else chs !! t)
    as Hlk2'.
  { intros t. rewrite Hlk2. destruct (decide (t < u)) as [Hlt|Hge].
    - destruct (chs !! t) eqn:E; [|by case_decide].
      rewrite decide_True; [done|]. split; [done|].
      apply elem_of_times. eauto.
    - rewrite decide_False; [done|naive_solver]. }
  clear Hlk2.
  set (nm2 := if len chs' =? 0
              then delete latest (<[latest := chs']> nm1)
              else <[latest := chs']> nm1).
  assert (forall hash t c,
             registered nm2 hash t c <->
             registered nm hash t c /\
             ~ woken latest lastGenerated hash t) as Hreg.
  { intros hash t c. unfold registered, woken, nm2.
    assert (forall chs0, (<[latest := chs']> nm1) !! hash = Some chs0 ->
                         hash = latest /\ chs0 = chs') as Hins.
    { intros chs0. destruct (decide (hash = latest)) as [->|Hne].
      - rewrite lookup_insert_eq. naive_solver.
      - rewrite lookup_insert_ne, Hlk1' by done.
        by rewrite decide_False. }
    split.
    - intros (chs0 & H1 & H2).
      assert ((<[latest := chs']> nm1) !! hash = Some chs0) as H1'.
      { destruct (len chs' =? 0); [|done].
        destruct (decide (hash = latest)) as [->|Hne].
        - by rewrite lookup_delete_eq in H1.
        - by rewrite lookup_delete_ne in H1. }
      apply Hins in H1' as [-> ->]. rewrite Hlk2' in H2.
      case_decide; [done|]. split; [by exists chs|].
      intros [?|[_ ?]]; [done|]. unfold u in *. lia.
    - intros [(chs0 & H1 & H2) Hns].
      assert (hash = latest) as ->.
      { destruct (decide (hash = latest)); [done|]. tauto. }
      assert (chs0 = chs) as -> by congruence.
      assert (chs' !! t = Some c) as Hc'.
      { rewrite Hlk2'. case_decide; [|done]. unfold u in *. tauto. }
      exists chs'. split; [|done].
      destruct (Z.eqb_spec (len chs') 0) as [Hz|_].
      + exfalso. unfold len in Hz.
        assert (size chs' = 0%nat) as Hz' by lia.
        apply map_size_empty_iff in Hz'. by rewrite Hz' in Hc'.
      + by rewrite lookup_insert_eq. }
  assert (forall c,
             c ∈ closedChans h2 <->
             c ∈ closedChans h \/
             exists hash t, registered nm hash t c /\
                            woken latest lastGenerated hash t)
    as Hclosed.
  { intros c. rewrite Hcl2, Hcl1'. unfold woken. fold u. split.
    - intros [[?|(hash & t & ? & ?)]|(t & Hin%elem_of_map_to_list & ?)].
      + by left.
      + right. exists hash, t. tauto.
      + right. exists latest, t. split; [by exists chs|tauto].
    - intros [?|(hash & t & Hr & Hst)]; [tauto|].
      destruct (decide (hash = latest)) as [->|Hne].
      + destruct Hst as [?|[_ Hlt]]; [done|]. right. exists t.
        split; [|done]. apply elem_of_map_to_list.
        destruct Hr as (chs0 & ? & ?). congruence.
      + left. right. eauto. }
  exists (set_NotifyMap nm2 state), h2.
  split; [unfold nm2; by destruct (len chs' =? 0)|].
  split; [by rewrite Hn2|]. split; [done|]. split; [done|].
  apply Hwf2; [by rewrite Hn2|done|done].
Qed.

(** X10. With the zero time for [lastGenerated], [NotifyLongPollers]
    runs to its end on a registry as the code keeps it, closes exactly
    the channels registered under a hash other than [latestHash], and
    keeps every registration under [latestHash], whatever its time. *)
Theorem NotifyLongPollers_zero_time
        (latest : Hash) (lastGenerated : Time.Time)
        (state : GBTWorkState) (h : Chans) :
  wf (NotifyMap state) h ->
  Time.IsZero lastGenerated = true ->
  exists state' h',
    NotifyLongPollers latest lastGenerated state h = Some (state', h') /\
    (forall c,
        c ∈ closedChans h' <->
        c ∈ closedChans h \/
        exists hash t,
          registered (NotifyMap state) hash t c /\ hash <> latest) /\
    (forall hash t c,
        registered (NotifyMap state') hash t c <->
        registered (NotifyMap state) hash t c /\ hash = latest) /\
    wf (NotifyMap state') h'.
Proof.
  intros Hwf Hz.
  destruct (NotifyLongPollers_spec latest lastGenerated state h Hwf)
    as (state' & h' & Hrun & _ & Hclosed & Hreg & Hwf').
  assert (forall hash t, woken latest lastGenerated hash t
                         <-> hash <> latest) as Hwoken.
  { intros hash t. unfold woken. rewrite Hz. naive_solver. }
  exists state', h'. split_and!; [done| | |done].
  - intros c. rewrite Hclosed. by setoid_rewrite Hwoken.
  - intros hash t c. rewrite Hreg, Hwoken.
    destruct (decide (hash = latest)); naive_solver.
Qed.

(** X11. The channel [TemplateUpdateChan] hands out for
    [(prevHash, lastGenerated)] is open, and a later call of
    [NotifyLongPollers] closes it exactly when it is for another hash
    or, the time given being set, for an earlier second; otherwise the
    registration stays, and asking again gives the same channel. *)
Theorem TemplateUpdateChan_NotifyLongPollers
        (ph : Hash) (lg : Z) (state : GBTWorkState) (h : Chans)
        (latest : Hash) (lastGenerated : Time.Time) :
  wf (NotifyMap state) h ->
  let '(c, state1, h1) := TemplateUpdateChan ph lg state h in
  (c ∉ closedChans h1)
  /\ exists state2 h2,
      NotifyLongPollers latest lastGenerated state1 h1
      = Some (state2, h2)
      /\ (c ∈ closedChans h2 <-> woken latest lastGenerated ph lg)
      /\ (~ woken latest lastGenerated ph lg ->
          TemplateUpdateChan ph lg state2 h2 = (c, state2, h2)).
Proof.
  intros Hwf.
  pose proof (wf_TemplateUpdateChan ph lg state h Hwf) as Hwf1.
  destruct (TemplateUpdateChan ph lg state h) as [[c state1] h1] eqn:E.
  cbn [fst snd] in Hwf1.
  assert (registered (NotifyMap state1) ph lg c) as Hr.
  { destruct (TemplateUpdateChan_cases _ _ _ _ _ _ _ E)
      as [(Hr & -> & _)|(_ & _ & _ & Hreg)]; [done|].
    apply Hreg. by right. }
  assert (c ∉ closedChans h1) as Hopen
      by apply (wf_open _ _ Hwf1 ph lg c Hr).
  split; [done|].
  destruct (NotifyLongPollers_spec latest lastGenerated state1 h1 Hwf1)
    as (state2 & h2 & Hrun & _ & Hclosed & Hreg & _).
  exists state2, h2. split_and!; [done| |].
  - rewrite Hclosed. split.
    + intros [?|(hash & t & Hr' & Hw)]; [done|].
      by destruct (wf_inj _ _ Hwf1 hash t ph lg c Hr' Hr) as [<- <-].
    + intros Hw. right. by exists ph, lg.
  - intros Hnw. apply TemplateUpdateChan_hit. by apply Hreg.
Qed.


(** X13. [NotifyMempoolTx] does nothing before a template has been
    generated and in the sixty seconds after the last generation.
    After them it wakes exactly the long pollers registered under a
    hash other than the current [prevHash] or, [lastUpdated] being
    set, for a second before that of [lastUpdated]. It never closes a
    channel twice, and leaves the registry as the code keeps it. *)
Theorem NotifyMempoolTx_wakes
        (lastUpdated now : Time.Time) (state : GBTWorkState) (h : Chans) :
  wf (NotifyMap state) h ->
  exists state' h',
    NotifyMempoolTx lastUpdated now state h = Some (state', h')
    /\ wf (NotifyMap state') h'
    /\ (prevHash state = None
        \/ Time.IsZero (LastGenerated state) = true
        \/ now <= LastGenerated state
                  + Time.Second * GBTRegenerateSeconds ->
        state' = state /\ h' = h)
    /\ (forall ph,
           prevHash state = Some ph ->
           Time.IsZero (LastGenerated state) = false ->
           LastGenerated state + Time.Second * GBTRegenerateSeconds < now ->
           forall c,
             c ∈ closedChans h' <->
             c ∈ closedChans h \/
             exists hash t,
               registered (NotifyMap state) hash t c /\
               woken ph lastUpdated hash t).
Proof.
  intros Hwf. unfold NotifyMempoolTx.
  destruct (prevHash state) as [ph|] eqn:Hph.
  2:{ exists state, h. split_and!; [done|done|done|]. by intros ? [=]. }
  destruct (Time.IsZero (LastGenerated state)) eqn:Hz.
  { exists state, h. split_and!; [done|done|done|done]. }
  unfold Time.After, Time.Add.
  destruct (Z.ltb_spec (LastGenerated state
                        + Time.Second * GBTRegenerateSeconds) now)
    as [Hlt|Hge].
  2:{ exists state, h. split_and!; [done|done|done|]. intros ? _ _ ?. lia. }
  destruct (NotifyLongPollers_spec ph lastUpdated state h Hwf)
    as (state' & h' & Hrun & _ & Hclosed & Hreg & Hwf').
  exists state', h'. split_and!; [done|done| |].
  - intros [?|[?|?]]; [done|done|lia].
  - intros ph' [= <-] _ _ c. apply Hclosed.
Qed.

End Waking.

Section WakingExamples.

Import RPC PollSpec Notify WakeSpec.

Lemma wf_pollers : wf (NotifyMap pollers.1) pollers.2.
Proof. apply (wf_registerAll _ freshState (mkChans 0%nat ∅)), wf_empty. Qed.

Lemma NotifyLongPollers_zero_time_witness :
  exists state' h',
    NotifyLongPollers (hashOf Byte.x0a) Time.zero pollers.1 pollers.2
    = Some (state', h') /\
    (forall c,
        c ∈ closedChans h' <->
        c ∈ closedChans pollers.2 \/
        exists hash t,
          registered (NotifyMap pollers.1) hash t c /\
          hash <> hashOf Byte.x0a) /\
    (forall hash t c,
        registered (NotifyMap state') hash t c <->
        registered (NotifyMap pollers.1) hash t c /\
        hash = hashOf Byte.x0a) /\
    wf (NotifyMap state') h'.
Proof.
  apply NotifyLongPollers_zero_time.
  - apply wf_pollers.
  - reflexivity.
Defined.

Lemma TemplateUpdateChan_NotifyLongPollers_witness :
  let '(c, state1, h1) :=
    TemplateUpdateChan (hashOf Byte.x0a) 5 pollers.1 pollers.2 in
  (c ∉ closedChans h1)
  /\ exists state2 h2,
      NotifyLongPollers (hashOf Byte.x0a) (6 * Time.Second) state1 h1
      = Some (state2, h2)
      /\ (c ∈ closedChans h2
          <-> woken (hashOf Byte.x0a) (6 * Time.Second)
                    (hashOf Byte.x0a) 5)
      /\ (~ woken (hashOf Byte.x0a) (6 * Time.Second)
                  (hashOf Byte.x0a) 5 ->
          TemplateUpdateChan (hashOf Byte.x0a) 5 state2 h2
          = (c, state2, h2)).
Proof.
  apply (TemplateUpdateChan_NotifyLongPollers
           (hashOf Byte.x0a) 5 pollers.1 pollers.2
           (hashOf Byte.x0a) (6 * Time.Second)).
  apply wf_pollers.
Defined.


Lemma NotifyMempoolTx_wakes_witness :
  exists state' h',
    NotifyMempoolTx (6 * Time.Second) (70 * Time.Second) waiting0
                    pollers.2 = Some (state', h')
    /\ wf (NotifyMap state') h'
    /\ (prevHash waiting0 = None
        \/ Time.IsZero (LastGenerated waiting0) = true
        \/ 70 * Time.Second
           <= LastGenerated waiting0
              + Time.Second * GBTRegenerateSeconds ->
        state' = waiting0 /\ h' = pollers.2)
    /\ (forall ph,
           prevHash waiting0 = Some ph ->
           Time.IsZero (LastGenerated waiting0) = false ->
           LastGenerated waiting0 + Time.Second * GBTRegenerateSeconds
           < 70 * Time.Second ->
           forall c,
             c ∈ closedChans h' <->
             c ∈ closedChans pollers.2 \/
             exists hash t,
               registered (NotifyMap waiting0) hash t c /\
               woken ph (6 * Time.Second) hash t).
Proof.
  apply (NotifyMempoolTx_wakes (6 * Time.Second) (70 * Time.Second)
                               waiting0 pollers.2).
  apply wf_pollers.
Defined.

(** What the call of the last witness comes to: the template is of
    second 7, sixty-three seconds have passed, and the pollers of
    second 5 and of the other hash are woken. *)
Example NotifyMempoolTx_waiting0 :
  NotifyMempoolTx (6 * Time.Second) (70 * Time.Second) waiting0 pollers.2
  = Some (set_NotifyMap {[hashOf Byte.x0a := {[7 := 1%nat]}]} generated0,
          mkChans 3%nat {[0%nat; 2%nat]}).
Proof. vm_compute. reflexivity. Qed.

End WakingExamples.

(** ** Template updates and getblocktemplate requests *)

Section TemplateUpdates.

Import RPC PollSpec Notify WakeSpec GBT GBTSpec.

Lemma pickMiningAddr_Some s :
  randInRange s -> ActiveMiningAddrs s <> [] -> is_Some (pickMiningAddr s).
Proof.
  intros Hrand Hne. unfold pickMiningAddr.
  destruct (ActiveMiningAddrs s) as [|a addrs] eqn:E; [done|].
  destruct (Hrand (Z.of_nat (length (a :: addrs)))) as [H0 Hlt];
    [cbn [length]; lia|].
  destruct (Z.leb_spec 0 (randIntn s (Z.of_nat (length (a :: addrs)))));
    [|lia].
  apply lookup_lt_is_Some. lia.
Qed.

Lemma UpdateBlockTemplate_regenerate s useCoinbaseValue state h :
  wf (NotifyMap state) h ->
  regenerates s state = true ->
  useCoinbaseValue = true \/ is_Some (pickMiningAddr s) ->
  exists payAddr,
    (payAddr = if useCoinbaseValue then None else pickMiningAddr s) /\
    match NewBlockTemplate s payAddr with
    | inl err =>
      UpdateBlockTemplate s useCoinbaseValue state h
      = Some (Some (ErrRPCInternal
                      ("(rpcserver.go) Failed to create new block template: "
                         ++ err) ""),
              mkGBTWorkState (Template state) None (LastGenerated state)
                             (LastTxUpdate state) (MinTimestamp state)
                             (NotifyMap state), h)
    | inr tpl =>
      exists state1 h1,
        UpdateBlockTemplate s useCoinbaseValue state h
        = Some (None, state1, h1) /\
        Template state1 = Some tpl /\
        prevHash state1 = Some (BestSnapshotHash s) /\
        LastGenerated state1 = nowGenerated s /\
        MinTimestamp state1 = MinimumMedianTime s /\
        nextChan h1 = nextChan h /\
        (forall c,
            c ∈ closedChans h1 <->
            c ∈ closedChans h \/
            exists hash t,
              registered (NotifyMap state) hash t c /\
              woken (BestSnapshotHash s) (LastTxUpdate state1) hash t) /\
        (forall hash t c,
            registered (NotifyMap state1) hash t c <->
            registered (NotifyMap state) hash t c /\
            ~ woken (BestSnapshotHash s) (LastTxUpdate state1) hash t) /\
        wf (NotifyMap state1) h1
    end.
Proof.
  intros Hwf Hregen Hpay. unfold UpdateBlockTemplate.
  set (regenerate := match Template state, prevHash state with
                     | None, _ => true
                     | _, None => true
                     | Some _, Some ph => _
                     end).
  assert (regenerate = true) as -> by exact Hregen.
  assert (exists payAddr,
             (payAddr = if useCoinbaseValue then None
                        else pickMiningAddr s) /\
             (if useCoinbaseValue then Some None
              else match pickMiningAddr s with
                   | Some a => Some (Some a)
                   | None => None
                   end) = Some payAddr) as (payAddr & Hp & ->).
  { destruct useCoinbaseValue; [by exists None|].
    destruct Hpay as [?|[a Ha]]; [done|]. rewrite Ha. by exists (Some a). }
  exists payAddr. split; [done|].
  destruct (NewBlockTemplate s payAddr) as [err|tpl]; [done|].
  cbv zeta. cbn [NotifyMap].
  set (lastTxUpdate := if Time.IsZero (TxSourceLastUpdated s)
                       then nowTxUpdate s else TxSourceLastUpdated s).
  set (st := mkGBTWorkState (Some tpl) (Some (BestSnapshotHash s))
                            (nowGenerated s) lastTxUpdate
                            (MinimumMedianTime s) (NotifyMap state)).
  destruct (NotifyLongPollers_spec (BestSnapshotHash s) lastTxUpdate st h
                                   Hwf)
    as (state1 & h1 & Hrun & Hn & Hclosed & Hreg & Hwf1).
  rewrite Hrun. exists state1, h1.
  destruct (NotifyLongPollers_fields _ _ _ _ _ _ Hrun) as (Ht & Hph & Hlg).
  assert (LastTxUpdate state1 = lastTxUpdate
          /\ MinTimestamp state1 = MinimumMedianTime s) as [Hlt Hmin].
  { revert Hrun. unfold NotifyLongPollers.
    destruct (notifyStale _ _ _ _) as [[nm h0]|]; [|done].
    destruct (Time.IsZero lastTxUpdate); [by intros [= <- <-]|].
    destruct (nm !! BestSnapshotHash s) as [chs|]; [|by intros [= <- <-]].
    destruct (notifyOlder _ _ _ _) as [[chs' h2]|]; [|done].
    destruct (len chs' =? 0); by intros [= <- <-]. }
  rewrite Hlt. split_and!; done.
Qed.

Lemma UpdateBlockTemplate_refresh s useCoinbaseValue state h :
  regenerates s state = false ->
  useCoinbaseValue = true \/ is_Some (pickMiningAddr s) ->
  exists err state1,
    UpdateBlockTemplate s useCoinbaseValue state h = Some (err, state1, h)
    /\ prevHash state1 = prevHash state
    /\ LastGenerated state1 = LastGenerated state
    /\ NotifyMap state1 = NotifyMap state
    /\ is_Some (Template state1) /\ is_Some (prevHash state1)
    /\ (err = None ->
        exists template, Template state1 = Some template
                         /\ Nonce template = 0)
    /\ (is_Some err -> state1 = state).
Proof.
  intros Hregen Hpay. unfold UpdateBlockTemplate.
  set (regenerate := match Template state, prevHash state with
                     | None, _ => true
                     | _, None => true
                     | Some _, Some ph => _
                     end).
  assert (regenerate = false) as -> by exact Hregen.
  unfold regenerates in Hregen.
  destruct (Template state) as [tpl|] eqn:Ht; [|done].
  destruct (prevHash state) as [ph|] eqn:Hph; [|done].
  destruct (negb useCoinbaseValue && negb (ValidPayAddress tpl)) eqn:Hneed.
  - destruct Hpay as [->|[a Ha]]; [done|]. rewrite Ha.
    destruct (PayToAddrScript s a) as [err|pkScript].
    + eexists _, _. split; [done|].
      rewrite Ht, Hph. split_and!; eauto. done.
    + eexists _, _. split; [done|]. cbn.
      split_and!; eauto. done.
  - eexists _, _. split; [done|]. cbn.
    split_and!; eauto. done.
Qed.

Lemma UpdateBlockTemplate_total s useCoinbaseValue state h :
  wf (NotifyMap state) h ->
  useCoinbaseValue = true \/ is_Some (pickMiningAddr s) ->
  exists err state1 h1,
    UpdateBlockTemplate s useCoinbaseValue state h
    = Some (err, state1, h1)
    /\ wf (NotifyMap state1) h1
    /\ (is_Some err -> NotifyMap state1 = NotifyMap state /\ h1 = h)
    /\ (err = None ->
        is_Some (Template state1) /\ is_Some (prevHash state1)).
Proof.
  intros Hwf Hpay.
  destruct (regenerates s state) eqn:Hregen.
  - destruct (UpdateBlockTemplate_regenerate s useCoinbaseValue state h
                                             Hwf Hregen Hpay)
      as (payAddr & _ & Hcase).
    destruct (NewBlockTemplate s payAddr) as [err|tpl].
    + eexists _, _, _. split; [exact Hcase|]. cbn.
      split_and!; [done|done|done].
    + destruct Hcase as (state1 & h1 & Hrun & Ht & Hp & _ & _ & _ & _ & _
                         & Hwf1).
      exists None, state1, h1. split_and!; [done|done|by intros []|].
      intros _. rewrite Ht, Hp. eauto.
  - destruct (UpdateBlockTemplate_refresh s useCoinbaseValue state h
                                          Hregen Hpay)
      as (err & state1 & Hrun & _ & _ & Hnm & Ht & Hp & _ & _).
    exists err, state1, h. split_and!; [done|by rewrite Hnm|done|done].
Qed.

Lemma regenerates_new_tip s state :
  prevHash state <> Some (BestSnapshotHash s) -> regenerates s state = true.
Proof.
  intros Hne. unfold regenerates.
  destruct (Template state); [|done].
  destruct (prevHash state) as [ph|]; [|done].
  rewrite bool_decide_eq_false_2; [done|]. congruence.
Qed.

(** X14. When the best block is not the one the work state was made
    for (or nothing was made yet) and the generator succeeds,
    [UpdateBlockTemplate] installs the generator's template with
    [prevHash] the new best hash and [LastGenerated] the time of
    generation; every long poller registered under another hash has
    its channel closed and its registration removed, no registration
    under another hash is left, and the registry is as the code keeps
    it. *)
Theorem UpdateBlockTemplate_new_tip
        (s : Server) (useCoinbaseValue : bool) (state : GBTWorkState)
        (h : Chans) (tpl : BlockTemplate) :
  wf (NotifyMap state) h ->
  prevHash state <> Some (BestSnapshotHash s) ->
  useCoinbaseValue = true \/ is_Some (pickMiningAddr s) ->
  NewBlockTemplate s (if useCoinbaseValue then None else pickMiningAddr s)
  = inr tpl ->
  exists state1 h1,
    UpdateBlockTemplate s useCoinbaseValue state h
    = Some (None, state1, h1)
    /\ Template state1 = Some tpl
    /\ prevHash state1 = Some (BestSnapshotHash s)
    /\ LastGenerated state1 = nowGenerated s
    /\ (forall hash t c,
           registered (NotifyMap state) hash t c ->
           hash <> BestSnapshotHash s ->
           c ∈ closedChans h1
           /\ ~ registered (NotifyMap state1) hash t c)
    /\ (forall hash t c,
           registered (NotifyMap state1) hash t c ->
           hash = BestSnapshotHash s
           /\ registered (NotifyMap state) hash t c)
    /\ wf (NotifyMap state1) h1.
Proof.
  intros Hwf Hne Hpay Hnew.
  destruct (UpdateBlockTemplate_regenerate
              s useCoinbaseValue state h Hwf
              (regenerates_new_tip _ _ Hne) Hpay)
    as (payAddr & -> & Hcase).
  rewrite Hnew in Hcase.
  destruct Hcase as (state1 & h1 & Hrun & Ht & Hp & Hlg & _ & _ & Hclosed
                     & Hreg & Hwf1).
  exists state1, h1. split_and!; [done|done|done|done| | |done].
  - intros hash t c Hr Hhash. split.
    + apply Hclosed. right. exists hash, t. split; [done|]. by left.
    + intros [_ Hnw]%Hreg. apply Hnw. by left.
  - intros hash t c [Hr Hnw]%Hreg. split; [|done].
    destruct (decide (hash = BestSnapshotHash s)); [done|].
    destruct Hnw. by left.
Qed.

(** X15. When a new template is due and the generator fails,
    [UpdateBlockTemplate] returns the error with [prevHash] reset and
    nothing else changed, no long poller woken; whatever the tip and
    the clock are at the next call, that call asks the generator
    again rather than refresh the old template. *)
Theorem UpdateBlockTemplate_failure_retries
        (s s' : Server) (useCoinbaseValue useCoinbaseValue' : bool)
        (state : GBTWorkState) (h : Chans) (err : string)
        (tpl : BlockTemplate) :
  regenerates s state = true ->
  useCoinbaseValue = true \/ is_Some (pickMiningAddr s) ->
  NewBlockTemplate s (if useCoinbaseValue then None else pickMiningAddr s)
  = inl err ->
  wf (NotifyMap state) h ->
  useCoinbaseValue' = true \/ is_Some (pickMiningAddr s') ->
  NewBlockTemplate s' (if useCoinbaseValue' then None
                       else pickMiningAddr s') = inr tpl ->
  exists e state1,
    UpdateBlockTemplate s useCoinbaseValue state h
    = Some (Some e, state1, h)
    /\ prevHash state1 = None
    /\ Template state1 = Template state
    /\ NotifyMap state1 = NotifyMap state
    /\ exists state2 h2,
        UpdateBlockTemplate s' useCoinbaseValue' state1 h
        = Some (None, state2, h2)
        /\ Template state2 = Some tpl
        /\ prevHash state2 = Some (BestSnapshotHash s').
Proof.
  intros Hregen Hpay Hfail Hwf Hpay' Hnew.
  destruct (UpdateBlockTemplate_regenerate
              s useCoinbaseValue state h Hwf Hregen Hpay)
    as (payAddr & -> & Hcase).
  rewrite Hfail in Hcase.
  eexists _, _. split; [exact Hcase|]. cbn [prevHash Template NotifyMap].
  split_and!; [done|done|done|].
  set (state1 := mkGBTWorkState _ _ _ _ _ _).
  destruct (UpdateBlockTemplate_regenerate
              s' useCoinbaseValue' state1 h Hwf
              (regenerates_new_tip s' state1 ltac:(done)) Hpay')
    as (payAddr' & -> & Hcase').
  rewrite Hnew in Hcase'.
  destruct Hcase' as (state2 & h2 & Hrun & Ht & Hp & _).
  by exists state2, h2.
Qed.

Lemma UpdateBlockTemplate_refresh_state
      s useCoinbaseValue state h tpl :
  Template state = Some tpl ->
  prevHash state = Some (BestSnapshotHash s) ->
  LastTxUpdate state
  = (if Time.IsZero (TxSourceLastUpdated s) then nowTxUpdate s
     else TxSourceLastUpdated s)
  \/ nowRegenerate s
     <= LastGenerated state + Time.Second * GBTRegenerateSeconds ->
  useCoinbaseValue = true \/ ValidPayAddress tpl = true
  \/ (exists a pkScript, pickMiningAddr s = Some a
                         /\ PayToAddrScript s a = inr pkScript) ->
  exists state1 tpl',
    UpdateBlockTemplate s useCoinbaseValue state h
    = Some (None, state1, h)
    /\ Template state1
       = Some (mkBlockTemplate
                 (PrevBlock (UpdateBlockTime s tpl'))
                 (Timestamp (UpdateBlockTime s tpl'))
                 (Bits (UpdateBlockTime s tpl')) 0
                 (MerkleRoot (UpdateBlockTime s tpl'))
                 (CoinbasePkScript (UpdateBlockTime s tpl'))
                 (ValidPayAddress (UpdateBlockTime s tpl')))
    /\ PrevBlock tpl' = PrevBlock tpl
    /\ prevHash state1 = prevHash state
    /\ LastGenerated state1 = LastGenerated state
    /\ NotifyMap state1 = NotifyMap state.
Proof.
  intros Ht Hp Hsame Hpay.
  assert (regenerates s state = false) as Hregen.
  { unfold regenerates. rewrite Ht, Hp.
    rewrite bool_decide_eq_true_2 by done. cbn [negb orb].
    destruct Hsame as [->|Hle].
    - by rewrite Z.eqb_refl.
    - rewrite andb_false_iff. right. unfold Time.After, Time.Add.
      apply Z.ltb_ge. exact Hle. }
  unfold UpdateBlockTemplate.
  set (regenerate := match Template state, prevHash state with
                     | None, _ => true
                     | _, None => true
                     | Some _, Some ph => _
                     end).
  assert (regenerate = false) as -> by exact Hregen.
  rewrite Ht.
  destruct (negb useCoinbaseValue && negb (ValidPayAddress tpl)) eqn:Hneed.
  - apply andb_true_iff in Hneed as [Hu Hv].
    apply negb_true_iff in Hu, Hv.
    destruct Hpay as [?|[?|(a & pkScript & Ha & Hs)]]; [congruence..|].
    rewrite Ha, Hs. eexists _, _. split; [done|]. cbn. done.
  - eexists _, _. split; [done|]. cbn. done.
Qed.

(** X16. While the tip is the one the template was made for and
    either the mempool has not changed or sixty seconds have not
    passed since the generation, [UpdateBlockTemplate] only refreshes
    the template: [prevHash], [LastGenerated] and the registry stay
    (so does the long-poll identifier), no channel is made or closed,
    and the nonce of the template is zero again. *)
Theorem UpdateBlockTemplate_refresh_keeps
        (s : Server) (useCoinbaseValue : bool) (state : GBTWorkState)
        (h : Chans) (tpl : BlockTemplate) :
  Template state = Some tpl ->
  prevHash state = Some (BestSnapshotHash s) ->
  LastTxUpdate state
  = (if Time.IsZero (TxSourceLastUpdated s) then nowTxUpdate s
     else TxSourceLastUpdated s)
  \/ nowRegenerate s
     <= LastGenerated state + Time.Second * GBTRegenerateSeconds ->
  useCoinbaseValue = true \/ ValidPayAddress tpl = true
  \/ (exists a pkScript, pickMiningAddr s = Some a
                         /\ PayToAddrScript s a = inr pkScript) ->
  exists state1 template,
    UpdateBlockTemplate s useCoinbaseValue state h
    = Some (None, state1, h)
    /\ Template state1 = Some template
    /\ Nonce template = 0
    /\ prevHash state1 = prevHash state
    /\ LastGenerated state1 = LastGenerated state
    /\ NotifyMap state1 = NotifyMap state.
Proof.
  intros Ht Hp Hsame Hpay.
  destruct (UpdateBlockTemplate_refresh_state
              s useCoinbaseValue state h tpl Ht Hp Hsame Hpay)
    as (state1 & tpl' & Hrun & Ht1 & _ & Hp1 & Hlg & Hnm).
  eexists state1, _. split_and!; [done|exact Ht1|done|done|done|done].
Qed.

Lemma capabilityFlags_spec capabilities :
  capabilityFlags capabilities
  = (bool_decide ("coinbasevalue"%string ∈ capabilities),
     bool_decide ("coinbasetxn"%string ∈ capabilities)).
Proof.
  unfold capabilityFlags.
  assert (forall v t,
             foldl (fun '(hasCoinbaseValue, hasCoinbaseTxn) capability =>
                      if String.eqb capability "coinbasetxn"
                      then (hasCoinbaseValue, true)
                      else if String.eqb capability "coinbasevalue"
                      then (true, hasCoinbaseTxn)
                      else (hasCoinbaseValue, hasCoinbaseTxn))
                   (v, t) capabilities
             = (v || bool_decide ("coinbasevalue"%string ∈ capabilities),
                t || bool_decide ("coinbasetxn"%string ∈ capabilities)))
    as H.
  { induction capabilities as [|c cs IH]; intros v t.
    - cbn. by rewrite !orb_false_r.
    - cbn [foldl].
      destruct (String.eqb_spec c "coinbasetxn") as [->|Ht].
      + rewrite IH. f_equal.
        * f_equal. apply bool_decide_ext. rewrite elem_of_cons.
          naive_solver.
        * rewrite (bool_decide_eq_true_2
                     ("coinbasetxn"%string ∈ "coinbasetxn"%string :: cs))
            by left.
          by rewrite orb_true_r.
      + destruct (String.eqb_spec c "coinbasevalue") as [->|Hv].
        * rewrite IH. f_equal.
          -- rewrite (bool_decide_eq_true_2
                        ("coinbasevalue"%string
                           ∈ "coinbasevalue"%string :: cs)) by left.
             by rewrite orb_true_r.
          -- f_equal. apply bool_decide_ext. rewrite elem_of_cons.
             naive_solver.
        * rewrite IH. f_equal; f_equal; apply bool_decide_ext;
            rewrite elem_of_cons; naive_solver. }
  apply H.
Qed.

Lemma useCoinbaseValueOf_false request :
  useCoinbaseValueOf request = false <-> wantsCoinbaseTxn request.
Proof.
  unfold useCoinbaseValueOf, wantsCoinbaseTxn.
  destruct request as [r|]; [|split; [done|by intros (? & ? & _)]].
  rewrite capabilityFlags_spec.
  destruct (bool_decide_reflect
              ("coinbasetxn"%string ∈ TemplateRequest.Capabilities r))
    as [Ht|Ht];
    destruct (bool_decide_reflect
                ("coinbasevalue"%string ∈ TemplateRequest.Capabilities r))
    as [Hv|Hv]; cbn; split; try done;
    try (intros (r' & [= <-] & ? & ?); done).
  intros _. by exists r.
Qed.

Lemma HandleGetBlockTemplateLongPoll_total
      s longPollID useCoinbaseValue state h :
  wf (NotifyMap state) h ->
  useCoinbaseValue = true \/ is_Some (pickMiningAddr s) ->
  exists out state1 h1,
    HandleGetBlockTemplateLongPoll s longPollID useCoinbaseValue state h
    = Some (out, state1, h1)
    /\ wf (NotifyMap state1) h1.
Proof.
  intros Hwf Hpay. unfold HandleGetBlockTemplateLongPoll.
  destruct (UpdateBlockTemplate_total s useCoinbaseValue state h Hwf Hpay)
    as (err & state1 & h1 & -> & Hwf1 & _ & Hok).
  destruct err as [err|]; [by eexists _, _, _|].
  destruct (Hok eq_refl) as [[tpl Ht] Hp].
  destruct (DecodeTemplateID longPollID) as [[ph lg]|].
  - rewrite Ht.
    destruct (negb (bool_decide (ph = PrevBlock tpl))
              || negb (lg =? Time.Unix (LastGenerated state1))).
    + destruct (BlockTemplateResult_submitOld
                  s useCoinbaseValue
                  (Some (bool_decide (ph = PrevBlock tpl))) state1 tpl
                  Ht Hp) as (r & -> & _).
      by eexists _, _, _.
    + pose proof (wf_TemplateUpdateChan
                    ph lg state1 h1 Hwf1) as Hwf2.
      destruct (TemplateUpdateChan ph lg state1 h1) as [[c state2] h2].
      by eexists _, _, _.
  - destruct (BlockTemplateResult_submitOld
                s useCoinbaseValue None state1 tpl Ht Hp) as (r & -> & _).
    by eexists _, _, _.
Qed.

(** X17. On a registry as the code keeps it, with a network name that
    is not empty and [rand.Intn] within its range,
    [HandleGetBlockTemplateRequest] never panics: in particular it
    never picks a mining address from an empty list. It refuses for
    want of mining addresses exactly when the request asks for the
    coinbase transaction without accepting the coinbase value and no
    address is configured; a refusal changes neither the work state
    nor the channels; and the registry stays as the code keeps it. *)
Theorem HandleGetBlockTemplateRequest_total
        (s : Server) (env : Env) (request : option TemplateRequest.t)
        (state : GBTWorkState) (h : Chans) :
  wf (NotifyMap state) h ->
  Network env <> EmptyString ->
  randInRange s ->
  exists reply state1 h1,
    HandleGetBlockTemplateRequest s env request state h
    = Some (reply, state1, h1)
    /\ wf (NotifyMap state1) h1
    /\ (forall err, reply = Refused err -> state1 = state /\ h1 = h)
    /\ (reply = Refused ErrNoMiningAddrs
        <-> wantsCoinbaseTxn request /\ ActiveMiningAddrs s = []).
Proof.
  intros Hwf Hnet Hrand. unfold HandleGetBlockTemplateRequest.
  pose proof (useCoinbaseValueOf_false request) as Huse.
  destruct (useCoinbaseValueOf request) eqn:Hu; cbn [negb andb].
  - assert (~ wantsCoinbaseTxn request) as Hnot
        by (intros Hw; by apply Huse in Hw).
    assert (forall reply,
               (exists out, reply = Handled out)
               \/ reply = Refused ErrRPCClientNotConnected
               \/ reply = Refused ErrRPCClientInInitialDownload ->
               reply = Refused ErrNoMiningAddrs
               <-> wantsCoinbaseTxn request /\ ActiveMiningAddrs s = [])
      as Hiff.
    { intros reply Hr. split; [|tauto].
      intros ->. destruct Hr as [[out ?]|[?|?]]; done. }
    destruct (Network env) as [|netwk rest]; [done|].
    destruct (negb (Ascii.eqb netwk "r" || Ascii.eqb netwk "s")
              && (ConnectedCount env =? 0)).
    { eexists _, _, _. split; [done|].
      split_and!; [done|done|apply Hiff; auto]. }
    destruct (negb (BestHeight env =? 0) && negb (IsCurrent env)).
    { eexists _, _, _. split; [done|].
      split_and!; [done|done|apply Hiff; auto]. }
    assert (exists reply state1 h1,
               match UpdateBlockTemplate s true state h with
               | Some (Some err, state0, h0) =>
                 Some (Handled (Failed err), state0, h0)
               | Some (None, state0, h0) =>
                 match BlockTemplateResult s true None state0 with
                 | Some r => Some (Handled (replyOf r), state0, h0)
                 | None => None
                 end
               | None => None
               end = Some (reply, state1, h1)
               /\ wf (NotifyMap state1) h1
               /\ (forall err, reply = Refused err ->
                               state1 = state /\ h1 = h)
               /\ (reply = Refused ErrNoMiningAddrs
                   <-> wantsCoinbaseTxn request
                       /\ ActiveMiningAddrs s = [])) as Hregular.
    { destruct (UpdateBlockTemplate_total s true state h Hwf
                                          (or_introl eq_refl))
        as (err & state1 & h1 & -> & Hwf1 & _ & Hok).
      destruct err as [err|].
      - eexists _, _, _. split; [done|].
        split_and!; [done|done|apply Hiff; eauto].
      - destruct (Hok eq_refl) as [[tpl Ht] Hp].
        destruct (BlockTemplateResult_submitOld
                    s true None state1 tpl Ht Hp) as (r & -> & _).
        eexists _, _, _. split; [done|].
        split_and!; [done|done|apply Hiff; eauto]. }
    destruct request as [r|]; [|exact Hregular].
    destruct (negb (String.eqb (TemplateRequest.LongPollID r) ""));
      [|exact Hregular].
    destruct (HandleGetBlockTemplateLongPoll_total
                s (TemplateRequest.LongPollID r) true state h Hwf
                (or_introl eq_refl))
      as (out & state1 & h1 & -> & Hwf1).
    eexists _, _, _. split; [done|].
    split_and!; [done|done|apply Hiff; eauto].
  - assert (wantsCoinbaseTxn request) as Hw by (by apply Huse).
    destruct (Z.eqb_spec (Z.of_nat (length (ActiveMiningAddrs s))) 0)
      as [Hz|Hnz].
    { assert (ActiveMiningAddrs s = []) as Hnil
          by (destruct (ActiveMiningAddrs s); [done|cbn in Hz; lia]).
      eexists _, _, _. split; [done|]. split_and!; done. }
    assert (ActiveMiningAddrs s <> []) as Hne
        by (intros E; rewrite E in Hnz; done).
    pose proof (pickMiningAddr_Some s Hrand Hne) as Hpick.
    assert (forall reply,
               (exists out, reply = Handled out)
               \/ reply = Refused ErrRPCClientNotConnected
               \/ reply = Refused ErrRPCClientInInitialDownload ->
               reply = Refused ErrNoMiningAddrs
               <-> wantsCoinbaseTxn request /\ ActiveMiningAddrs s = [])
      as Hiff.
    { intros reply Hr. split; [|tauto].
      intros ->. destruct Hr as [[out ?]|[?|?]]; done. }
    destruct (Network env) as [|netwk rest]; [done|].
    destruct (negb (Ascii.eqb netwk "r" || Ascii.eqb netwk "s")
              && (ConnectedCount env =? 0)).
    { eexists _, _, _. split; [done|].
      split_and!; [done|done|apply Hiff; auto]. }
    destruct (negb (BestHeight env =? 0) && negb (IsCurrent env)).
    { eexists _, _, _. split; [done|].
      split_and!; [done|done|apply Hiff; auto]. }
    assert (exists reply state1 h1,
               match UpdateBlockTemplate s false state h with
               | Some (Some err, state0, h0) =>
                 Some (Handled (Failed err), state0, h0)
               | Some (None, state0, h0) =>
                 match BlockTemplateResult s false None state0 with
                 | Some r => Some (Handled (replyOf r), state0, h0)
                 | None => None
                 end
               | None => None
               end = Some (reply, state1, h1)
               /\ wf (NotifyMap state1) h1
               /\ (forall err, reply = Refused err ->
                               state1 = state /\ h1 = h)
               /\ (reply = Refused ErrNoMiningAddrs
                   <-> wantsCoinbaseTxn request
                       /\ ActiveMiningAddrs s = [])) as Hregular.
    { destruct (UpdateBlockTemplate_total s false state h Hwf
                                          (or_intror Hpick))
        as (err & state1 & h1 & -> & Hwf1 & _ & Hok).
      destruct err as [err|].
      - eexists _, _, _. split; [done|].
        split_and!; [done|done|apply Hiff; eauto].
      - destruct (Hok eq_refl) as [[tpl Ht] Hp].
        destruct (BlockTemplateResult_submitOld
                    s false None state1 tpl Ht Hp) as (r & -> & _).
        eexists _, _, _. split; [done|].
        split_and!; [done|done|apply Hiff; eauto]. }
    destruct request as [r|]; [|exact Hregular].
    destruct (negb (String.eqb (TemplateRequest.LongPollID r) ""));
      [|exact Hregular].
    destruct (HandleGetBlockTemplateLongPoll_total
                s (TemplateRequest.LongPollID r) false state h Hwf
                (or_intror Hpick))
      as (out & state1 & h1 & -> & Hwf1).
    eexists _, _, _. split; [done|].
    split_and!; [done|done|apply Hiff; eauto].
Qed.

Lemma DecodeTemplateID_EncodeTemplateID (hash : Hash) (t : Time.Time) :
  length hash = HashSize ->
  0 <= Time.Unix t < 2 ^ 63 ->
  DecodeTemplateID (EncodeTemplateID hash t) = Some (hash, Time.Unix t).
Proof.
  intros Hlen Ht. unfold DecodeTemplateID, EncodeTemplateID, HashString.
  rewrite Split_app by apply Encode_no_dash.
  rewrite Split_no_sep.
  - unfold NewHashFromStr. rewrite Decode_Encode, Hlen.
    rewrite Nat.eqb_refl. by rewrite ParseInt_FormatInt.
  - unfold Str.FormatInt. destruct (Z.ltb_spec (Time.Unix t) 0); [lia|].
    apply formatBits_digits; [lia|done].
Qed.

Lemma BlockTemplateResult_LongPollID
      s useCoinbaseValue submitOld state result ph :
  BlockTemplateResult s useCoinbaseValue submitOld state
  = Some (inr result) ->
  prevHash state = Some ph ->
  LongPollID result = EncodeTemplateID ph (LastGenerated state).
Proof.
  unfold BlockTemplateResult. intros Hr Hp. rewrite Hp in Hr.
  destruct (Template state) as [tpl|]; [|done].
  destruct (Time.After _ _); [done|].
  destruct (TxSerializeError s); [done|].
  destruct useCoinbaseValue; [by injection Hr as <-|].
  destruct (negb (ValidPayAddress tpl)); [done|].
  destruct (CoinbaseSerializeError s); [done|].
  by injection Hr as <-.
Qed.


End TemplateUpdates.

Section TemplateUpdateExamples.

Import RPC PollSpec Notify WakeSpec GBT GBTSpec.

Lemma UpdateBlockTemplate_new_tip_witness :
  exists state1 h1,
    UpdateBlockTemplate server1 true waiting0 pollers.2
    = Some (None, state1, h1)
    /\ Template state1 = Some template1
    /\ prevHash state1 = Some (BestSnapshotHash server1)
    /\ LastGenerated state1 = nowGenerated server1
    /\ (forall hash t c,
           registered (NotifyMap waiting0) hash t c ->
           hash <> BestSnapshotHash server1 ->
           c ∈ closedChans h1
           /\ ~ registered (NotifyMap state1) hash t c)
    /\ (forall hash t c,
           registered (NotifyMap state1) hash t c ->
           hash = BestSnapshotHash server1
           /\ registered (NotifyMap waiting0) hash t c)
    /\ wf (NotifyMap state1) h1.
Proof.
  apply (UpdateBlockTemplate_new_tip server1 true waiting0 pollers.2
                                     template1).
  - apply wf_pollers.
  - vm_compute. discriminate.
  - by left.
  - reflexivity.
Defined.

Lemma UpdateBlockTemplate_failure_retries_witness :
  exists e state1,
    UpdateBlockTemplate serverFailing true waiting0 pollers.2
    = Some (Some e, state1, pollers.2)
    /\ prevHash state1 = None
    /\ Template state1 = Template waiting0
    /\ NotifyMap state1 = NotifyMap waiting0
    /\ exists state2 h2,
        UpdateBlockTemplate server1 true state1 pollers.2
        = Some (None, state2, h2)
        /\ Template state2 = Some template1
        /\ prevHash state2 = Some (BestSnapshotHash server1).
Proof.
  apply (UpdateBlockTemplate_failure_retries
           serverFailing server1 true true waiting0 pollers.2
           "no block" template1).
  - reflexivity.
  - by left.
  - reflexivity.
  - apply wf_pollers.
  - by left.
  - reflexivity.
Defined.

Lemma UpdateBlockTemplate_refresh_keeps_witness :
  exists state1 template,
    UpdateBlockTemplate server0 true generated0 (mkChans 0%nat ∅)
    = Some (None, state1, mkChans 0%nat ∅)
    /\ Template state1 = Some template
    /\ Nonce template = 0
    /\ prevHash state1 = prevHash generated0
    /\ LastGenerated state1 = LastGenerated generated0
    /\ NotifyMap state1 = NotifyMap generated0.
Proof.
  apply (UpdateBlockTemplate_refresh_keeps
           server0 true generated0 (mkChans 0%nat ∅) template0).
  - reflexivity.
  - reflexivity.
  - left. reflexivity.
  - by left.
Defined.

Lemma randInRange_server0 : randInRange server0.
Proof. intros n Hn. cbn. lia. Qed.

Lemma HandleGetBlockTemplateRequest_total_witness :
  exists reply state1 h1,
    HandleGetBlockTemplateRequest server0 env0 (Some txnRequest)
                                  generated0 (mkChans 0%nat ∅)
    = Some (reply, state1, h1)
    /\ wf (NotifyMap state1) h1
    /\ (forall err,
           reply = Refused err ->
           state1 = generated0 /\ h1 = mkChans 0%nat ∅)
    /\ (reply = Refused ErrNoMiningAddrs
        <-> wantsCoinbaseTxn (Some txnRequest)
            /\ ActiveMiningAddrs server0 = []).
Proof.
  apply (HandleGetBlockTemplateRequest_total
           server0 env0 (Some txnRequest) generated0 (mkChans 0%nat ∅)).
  - apply wf_empty.
  - discriminate.
  - apply randInRange_server0.
Defined.

(** What the request of the witness comes to. *)
Example HandleGetBlockTemplateRequest_txnRequest :
  HandleGetBlockTemplateRequest server0 env0 (Some txnRequest)
                                generated0 (mkChans 0%nat ∅)
  = Some (Refused ErrNoMiningAddrs, generated0, mkChans 0%nat ∅).
Proof. vm_compute. reflexivity. Qed.


End TemplateUpdateExamples.

(** ** The checkpoint cache: what every call keeps *)

Section CheckpointInvariants.

Import RPC CFCheckpt CFSpec.

Variable IsCurrent : bool.
Variable IntervalBlockHashes : Hash -> option (list Hash).
Variable FilterHeadersByBlockHashes :
  list Hash -> FilterType -> option (list (list byte)).
Variable NewHash : list byte -> option Hash.
Variable GCSFilterRegular : FilterType.
Variable spareCap : nat -> nat -> nat.

Local Open Scope nat_scope.

Lemma appendZero_arr s n :
  within s ->
  let '(s', shared) := appendZero spareCap s n in
  within s' /\ slen s' = slen s + n
  /\ (shared = true -> length (arr s') = length (arr s)).
Proof.
  intros Hw. unfold within in Hw. unfold appendZero.
  destruct (Nat.leb_spec (slen s + n) (length (arr s))).
  - unfold within. cbn [arr slen].
    rewrite !length_app, length_take_le, length_replicate, length_drop
      by lia.
    split_and!; [lia|done|lia].
  - unfold within. cbn [arr slen].
    rewrite !length_app, length_take_le, !length_replicate by lia.
    split_and!; [lia|done|done].
Qed.

Lemma fill_any updateCache blockHashes forkIdx raw :
  forall i msg c,
    within c ->
    (updateCache = true ->
     forkIdx + i + length raw <= length blockHashes
     /\ length blockHashes <= slen c) ->
    exists res,
      fill NewHash updateCache blockHashes forkIdx i raw msg c = Some res
      /\ match res with
         | Aborted c' =>
           slen c' = slen c /\ length (arr c') = length (arr c)
         | Completed m c' =>
           slen c' = slen c /\ length (arr c') = length (arr c)
           /\ ReplyFilterType m = ReplyFilterType msg
           /\ ReplyStopHash m = ReplyStopHash msg
           /\ length (FilterHeaders m)
              = length (FilterHeaders msg) + length raw
         end.
Proof.
  induction raw as [|bytes raw IH]; intros i msg c Hw Hup.
  - eexists. split; [done|]. cbn. split_and!; [done|done|done|done|lia].
  - cbn [fill length] in *.
    destruct (Nat.eqb_spec (length bytes) 0); [by eexists|].
    destruct (NewHash bytes) as [h|]; [|by eexists].
    destruct updateCache.
    + destruct (Hup eq_refl) as [Hi Hlen].
      destruct (lookup_lt_is_Some_2 blockHashes (forkIdx + i))
        as [hash Hh]; [lia|].
      rewrite Hh. unfold store.
      destruct (Nat.ltb_spec (forkIdx + i) (slen c)); [|lia].
      set (c1 := mkSlice (<[forkIdx + i := mkCFHeaderKV hash h]> (arr c))
                         (slen c)).
      assert (within c1) as Hw1.
      { unfold within, c1. cbn. rewrite length_insert. apply Hw. }
      destruct (IH (S i) (AddCFHeader msg h) c1 Hw1)
        as (res & -> & Hres).
      { intros _. cbn [slen c1]. split; [lia|done]. }
      exists res. split; [done|].
      destruct res as [c'|m c']; cbn [c1 slen arr AddCFHeader
                                      ReplyFilterType ReplyStopHash
                                      FilterHeaders] in Hres.
      * rewrite length_insert in Hres. done.
      * rewrite length_insert, length_app in Hres. cbn in Hres.
        destruct Hres as (? & ? & ? & ? & ?).
        split_and!; [done|done|done|done|lia].
    + destruct (IH (S i) (AddCFHeader msg h) c Hw) as (res & -> & Hres);
        [done|].
      exists res. split; [done|].
      destruct res as [c'|m c']; [done|].
      cbn [AddCFHeader ReplyFilterType ReplyStopHash FilterHeaders]
        in Hres.
      rewrite length_app in Hres. cbn in Hres.
      destruct Hres as (? & ? & ? & ? & ?).
      split_and!; [done|done|done|done|lia].
Qed.

(** X19. As long as every stored slice lies within its array and the
    filter index returns one header per hash asked for,
    [OnGetCFCheckpt] never panics. It leaves every stored slice within
    its array, does not touch the cache of another filter type, never
    makes the cache of its own type shorter, and replies only when the
    node is current, the filter type is the regular one and the chain
    knows the stop hash; a reply is for the type and stop hash asked
    for and holds one filter header per checkpoint of the chain. *)
Theorem OnGetCFCheckpt_total
        (msg : MsgGetCFCheckpt) (caches : gmap FilterType slice) :
  (forall ft s, caches !! ft = Some s -> within s) ->
  (forall hashes ft raw,
      FilterHeadersByBlockHashes hashes ft = Some raw ->
      length raw = length hashes) ->
  exists caches' reply,
    OnGetCFCheckpt IsCurrent IntervalBlockHashes FilterHeadersByBlockHashes
                   NewHash GCSFilterRegular spareCap msg caches
    = Some (caches', reply)
    /\ (forall ft s, caches' !! ft = Some s -> within s)
    /\ (forall ft, ft <> MsgFilterType msg -> caches' !! ft = caches !! ft)
    /\ slen (default nilSlice (caches !! MsgFilterType msg))
       <= slen (default nilSlice (caches' !! MsgFilterType msg))
    /\ forall r,
        reply = Some r ->
        IsCurrent = true
        /\ MsgFilterType msg = GCSFilterRegular
        /\ ReplyFilterType r = MsgFilterType msg
        /\ ReplyStopHash r = StopHash msg
        /\ exists blockHashes,
            IntervalBlockHashes (StopHash msg) = Some blockHashes
            /\ length (FilterHeaders r) = length blockHashes.
Proof.
  intros Hwithin Hindex.
  assert (forall P : gmap FilterType slice -> option MsgCFCheckpt -> Prop,
             P caches None ->
             exists caches' reply,
               Some (caches, @None MsgCFCheckpt) = Some (caches', reply)
               /\ P caches' reply) as Hsame.
  { intros P HP. by exists caches, None. }
  set (Post := fun (caches' : gmap FilterType slice)
                   (reply : option MsgCFCheckpt) =>
                 (forall ft s, caches' !! ft = Some s -> within s)
                 /\ (forall ft, ft <> MsgFilterType msg ->
                                caches' !! ft = caches !! ft)
                 /\ slen (default nilSlice (caches !! MsgFilterType msg))
                    <= slen (default nilSlice
                               (caches' !! MsgFilterType msg))
                 /\ forall r,
                     reply = Some r ->
                     IsCurrent = true
                     /\ MsgFilterType msg = GCSFilterRegular
                     /\ ReplyFilterType r = MsgFilterType msg
                     /\ ReplyStopHash r = StopHash msg
                     /\ exists blockHashes,
                         IntervalBlockHashes (StopHash msg)
                         = Some blockHashes
                         /\ length (FilterHeaders r) = length blockHashes).
  assert (Post caches None) as Hnone.
  { unfold Post. split_and!; [done|done|done|done]. }
  enough (exists caches' reply,
             OnGetCFCheckpt IsCurrent IntervalBlockHashes
                            FilterHeadersByBlockHashes NewHash
                            GCSFilterRegular spareCap msg caches
             = Some (caches', reply) /\ Post caches' reply)
    as (caches' & reply & Hrun & HP) by (by exists caches', reply).
  unfold OnGetCFCheckpt.
  destruct IsCurrent eqn:Hcur; cbn [negb]; [|by apply Hsame].
  destruct (Z.eqb_spec (MsgFilterType msg) GCSFilterRegular) as [Hft|Hft];
    cbn [negb]; [|by apply Hsame].
  destruct (IntervalBlockHashes (StopHash msg)) as [blockHashes|] eqn:Hbh;
    [|by apply Hsame].
  set (stored := default nilSlice (caches !! MsgFilterType msg)).
  assert (within stored) as Hws.
  { unfold stored. destruct (caches !! MsgFilterType msg) as [s|] eqn:E.
    - by apply (Hwithin _ _ E).
    - unfold within. cbn. lia. }
  (* The cache the handler works on. *)
  assert (exists checkptCache updateCache shared,
             (if slen stored <? length blockHashes
              then
                let '(grown, shared) :=
                  appendZero spareCap stored
                             (length blockHashes - slen stored) in
                (grown, true, shared)
              else (stored, false, false))
             = (checkptCache, updateCache, shared)
             /\ within checkptCache
             /\ length blockHashes <= slen checkptCache
             /\ slen stored <= slen checkptCache
             /\ (updateCache = true ->
                 slen checkptCache = length blockHashes)
             /\ (updateCache = false -> checkptCache = stored)
             /\ (shared = true ->
                 length (arr checkptCache) = length (arr stored)))
    as (checkptCache & updateCache & shared & -> & Hwc & Hlen & Hge
        & Hup & Hkeep & Hshared).
  { destruct (Nat.ltb_spec (slen stored) (length blockHashes)).
    - pose proof (appendZero_arr stored
                    (length blockHashes - slen stored) Hws) as Ha.
      destruct (appendZero spareCap stored
                           (length blockHashes - slen stored))
        as [grown sh].
      destruct Ha as (? & ? & ?).
      exists grown, true, sh.
      split_and!; [done|done|lia|lia|intros _; lia|done|done].
    - exists stored, false, false.
      split_and!; [done|done|lia|lia|done|done|done]. }
  destruct (findFork_spec checkptCache blockHashes (length blockHashes)
                          Hwc (le_n _) Hlen)
    as (forkIdx & -> & Hfork & _ & _).
  rewrite addCached_spec by (done || lia).
  cbn [ReplyFilterType ReplyStopHash FilterHeaders app].
  (* The cache stored on an early return. *)
  assert (forall c,
             slen c = slen checkptCache ->
             length (arr c) = length (arr checkptCache) ->
             Post (if shared
                   then <[MsgFilterType msg
                          := mkSlice (arr c) (slen stored)]> caches
                   else caches) None) as Hearly.
  { intros c Hsl Harr. destruct shared; [|done].
    unfold Post. split_and!; [| | |done].
    - intros ft s. destruct (decide (ft = MsgFilterType msg)) as [->|Hne].
      + rewrite lookup_insert_eq. intros [= <-].
        unfold within. cbn. rewrite Harr, (Hshared eq_refl). apply Hws.
      + rewrite lookup_insert_ne by done. apply Hwithin.
    - intros ft Hne. by rewrite lookup_insert_ne.
    - rewrite lookup_insert_eq. cbn. done. }
  destruct (FilterHeadersByBlockHashes (drop forkIdx blockHashes)
                                       (MsgFilterType msg))
    as [raw|] eqn:Hraw.
  2:{ eexists _, _. split; [done|]. by apply Hearly. }
  pose proof (Hindex _ _ _ Hraw) as Hrawlen.
  rewrite length_drop in Hrawlen.
  destruct (fill_any updateCache blockHashes forkIdx raw 0
                     (mkMsgCFCheckpt
                        (MsgFilterType msg) (StopHash msg)
                        (FilterHeader
                           <$> take forkIdx (drop 0 (elems checkptCache))))
                     checkptCache Hwc)
    as (res & -> & Hres).
  { intros Hu. split; [lia|]. rewrite (Hup Hu). done. }
  destruct res as [c|m c].
  { eexists _, _. split; [done|]. destruct Hres. by apply Hearly. }
  cbn [ReplyFilterType ReplyStopHash FilterHeaders] in Hres.
  destruct Hres as (Hsl & Harr & Hrt & Hrs & Hcount).
  assert (length (FilterHeaders m) = length blockHashes) as Hm.
  { rewrite Hcount, length_fmap, length_take_le.
    - lia.
    - rewrite drop_0, length_elems by done. lia. }
  assert (forall r,
             Some m = Some r ->
             true = true
             /\ MsgFilterType msg = GCSFilterRegular
             /\ ReplyFilterType r = MsgFilterType msg
             /\ ReplyStopHash r = StopHash msg
             /\ exists blockHashes0,
                 Some blockHashes = Some blockHashes0
                 /\ length (FilterHeaders r) = length blockHashes0)
    as Hreply.
  { intros r [= <-]. split_and!; [done|done|done|done|].
    by exists blockHashes. }
  destruct updateCache.
  - eexists _, _. split; [done|]. unfold Post. split_and!; [| | |done].
    + intros ft s. destruct (decide (ft = MsgFilterType msg)) as [->|Hne].
      * rewrite lookup_insert_eq. intros [= <-].
        unfold within in *. lia.
      * rewrite lookup_insert_ne by done. apply Hwithin.
    + intros ft Hne. by rewrite lookup_insert_ne.
    + rewrite lookup_insert_eq. cbn. fold stored. lia.
  - eexists _, _. split; [done|]. unfold Post.
    split_and!; [done|done|done|done].
Qed.

End CheckpointInvariants.

Section CheckpointInvariantExamples.

Import RPC CFCheckpt CFSpec.

Local Open Scope nat_scope.

Lemma OnGetCFCheckpt_total_witness :
  exists caches' reply,
    OnGetCFCheckpt true reorgChain reorgIndex newHash32 0%Z noSpare
                   reorgMsg shortCache
    = Some (caches', reply)
    /\ (forall ft s, caches' !! ft = Some s -> within s)
    /\ (forall ft, ft <> MsgFilterType reorgMsg ->
                   caches' !! ft = shortCache !! ft)
    /\ slen (default nilSlice (shortCache !! MsgFilterType reorgMsg))
       <= slen (default nilSlice (caches' !! MsgFilterType reorgMsg))
    /\ forall r,
        reply = Some r ->
        true = true
        /\ MsgFilterType reorgMsg = 0%Z
        /\ ReplyFilterType r = MsgFilterType reorgMsg
        /\ ReplyStopHash r = StopHash reorgMsg
        /\ exists blockHashes,
            reorgChain (StopHash reorgMsg) = Some blockHashes
            /\ length (FilterHeaders r) = length blockHashes.
Proof.
  apply (OnGetCFCheckpt_total
           true reorgChain reorgIndex newHash32 0%Z noSpare
           reorgMsg shortCache).
  - intros ft s Hl. unfold shortCache in Hl.
    apply lookup_singleton_Some in Hl as [_ <-].
    unfold within. cbn. lia.
  - intros hashes ft raw [= <-]. apply length_fmap.
Defined.

End CheckpointInvariantExamples.

(** ** The kopach worker: failover and inactivity *)

Section Failover.

Import Kopach ElectionSpec.

(** X20. Failover. An active worker whose controller is cleared, by a
    solution message or by a tick of the watcher that finds it silent
    for more than three seconds, takes the next job from whoever sends
    it: that sender becomes the controller, the time of the job is
    recorded, and the job goes to every worker, after the pauses the
    watcher sent if a controller was set. *)
Theorem cleared_then_elects
        (w : Worker) (ev : Event) (j : Container) (now' : Time.Time)
        (Y : string) :
  active w = true ->
  clears w ev ->
  controllerAddr j = Some Y ->
  exists w',
    run w [ev; JobMsg j now']
    = Some (w',
            match ev with
            | Tick _ =>
              if String.eqb (FirstSender w) "" then []
              else forWorkers w Pause
            | _ => []
            end ++ forWorkers w (fun i => NewJob i j))
    /\ FirstSender w' = Y
    /\ lastSent w' = now'
    /\ active w' = true.
Proof.
  intros Ha Hclears Hj.
  assert (forall w0 : Worker,
             active w0 = true -> FirstSender w0 = EmptyString ->
             workers w0 = workers w ->
             handleJob w0 j now'
             = Some (mkWorker true (workers w) Y now',
                     forWorkers w (fun i => NewJob i j))) as Hjob.
  { intros w0 Ha0 Hf0 Hw0. unfold handleJob. rewrite Ha0, Hj, Hf0.
    cbn [negb String.eqb andb]. rewrite andb_false_r.
    unfold set_lastSent, set_FirstSender, forWorkers. cbn.
    by rewrite Ha0, Hw0. }
  destruct Hclears as [->|(now & -> & Hsilent)].
  - cbn [run step handleSol].
    rewrite (Hjob (set_FirstSender "" w)) by done.
    eexists. split; [by rewrite app_nil_r|done].
  - cbn [run step]. unfold watch.
    unfold silent in Hsilent.
    destruct (Z.gtb_spec (Time.Sub now (lastSent w)) (Time.Second * 3));
      [|lia].
    cbn [andb].
    destruct (String.eqb_spec (FirstSender w) "") as [He|Hne];
      cbn [negb].
    + rewrite (Hjob w) by done.
      eexists. split; [by rewrite app_nil_r|done].
    + rewrite (Hjob (set_FirstSender "" w)) by done.
      eexists. split; [by rewrite app_nil_r|done].
Qed.

Lemma step_inactive w ev w' calls :
  active w = false ->
  step w ev = Some (w', calls) ->
  active w' = false
  /\ workers w' = workers w
  /\ lastSent w' = lastSent w
  /\ (FirstSender w' = FirstSender w \/ FirstSender w' = EmptyString)
  /\ Forall (fun call => exists i, call = Pause i) calls.
Proof.
  intros Ha Hstep.
  assert (Forall (fun call => exists i, call = Pause i)
                 (forWorkers w Pause)) as Hp.
  { unfold forWorkers. apply Forall_fmap, Forall_forall.
    intros i _. by exists i. }
  destruct ev as [j now|p| |now]; cbn [step] in Hstep.
  - unfold handleJob in Hstep. rewrite Ha in Hstep. cbn in Hstep.
    injection Hstep as <- <-. split_and!; [done|done|done|by left|done].
  - unfold handlePause in Hstep.
    destruct (controllerAddr p) as [ns|]; [|done].
    destruct (String.eqb (FirstSender w) ns); injection Hstep as <- <-;
      (split_and!; [done|done|done|by left|done]).
  - unfold handleSol in Hstep. injection Hstep as <- <-.
    split_and!; [done|done|done|by right|done].
  - unfold watch in Hstep.
    destruct ((Time.Sub now (lastSent w) >? Time.Second * 3)
              && negb (String.eqb (FirstSender w) ""));
      injection Hstep as <- <-.
    + split_and!; [done|done|done|by right|done].
    + split_and!; [done|done|done|by left|done].
Qed.

(** X21. A worker that is not active never hands a job to its worker
    processes and elects no controller: over any events, every call it
    makes is a pause, [lastSent] stays, and [FirstSender] is what it
    was or has been cleared. *)
Theorem inactive_never_works
        (w w' : Worker) (evs : list Event) (calls : list WorkerCall) :
  active w = false ->
  run w evs = Some (w', calls) ->
  (forall i j, NewJob i j ∉ calls)
  /\ active w' = false
  /\ lastSent w' = lastSent w
  /\ (FirstSender w' = FirstSender w \/ FirstSender w' = EmptyString).
Proof.
  intros Ha Hrun.
  assert (Forall (fun call => exists i, call = Pause i) calls
          /\ active w' = false
          /\ lastSent w' = lastSent w
          /\ (FirstSender w' = FirstSender w
              \/ FirstSender w' = EmptyString)) as (Hall & ? & ? & ?).
  { revert w calls Ha Hrun.
    induction evs as [|ev evs IH]; intros w calls Ha Hrun.
    - cbn in Hrun. injection Hrun as <- <-.
      split_and!; [done|done|done|by left].
    - cbn [run] in Hrun.
      destruct (step w ev) as [[w1 calls1]|] eqn:Hstep; [|done].
      destruct (run w1 evs) as [[w2 calls2]|] eqn:Hrest; [|done].
      injection Hrun as <- <-.
      destruct (step_inactive _ _ _ _ Ha Hstep)
        as (Ha1 & _ & Hl1 & Hf1 & Hc1).
      destruct (IH w1 calls2 Ha1 Hrest) as (Hc2 & Ha2 & Hl2 & Hf2).
      split_and!; [by apply Forall_app|done|congruence|].
      destruct Hf2 as [Hf2|Hf2]; [|by right].
      rewrite Hf2. exact Hf1. }
  split_and!; [|done|done|done].
  intros i j Hin. rewrite Forall_forall in Hall.
  destruct (Hall _ Hin) as [i' Hi']. done.
Qed.

End Failover.

Section FailoverExamples.

Import Kopach ElectionSpec.

Lemma cleared_then_elects_witness :
  exists w',
    run worker0 [Tick (5 * Time.Second);
                 JobMsg (mkContainer ["10.0.0.2"%string] 11049 [])
                        (6 * Time.Second)]
    = Some (w',
            (if String.eqb (FirstSender worker0) "" then []
             else forWorkers worker0 Pause)
              ++ forWorkers worker0
                   (fun i => NewJob i (mkContainer ["10.0.0.2"%string]
                                                   11049 [])))
    /\ FirstSender w' = "10.0.0.2:11049"%string
    /\ lastSent w' = 6 * Time.Second
    /\ active w' = true.
Proof.
  apply (cleared_then_elects
           worker0 (Tick (5 * Time.Second))
           (mkContainer ["10.0.0.2"%string] 11049 []) (6 * Time.Second)
           "10.0.0.2:11049").
  - reflexivity.
  - right. exists (5 * Time.Second). split; [reflexivity|].
    vm_compute. reflexivity.
  - vm_compute. reflexivity.
Defined.

Lemma inactive_never_works_witness :
  (forall i j, NewJob i j ∉ forWorkers (mkWorker false 2 "" 0) Pause)
  /\ active (mkWorker false 2 "" 0) = false
  /\ lastSent (mkWorker false 2 "" 0) = lastSent (mkWorker false 2 "a" 0)
  /\ (FirstSender (mkWorker false 2 "" 0)
      = FirstSender (mkWorker false 2 "a" 0)
      \/ FirstSender (mkWorker false 2 "" 0) = EmptyString).
Proof.
  apply (inactive_never_works
           (mkWorker false 2 "a" 0) (mkWorker false 2 "" 0)
           [JobMsg (mkContainer ["10.0.0.2"%string] 11049 [])
                   (6 * Time.Second);
            Tick (5 * Time.Second)]).
  - reflexivity.
  - vm_compute. reflexivity.
Defined.

End FailoverExamples.

(** ** verifychain and witness formatting *)

Section VerifyProperties.

Import Verify VerifySpec.

Context {Block error : Type}.
Variable BestHeight : Z.
Variable BlockByHeight : Z -> error + Block.
Variable CheckBlockSanity : Block -> Z -> option error.

Lemma wrap_int32_id z : - 2 ^ 31 <= z < 2 ^ 31 -> wrap_int32 z = z.
Proof. intros Hz. unfold wrap_int32. rewrite Z.mod_small; lia. Qed.

Lemma verifyLoop_spec level finishHeight fuel :
  forall height,
    0 <= finishHeight -> height < 2 ^ 31 ->
    height - finishHeight <= Z.of_nat fuel ->
    exists r,
      verifyLoop BlockByHeight CheckBlockSanity fuel level finishHeight
                 height = Some r
      /\ (r = None
          <-> forall hgt,
              finishHeight < hgt <= height ->
              sound BlockByHeight CheckBlockSanity level hgt).
Proof.
  induction fuel as [|fuel IH]; intros height Hf Hh Hfuel.
  - cbn [verifyLoop]. destruct (Z.gtb_spec height finishHeight); [lia|].
    exists None. split; [done|]. split; [|done]. intros _ hgt ?. lia.
  - cbn [verifyLoop]. destruct (Z.gtb_spec height finishHeight) as [Hgt|Hle].
    2:{ exists None. split; [done|]. split; [|done]. intros _ hgt ?. lia. }
    destruct (BlockByHeight height) as [err|block] eqn:Hb.
    { exists (Some err). split; [done|]. split; [done|].
      intros Hall. destruct (Hall height) as (b & Hb' & _); [lia|].
      congruence. }
    destruct (if level >? 0 then CheckBlockSanity block height else None)
      as [err|] eqn:Hc.
    { exists (Some err). split; [done|]. split; [done|].
      intros Hall. destruct (Hall height) as (b & Hb' & Hs); [lia|].
      assert (b = block) as -> by congruence.
      destruct (Z.gtb_spec level 0); [|done].
      rewrite Hs in Hc by lia. done. }
    rewrite wrap_int32_id by lia.
    destruct (IH (height - 1)) as (r & -> & Hr); [done|lia|lia|].
    exists r. split; [done|]. rewrite Hr. split.
    + intros Hall hgt Hhgt.
      destruct (decide (hgt = height)) as [->|Hne]; [|apply Hall; lia].
      exists block. split; [done|]. intros Hl.
      destruct (Z.gtb_spec level 0); [done|lia].
    + intros Hall hgt Hhgt. apply Hall. lia.
Qed.

(** X22. [HandleVerifyChain] always comes to an answer, and answers
    true exactly when every block from the best height down to, but
    not including, the best height less the depth (or height zero) can
    be fetched and, from level one on, passes the sanity check. With
    no depth given it looks at no block and answers true. *)
Theorem HandleVerifyChain_spec (CheckLevel CheckDepth : option Z) :
  0 <= BestHeight < 2 ^ 31 ->
  0 <= default 0 CheckDepth < 2 ^ 31 ->
  exists ok,
    HandleVerifyChain BestHeight BlockByHeight CheckBlockSanity
                      CheckLevel CheckDepth = Some ok
    /\ (ok = true
        <-> forall hgt,
            Z.max 0 (BestHeight - default 0 CheckDepth) < hgt
            <= BestHeight ->
            sound BlockByHeight CheckBlockSanity (default 0 CheckLevel)
                  hgt)
    /\ (CheckDepth = None -> ok = true).
Proof.
  intros Hbest Hdepth. unfold HandleVerifyChain, VerifyChain.
  change (match CheckLevel with Some l => l | None => 0 end)
    with (default 0 CheckLevel).
  change (match CheckDepth with Some d => d | None => 0 end)
    with (default 0 CheckDepth).
  set (depth := default 0 CheckDepth) in *.
  rewrite wrap_int32_id by lia.
  set (finishHeight := if BestHeight - depth <? 0 then 0
                       else BestHeight - depth).
  assert (finishHeight = Z.max 0 (BestHeight - depth)) as Hfin.
  { unfold finishHeight. destruct (Z.ltb_spec (BestHeight - depth) 0); lia. }
  destruct (verifyLoop_spec (default 0 CheckLevel) finishHeight
              (Z.to_nat (BestHeight - finishHeight)) BestHeight)
    as (r & -> & Hr); [lia|lia|lia|].
  rewrite Hfin in Hr.
  assert (CheckDepth = None -> r = None) as Hnone.
  { intros Hd. apply Hr. intros hgt Hhgt. unfold depth in Hhgt.
    rewrite Hd in Hhgt. cbn in Hhgt. lia. }
  destruct r as [err|].
  - exists false. split; [done|]. split.
    + split; [done|]. intros Hall. by apply Hr in Hall.
    + intros Hd. by apply Hnone in Hd.
  - exists true. split; [done|]. split; [|done].
    split; [|done]. intros _. by apply Hr.
Qed.

End VerifyProperties.

Section WitnessProperties.

Import Verify.

Lemma WitnessToHex_fmap witness :
  foldl (fun result wit => result ++ [Str.EncodeToString wit]) [] witness
  = Str.EncodeToString <$> witness.
Proof.
  induction witness as [|wit witness IH] using rev_ind; [done|].
  by rewrite foldl_app, fmap_app, IH.
Qed.

(** X23. [WitnessToHex] returns nil exactly for the empty witness;
    otherwise it returns one string per item, and decoding the strings
    as hexadecimal gives the items back, in order. *)
Theorem WitnessToHex_roundtrip (witness : list (list byte)) :
  (WitnessToHex witness = None <-> witness = [])
  /\ forall result,
      WitnessToHex witness = Some result ->
      length result = length witness
      /\ Str.DecodeString <$> result = Some <$> witness.
Proof.
  unfold WitnessToHex. rewrite WitnessToHex_fmap.
  destruct (Z.eqb_spec (Z.of_nat (length witness)) 0) as [Hz|Hnz].
  - split; [|done]. split; [|done]. intros _.
    destruct witness; [done|cbn in Hz; lia].
  - split.
    + split; [done|]. intros ->. done.
    + intros result Hr.
      assert (result = Str.EncodeToString <$> witness) as ->
          by congruence.
      split; [apply length_fmap|].
      rewrite <- list_fmap_compose. apply list_fmap_ext.
      intros i w _. cbn. apply Decode_Encode.
Qed.

End WitnessProperties.

Section VerifyExamples.

Import Verify VerifySpec.

Lemma HandleVerifyChain_spec_witness :
  exists ok,
    HandleVerifyChain 10 chain10 sane (Some 1) (Some 3) = Some ok
    /\ (ok = true
        <-> forall hgt,
            Z.max 0 (10 - default 0 (Some 3)) < hgt <= 10 ->
            sound chain10 sane (default 0 (Some 1)) hgt)
    /\ (Some 3 = None -> ok = true).
Proof.
  apply (HandleVerifyChain_spec 10 chain10 sane (Some 1) (Some 3)).
  - lia.
  - cbn. lia.
Defined.

(** The runs of the example: three blocks back the chain is sound,
    four blocks back the unreadable block is met. *)
Example HandleVerifyChain_chain10 :
  HandleVerifyChain 10 chain10 sane (Some 1) (Some 3) = Some true
  /\ HandleVerifyChain 10 chain10 sane (Some 1) (Some 4) = Some false
  /\ HandleVerifyChain 10 chain10 sane (Some 1) None = Some true.
Proof. vm_compute. done. Qed.

End VerifyExamples.

(** ** The callbacks of one peer *)

Section CallbackProperties.

Import PeerCallbacks CallbackSpec.

Context {BloomFilter Tx DynamicBanScore : Type}.
Variable IsLoaded : BloomFilter -> bool.
Variable FilterAdd : BloomFilter -> list byte -> BloomFilter.
Variable Unload : BloomFilter -> BloomFilter.
Variable Reload : BloomFilter -> list byte -> BloomFilter.
Variable MatchTxAndUpdate : BloomFilter -> Tx -> bool * BloomFilter.
Variable Increase : DynamicBanScore -> Z -> Z -> Z * DynamicBanScore.
Variable NetAddressKey : Server.NetAddress -> string.
Variable SFNodeBloom : Z.
Variable BIP0111Version : Z.
Variable NetAddressTimeVersion : Z.
Variable MaxSatoshi : Z.

Implicit Types np : NodePeer BloomFilter DynamicBanScore.

Lemma shiftr_1_lt threshold score :
  0 <= score -> threshold < score -> Z.shiftr threshold 1 < score.
Proof.
  intros H0 Hlt. rewrite Z.shiftr_div_pow2 by lia.
  change (2 ^ 1) with 2.
  destruct (Z.le_gt_cases 0 threshold).
  - assert (threshold / 2 <= threshold); [|lia].
    apply Z.div_le_upper_bound; lia.
  - assert (threshold / 2 < 0); [|lia].
    apply Z.div_lt_upper_bound; lia.
Qed.

(** X24. [AddBanScore] bans and disconnects the peer together, and
    does so exactly when banning is enabled, the peer is not
    whitelisted, some score is added and the increased score exceeds
    the ban threshold: the warning threshold, half the ban threshold,
    never hides a ban. With banning disabled, for a whitelisted peer
    or with nothing to add, the score is not touched. *)
Theorem AddBanScore_bans cfg np (persistent transient : Z) :
  0 <= (Increase (BanScore np) persistent transient).1 ->
  let '(np', effs) :=
    AddBanScore Increase cfg np persistent transient in
  (BanPeer ∈ effs <-> Disconnect ∈ effs)
  /\ ((BanPeer ∈ effs)
      <-> DisableBanning cfg = false /\ IsWhitelisted np = false
          /\ (persistent <> 0 \/ transient <> 0)
          /\ BanThreshold cfg
             < (Increase (BanScore np) persistent transient).1)
  /\ (DisableBanning cfg = true \/ IsWhitelisted np = true
      \/ (persistent = 0 /\ transient = 0) ->
      np' = np /\ effs = []).
Proof.
  clear SFNodeBloom BIP0111Version NetAddressTimeVersion MaxSatoshi.
  intros Hscore. unfold AddBanScore.
  assert (forall P : Prop,
             (P -> False) ->
             (BanPeer ∈ @nil Effect <-> Disconnect ∈ @nil Effect)
             /\ (BanPeer ∈ @nil Effect <-> P)) as Hnil.
  { intros P HP. split; split; intros H;
      try (by apply elem_of_nil in H). by destruct (HP H). }
  assert (forall P : Prop,
             P ->
             (BanPeer ∈ [BanPeer; Disconnect]
              <-> Disconnect ∈ [BanPeer; Disconnect])
             /\ (BanPeer ∈ [BanPeer; Disconnect] <-> P)) as Hban.
  { intros P HP. split; split; intros _; (done || set_solver). }
  destruct (DisableBanning cfg).
  { split; [|split]; [apply (Hnil False); tauto| |done].
    apply Hnil. by intros [? _]. }
  destruct (IsWhitelisted np).
  { split; [|split]; [apply (Hnil False); tauto| |done].
    apply Hnil. by intros (_ & ? & _). }
  destruct ((transient =? 0) && (persistent =? 0)) eqn:Hzero.
  { apply andb_true_iff in Hzero as [Ht%Z.eqb_eq Hp%Z.eqb_eq].
    split; [|split]; [apply (Hnil False); tauto| |done].
    apply Hnil. intros (_ & _ & [?|?] & _); done. }
  assert (persistent <> 0 \/ transient <> 0) as Hsome.
  { apply andb_false_iff in Hzero as [Ht%Z.eqb_neq|Hp%Z.eqb_neq]; auto. }
  destruct (Increase (BanScore np) persistent transient)
    as [score banScore]. cbn [fst] in *.
  assert (false = true \/ false = true
          \/ persistent = 0 /\ transient = 0 -> False) as Hno
      by (intros [?|[?|[? ?]]]; [done|done|lia]).
  destruct (Z.gtb_spec score (Z.shiftr (BanThreshold cfg) 1))
    as [Hwarn|Hnowarn];
    [destruct (Z.gtb_spec score (BanThreshold cfg)) as [Hgt|Hle]|].
  - split; [|split]; [apply (Hban True); done| |by intros H; destruct Hno].
    apply Hban. split_and!; [done|done|done|lia].
  - split; [|split]; [apply (Hnil False); tauto|
                      |by intros H; destruct Hno].
    apply Hnil. intros (_ & _ & _ & ?). lia.
  - split; [|split]; [apply (Hnil False); tauto|
                      |by intros H; destruct Hno].
    apply Hnil. intros (_ & _ & _ & Hgt).
    pose proof (shiftr_1_lt _ _ Hscore Hgt). lia.
Qed.

Lemma AddBanScore_fields cfg np persistent transient :
  let '(np', effs) :=
    AddBanScore Increase cfg np persistent transient in
  Filter np' = Filter np
  /\ DisableRelayTx np' = DisableRelayTx np
  /\ ProtocolVersion np' = ProtocolVersion np
  /\ IsWhitelisted np' = IsWhitelisted np
  /\ (BanPeer ∈ effs ->
      DisableBanning cfg = false /\ IsWhitelisted np = false).
Proof.
  unfold AddBanScore.
  assert (BanPeer ∉ @nil Effect) as Hnil by apply not_elem_of_nil.
  destruct (DisableBanning cfg); [done|].
  destruct (IsWhitelisted np) eqn:Hw; [done|].
  destruct ((transient =? 0) && (persistent =? 0)); [by rewrite Hw|].
  destruct (Increase (BanScore np) persistent transient) as [score bs].
  destruct (score >? Z.shiftr (BanThreshold cfg) 1);
    [destruct (score >? BanThreshold cfg)|]; cbn; by rewrite Hw.
Qed.

Lemma OnFilterMsg_without_bloom cfg np m :
  Z.land (Services cfg) SFNodeBloom <> SFNodeBloom ->
  let '(np', effs) :=
    OnFilterMsg IsLoaded FilterAdd Unload Reload Increase SFNodeBloom
                BIP0111Version cfg np m in
  Filter np' = Filter np
  /\ DisableRelayTx np' = DisableRelayTx np
  /\ ProtocolVersion np' = ProtocolVersion np
  /\ IsWhitelisted np' = IsWhitelisted np
  /\ last effs = Some Disconnect
  /\ (BanPeer ∈ effs ->
      BIP0111Version <= ProtocolVersion np
      /\ DisableBanning cfg = false /\ IsWhitelisted np = false).
Proof.
  intros Hno.
  assert (forall rest : bool * NodePeer BloomFilter DynamicBanScore
                        * list Effect ->
                        NodePeer BloomFilter DynamicBanScore * list Effect,
             (forall np' effs, rest (false, np', effs) = (np', effs)) ->
             let '(np', effs) :=
               rest (EnforceNodeBloomFlag Increase SFNodeBloom
                                          BIP0111Version cfg np) in
             Filter np' = Filter np
             /\ DisableRelayTx np' = DisableRelayTx np
             /\ ProtocolVersion np' = ProtocolVersion np
             /\ IsWhitelisted np' = IsWhitelisted np
             /\ last effs = Some Disconnect
             /\ (BanPeer ∈ effs ->
                 BIP0111Version <= ProtocolVersion np
                 /\ DisableBanning cfg = false
                 /\ IsWhitelisted np = false)) as Henforce.
  { intros rest Hrest. unfold EnforceNodeBloomFlag.
    destruct (Z.eqb_spec (Z.land (Services cfg) SFNodeBloom) SFNodeBloom);
      [done|]. cbn [negb].
    destruct (Z.geb_spec (ProtocolVersion np) BIP0111Version) as [Hge|Hlt];
      cbn [andb].
    - destruct (DisableBanning cfg) eqn:Hd; cbn [negb].
      + rewrite Hrest. split_and!; [done|done|done|done|done|].
        intros Hin. apply list_elem_of_singleton in Hin. done.
      + pose proof (AddBanScore_fields cfg np 100 0) as Hf.
        destruct (AddBanScore Increase cfg np 100 0) as [np1 effs1].
        rewrite Hrest. destruct Hf as (? & ? & ? & ? & Hb).
        split_and!; [done|done|done|done|apply last_snoc|].
        intros Hin. apply elem_of_app in Hin as [Hin|Hin].
        * destruct (Hb Hin) as [_ ?]. split_and!; [lia|done|done].
        * apply list_elem_of_singleton in Hin. done.
    - rewrite Hrest. split_and!; [done|done|done|done|done|].
      intros Hin. apply list_elem_of_singleton in Hin. done. }
  destruct m as [data| |msg]; cbn [OnFilterMsg].
  - unfold OnFilterAdd.
    apply (Henforce
             (fun r =>
                let '(ok, np0, effs) := r in
                if negb ok then (np0, effs)
                else if negb (IsLoaded (Filter np0))
                then (np0, effs ++ [Disconnect])
                else (set_Filter (FilterAdd (Filter np0) data) np0, effs))).
    done.
  - unfold OnFilterClear.
    apply (Henforce
             (fun r =>
                let '(ok, np0, effs) := r in
                if negb ok then (np0, effs)
                else if negb (IsLoaded (Filter np0))
                then (np0, effs ++ [Disconnect])
                else (set_Filter (Unload (Filter np0)) np0, effs))).
    done.
  - unfold OnFilterLoad.
    apply (Henforce
             (fun r =>
                let '(ok, np0, effs) := r in
                if negb ok then (np0, effs)
                else
                  (set_Filter
                     (Reload (Filter (set_DisableRelayTx false np0)) msg)
                     (set_DisableRelayTx false np0), effs))).
    done.
Qed.

(** X25. On a server that does not offer the bloom service, no series
    of filteradd, filterclear and filterload messages changes the
    filter of the peer or its transaction relay flag; the last call
    made for every message is the disconnection of the peer; and the
    peer is banned only if it speaks a protocol version from
    [BIP0111Version] on, banning is enabled and it is not
    whitelisted. *)
Theorem filter_messages_without_bloom cfg np (ms : list FilterMsg) :
  Z.land (Services cfg) SFNodeBloom <> SFNodeBloom ->
  let '(np', effs) :=
    OnFilterMsgs IsLoaded FilterAdd Unload Reload Increase SFNodeBloom
                 BIP0111Version cfg np ms in
  Filter np' = Filter np
  /\ DisableRelayTx np' = DisableRelayTx np
  /\ (ms <> [] -> last effs = Some Disconnect)
  /\ (BanPeer ∈ effs ->
      BIP0111Version <= ProtocolVersion np
      /\ DisableBanning cfg = false /\ IsWhitelisted np = false).
Proof.
  intros Hno. unfold OnFilterMsgs.
  assert (let '(np', effs) :=
            foldl (fun '(np0, effs) m =>
                     let '(np1, effs') :=
                       OnFilterMsg IsLoaded FilterAdd Unload Reload
                                   Increase SFNodeBloom BIP0111Version
                                   cfg np0 m in
                     (np1, effs ++ effs')) (np, []) ms in
          Filter np' = Filter np
          /\ DisableRelayTx np' = DisableRelayTx np
          /\ ProtocolVersion np' = ProtocolVersion np
          /\ IsWhitelisted np' = IsWhitelisted np
          /\ (ms <> [] -> last effs = Some Disconnect)
          /\ (BanPeer ∈ effs ->
              BIP0111Version <= ProtocolVersion np
              /\ DisableBanning cfg = false
              /\ IsWhitelisted np = false)) as H.
  { induction ms as [|m ms IH] using rev_ind.
    - cbn. split_and!; [done|done|done|done|done|].
      intros Hin. by apply elem_of_nil in Hin.
    - rewrite foldl_app. cbn [foldl].
      destruct (foldl _ (np, []) ms) as [np1 effs1].
      destruct IH as (Hf & Hr & Hv & Hw & _ & Hb).
      pose proof (OnFilterMsg_without_bloom cfg np1 m Hno) as Hm.
      destruct (OnFilterMsg _ _ _ _ _ _ _ cfg np1 m) as [np2 effs2].
      destruct Hm as (Hf2 & Hr2 & Hv2 & Hw2 & Hl2 & Hb2).
      split_and!; [congruence|congruence|congruence|congruence| |].
      + intros _. destruct effs2 as [|e effs2 _] using rev_ind; [done|].
        rewrite app_assoc, last_snoc. by rewrite last_snoc in Hl2.
      + intros Hin. apply elem_of_app in Hin as [Hin|Hin]; [by apply Hb|].
        destruct (Hb2 Hin) as (? & ? & ?).
        split_and!; [lia|done|congruence]. }
  destruct (foldl _ (np, []) ms) as [np' effs].
  destruct H as (? & ? & _ & _ & ? & ?). done.
Qed.


Lemma KnownAddresses_AddKnownAddresses np addresses key :
  key ∈ KnownAddresses (AddKnownAddresses NetAddressKey np addresses)
  <-> key ∈ KnownAddresses np
      \/ exists na, na ∈ addresses /\ NetAddressKey na = key.
Proof.
  unfold AddKnownAddresses. cbn [KnownAddresses set_KnownAddresses].
  generalize (KnownAddresses np) as known.
  induction addresses as [|na addresses IH]; intros known; cbn [foldl].
  - split; [by left|]. intros [?|(na & Hin & _)]; [done|].
    by apply elem_of_nil in Hin.
  - rewrite IH. rewrite elem_of_union, elem_of_singleton. split.
    + intros [[->|?]|(na' & Hin & Hk)].
      * right. exists na. split; [left|done].
      * by left.
      * right. exists na'. split; [by right|done].
    + intros [?|(na' & Hin & Hk)]; [auto|].
      apply elem_of_cons in Hin as [->|Hin]; [auto|].
      right. by exists na'.
Qed.

Lemma unknown_filter np addresses :
  foldl (fun addrs addr =>
           if negb (IsAddressKnown NetAddressKey np addr)
           then addrs ++ [addr] else addrs) [] addresses
  = unknownTo NetAddressKey np addresses.
Proof.
  unfold unknownTo.
  induction addresses as [|a l IH] using rev_ind; [done|].
  rewrite foldl_app, filter_app, filter_cons, filter_nil. cbn [foldl].
  rewrite IH. unfold IsAddressKnown.
  destruct (decide (NetAddressKey a ∉ KnownAddresses np)) as [Hn|Hk].
  - by rewrite bool_decide_eq_false_2.
  - rewrite bool_decide_eq_true_2; [by rewrite app_nil_r|].
    by apply dec_stable.
Qed.

Lemma PreparePushAddrMsg_spec push np addresses :
  let '(np', effs) :=
    PreparePushAddrMsg NetAddressKey push np addresses in
  pushes effs = [unknownTo NetAddressKey np addresses]
  /\ SentAddrs np' = SentAddrs np
  /\ Inbound np' = Inbound np
  /\ KnownAddresses np ⊆ KnownAddresses np'
  /\ (Disconnect ∈ effs
      <-> push (unknownTo NetAddressKey np addresses) = None).
Proof.
  unfold PreparePushAddrMsg. rewrite unknown_filter.
  destruct (push _) as [known|].
  - split_and!; [done|done|done| |].
    + intros key Hkey. apply KnownAddresses_AddKnownAddresses. by left.
    + split; [|done]. intros Hin.
      apply list_elem_of_singleton in Hin. done.
  - split_and!; [done|done|done|done|]. split; [done|]. intros _.
    set_solver.
Qed.


Lemma addrLoop_spec connected now np addrList :
  forall i,
    let '(np', sent) :=
      addrLoop NetAddressKey connected now i np addrList in
    KnownAddresses np ⊆ KnownAddresses np'
    /\ forall addrs,
        sent = Some addrs ->
        length addrs = length addrList
        /\ forall k na,
            addrList !! k = Some na ->
            exists na',
              addrs !! k = Some na'
              /\ Server.Timestamp na'
                 = backdated (now (i + k)%nat) (Server.Timestamp na)
              /\ Server.Services na' = Server.Services na
              /\ Server.IP na' = Server.IP na
              /\ Server.Port na' = Server.Port na
              /\ NetAddressKey na' ∈ KnownAddresses np'.
Proof.
  revert np. induction addrList as [|na addrList IH]; intros np i.
  - cbn. split; [done|]. intros addrs [= <-]. split; [done|].
    intros k na Hk. by rewrite lookup_nil in Hk.
  - cbn [addrLoop]. destruct (connected i); cbn [negb]; [|done].
    set (na1 := if Time.After _ _ then _ else na).
    assert (Server.Timestamp na1
            = backdated (now i) (Server.Timestamp na)
            /\ Server.Services na1 = Server.Services na
            /\ Server.IP na1 = Server.IP na
            /\ Server.Port na1 = Server.Port na) as (Ht & Hs & Hi & Hp).
    { unfold na1, backdated, Time.After, Time.Add.
      destruct (Z.ltb_spec (now i + ServerUtil.Minute * 10)
                           (Server.Timestamp na)).
      - rewrite decide_False by lia. cbn. split_and!; [lia|done|done|done].
      - by rewrite decide_True by lia. }
    specialize (IH (AddKnownAddresses NetAddressKey np [na1]) (S i)).
    destruct (addrLoop NetAddressKey connected now (S i)
                       (AddKnownAddresses NetAddressKey np [na1])
                       addrList) as [np' sent].
    destruct IH as [Hsub Hsent].
    assert (KnownAddresses np
              ⊆ KnownAddresses (AddKnownAddresses NetAddressKey np [na1]))
      as Hsub0.
    { intros key Hkey. apply KnownAddresses_AddKnownAddresses. by left. }
    assert (NetAddressKey na1 ∈ KnownAddresses np') as Hna1.
    { apply Hsub, KnownAddresses_AddKnownAddresses. right.
      exists na1. split; [left|done]. }
    destruct sent as [rest|].
    + split; [set_solver|]. intros addrs [= <-].
      destruct (Hsent rest eq_refl) as [Hlen Hall].
      split; [cbn; lia|]. intros k na0 Hk. destruct k as [|k].
      * cbn in Hk. injection Hk as <-. exists na1.
        rewrite Nat.add_0_r. done.
      * cbn in Hk. destruct (Hall k na0 Hk) as (na' & ? & Ht' & ?).
        exists na'. split; [done|].
        replace (i + S k)%nat with (S i + k)%nat by lia. done.
    + split; [set_solver|done].
Qed.

(** X28. Whatever list [OnAddr] hands to the address manager, it is
    the list of the message with the timestamps that lay more than ten
    minutes ahead of the clock set five days back: no address it hands
    over is more than ten minutes in the future, nothing but
    timestamps is changed, the peer knows every address handed over,
    and it never knows fewer addresses than before. [OnAddr] panics
    only on an empty network name. *)
Theorem OnAddr_backdates
        cfg (connected : nat -> bool) (now : nat -> Time.Time) np
        (AddrList : list Server.NetAddress) :
  Network cfg <> EmptyString ->
  exists np' effs,
    OnAddr NetAddressKey NetAddressTimeVersion cfg connected now np
           AddrList = Some (np', effs)
    /\ KnownAddresses np ⊆ KnownAddresses np'
    /\ forall addrs,
        AddAddresses addrs ∈ effs ->
        length addrs = length AddrList
        /\ forall k na,
            AddrList !! k = Some na ->
            exists na',
              addrs !! k = Some na'
              /\ Server.Timestamp na'
                 = backdated (now k) (Server.Timestamp na)
              /\ Server.Timestamp na' <= now k + ServerUtil.Minute * 10
              /\ Server.Services na' = Server.Services na
              /\ Server.IP na' = Server.IP na
              /\ Server.Port na' = Server.Port na
              /\ NetAddressKey na' ∈ KnownAddresses np'.
Proof.
  intros Hnet. unfold OnAddr.
  destruct (Network cfg) as [|c net]; [done|].
  assert (forall e : Effect,
             (forall addrs, e <> AddAddresses addrs) ->
             forall l, l = [] \/ l = [e] ->
             exists np' effs,
               Some (np, l) = Some (np', effs)
               /\ KnownAddresses np ⊆ KnownAddresses np'
               /\ forall addrs,
                   AddAddresses addrs ∈ effs ->
                   length addrs = length AddrList
                   /\ forall k na,
                       AddrList !! k = Some na ->
                       exists na',
                         addrs !! k = Some na'
                         /\ Server.Timestamp na'
                            = backdated (now k) (Server.Timestamp na)
                         /\ Server.Timestamp na'
                            <= now k + ServerUtil.Minute * 10
                         /\ Server.Services na' = Server.Services na
                         /\ Server.IP na' = Server.IP na
                         /\ Server.Port na' = Server.Port na
                         /\ NetAddressKey na' ∈ KnownAddresses np')
    as Hnone.
  { intros e He l Hl. exists np, l. split_and!; [done|done|].
    intros addrs Hin. destruct Hl as [-> | ->].
    - by apply elem_of_nil in Hin.
    - apply list_elem_of_singleton in Hin. by destruct (He addrs). }
  destruct (Ascii.eqb c "s"); [by apply (Hnone Disconnect); auto|].
  destruct (ProtocolVersion np <? NetAddressTimeVersion);
    [by apply (Hnone Disconnect); auto|].
  destruct (Z.of_nat (length AddrList) =? 0);
    [by apply (Hnone Disconnect); auto|].
  pose proof (addrLoop_spec connected now np AddrList 0%nat) as Hloop.
  destruct (addrLoop NetAddressKey connected now 0 np AddrList)
    as [np' sent].
  destruct Hloop as [Hsub Hsent].
  destruct sent as [addrs|].
  - exists np', [AddAddresses addrs]. split_and!; [done|done|].
    intros addrs' Hin. apply list_elem_of_singleton in Hin as [= ->].
    destruct (Hsent addrs eq_refl) as [Hlen Hall].
    split; [done|]. intros k na Hk.
    destruct (Hall k na Hk) as (na' & ? & Ht & ? & ? & ? & ?).
    exists na'. cbn [Nat.add] in Ht.
    split_and!; [done|done| |done|done|done|done].
    rewrite Ht. unfold backdated.
    destruct (decide (Server.Timestamp na
                      <= now k + ServerUtil.Minute * 10)); [done|].
    unfold ServerUtil.Hour, ServerUtil.Minute, Time.Second. lia.
  - exists np', []. split_and!; [done|done|].
    intros addrs Hin. by apply elem_of_nil in Hin.
Qed.

End CallbackProperties.

Section CallbackExamples.

Import PeerCallbacks CallbackSpec.

Lemma AddBanScore_bans_witness :
  let '(np', effs) := AddBanScore sumScore cfg0 peer0 100 50 in
  (BanPeer ∈ effs <-> Disconnect ∈ effs)
  /\ ((BanPeer ∈ effs)
      <-> DisableBanning cfg0 = false /\ IsWhitelisted peer0 = false
          /\ (100 <> 0 \/ 50 <> 0)
          /\ BanThreshold cfg0 < (sumScore (BanScore peer0) 100 50).1)
  /\ (DisableBanning cfg0 = true \/ IsWhitelisted peer0 = true
      \/ (100 = 0 /\ 50 = 0) ->
      np' = peer0 /\ effs = []).
Proof.
  apply (AddBanScore_bans sumScore cfg0 peer0 100 50).
  vm_compute. discriminate.
Defined.

Lemma filter_messages_without_bloom_witness :
  let '(np', effs) :=
    OnFilterMsgs listLoaded listAdd listUnload listReload sumScore
                 4 70011 cfg0 peer0
                 [MsgFilterLoad []; MsgFilterAdd []] in
  Filter np' = Filter peer0
  /\ DisableRelayTx np' = DisableRelayTx peer0
  /\ ([MsgFilterLoad []; MsgFilterAdd []] <> [] ->
      last effs = Some Disconnect)
  /\ (BanPeer ∈ effs ->
      70011 <= ProtocolVersion peer0
      /\ DisableBanning cfg0 = false /\ IsWhitelisted peer0 = false).
Proof.
  apply (filter_messages_without_bloom
           listLoaded listAdd listUnload listReload sumScore 4 70011
           cfg0 peer0 [MsgFilterLoad []; MsgFilterAdd []]).
  vm_compute. discriminate.
Defined.

(** The run of the witness: each of the two messages adds 100 to the
    ban score of the peer, and the second brings the ban. *)
Example OnFilterMsgs_peer0 :
  OnFilterMsgs listLoaded listAdd listUnload listReload sumScore
               4 70011 cfg0 peer0 [MsgFilterLoad []; MsgFilterAdd []]
  = (set_BanScore 200 peer0,
     [Disconnect; BanPeer; Disconnect; Disconnect]).
Proof. vm_compute. reflexivity. Qed.


Lemma OnAddr_backdates_witness :
  exists np' effs,
    OnAddr portKey 31402 cfg0 (fun _ => true)
           (fun _ => 100 * Time.Second) peer0
           [addr (200000 * Time.Second) 1; addr 0 2] = Some (np', effs)
    /\ KnownAddresses peer0 ⊆ KnownAddresses np'
    /\ forall addrs,
        AddAddresses addrs ∈ effs ->
        length addrs = length [addr (200000 * Time.Second) 1; addr 0 2]
        /\ forall k na,
            [addr (200000 * Time.Second) 1; addr 0 2] !! k = Some na ->
            exists na',
              addrs !! k = Some na'
              /\ Server.Timestamp na'
                 = backdated (100 * Time.Second) (Server.Timestamp na)
              /\ Server.Timestamp na'
                 <= 100 * Time.Second + ServerUtil.Minute * 10
              /\ Server.Services na' = Server.Services na
              /\ Server.IP na' = Server.IP na
              /\ Server.Port na' = Server.Port na
              /\ portKey na' ∈ KnownAddresses np'.
Proof.
  apply (OnAddr_backdates portKey 31402 cfg0 (fun _ => true)
                          (fun _ => 100 * Time.Second) peer0
                          [addr (200000 * Time.Second) 1; addr 0 2]).
  discriminate.
Defined.

End CallbackExamples.

(** ** Template identifiers: what decodes, and what collides *)

Section TemplateIDShape.

Import Str RPC PollSpec.

Lemma Split_one s sep f :
  Split s sep = [f] -> s = f /\ all_chars (not_char sep) f = true.
Proof.
  revert f. induction s as [|c s IH]; intros f; cbn [Split].
  - by intros [= <-].
  - destruct (Ascii.eqb c sep) eqn:Hc.
    + intros [= _ Hs]. by destruct (Split_nonempty s sep).
    + destruct (Split s sep) as [|f' fs] eqn:Hs.
      * by destruct (Split_nonempty s sep).
      * intros [= <- ->]. destruct (IH f' eq_refl) as [-> Hall].
        split; [done|]. cbn. unfold not_char at 1. by rewrite Hc, Hall.
Qed.

Lemma Split_two s sep f0 f1 :
  Split s sep = [f0; f1] ->
  s = (f0 ++ String sep f1)%string
  /\ all_chars (not_char sep) f0 = true
  /\ all_chars (not_char sep) f1 = true.
Proof.
  revert f0. induction s as [|c s IH]; intros f0; cbn [Split]; [done|].
  destruct (Ascii.eqb_spec c sep) as [->|Hc].
  - intros [= <- Hs]. destruct (Split_one _ _ _ Hs) as [-> Hall]. done.
  - destruct (Split s sep) as [|f' fs] eqn:Hs.
    + by destruct (Split_nonempty s sep).
    + intros [= <- ->]. destruct (IH f' eq_refl) as (-> & H0 & H1).
      split_and!; [done| |done]. cbn. unfold not_char at 1.
      apply Ascii.eqb_neq in Hc. by rewrite Hc, H0.
Qed.

Lemma parseDigits_nonneg s n r :
  0 <= n -> parseDigits s n = Some r -> 0 <= r.
Proof.
  revert n. induction s as [|c s IH]; intros n Hn; cbn [parseDigits].
  - by intros [= <-].
  - destruct (negb (is_digit c)); [done|].
    destruct (n >=? maxUint64 / 10 + 1); [done|].
    destruct (_ || _); [done|].
    apply IH. apply Z.mod_pos_bound. lia.
Qed.

Lemma ParseInt_unsigned s t :
  all_chars (not_char "-") s = true ->
  ParseInt s = Some t -> 0 <= t < 2 ^ 63.
Proof.
  intros Hdash. unfold ParseInt. destruct s as [|c s]; [done|].
  cbn [all_chars] in Hdash. apply andb_true_iff in Hdash as [Hc _].
  unfold not_char in Hc. apply negb_true_iff in Hc. rewrite Hc.
  assert (forall s0,
             match ParseUint s0 with
             | Some un =>
               if negb false && (un >=? 2 ^ 63) then None
               else if false && (un >? 2 ^ 63) then None
               else Some (if false then - un else un)
             | None => None
             end = Some t -> 0 <= t < 2 ^ 63) as Hpos.
  { intros s0. destruct (ParseUint s0) as [un|] eqn:Hu; [|done].
    cbn [negb andb].
    destruct (Z.geb_spec un (2 ^ 63)); [done|]. intros [= <-].
    split; [|lia]. unfold ParseUint in Hu.
    destruct s0; [done|]. by apply (parseDigits_nonneg _ 0 _ (Z.le_refl 0) Hu). }
  destruct (Ascii.eqb c "+"); apply Hpos.
Qed.

(** X29. What [DecodeTemplateID] accepts has exactly one dash: the
    text before it is what [NewHashFromStr] reads the hash from, and
    the text after it is what [ParseInt] reads the time from. As that
    text has no dash of its own, the time returned is never negative:
    an identifier with a negative time is refused. *)
Theorem DecodeTemplateID_shape
        (templateID : string) (prevHash : Hash) (lastGenerated : Z) :
  DecodeTemplateID templateID = Some (prevHash, lastGenerated) ->
  0 <= lastGenerated < 2 ^ 63
  /\ exists f0 f1,
      templateID = (f0 ++ String "-" f1)%string
      /\ all_chars (not_char "-") f0 = true
      /\ all_chars (not_char "-") f1 = true
      /\ NewHashFromStr f0 = Some prevHash
      /\ ParseInt f1 = Some lastGenerated.
Proof.
  unfold DecodeTemplateID.
  destruct (Split templateID "-") as [|f0 [|f1 [|f2 fs]]] eqn:Hs;
    try done.
  destruct (Split_two _ _ _ _ Hs) as (-> & H0 & H1).
  destruct (NewHashFromStr f0) as [hash|] eqn:Hd; [|done].
  destruct (ParseInt f1) as [t|] eqn:Hp; [|done].
  intros [= <- <-].
  split; [by apply (ParseInt_unsigned f1)|].
  by exists f0, f1.
Qed.

End TemplateIDShape.

Section TemplateIDShapeExamples.

Import Str RPC PollSpec.

Lemma DecodeTemplateID_shape_witness :
  0 <= 3 < 2 ^ 63
  /\ exists f0 f1,
      oldID = (f0 ++ String "-" f1)%string
      /\ all_chars (not_char "-") f0 = true
      /\ all_chars (not_char "-") f1 = true
      /\ NewHashFromStr f0 = Some (hashOf Byte.x0b)
      /\ ParseInt f1 = Some 3.
Proof.
  apply (DecodeTemplateID_shape oldID (hashOf Byte.x0b) 3).
  vm_compute. reflexivity.
Defined.

End TemplateIDShapeExamples.
